(** * CHIP-8 interpreter (src/chip8.cpp): shallow embedding and properties

    The class [Chip8] becomes a record of its data members, its member
    functions become functions that pass the record explicitly.  Fixed-width
    integers are [Z] with the wrap-around written out ([u8], [u16]);
    [std::array] is a list read and written by index.  Indexing a
    [std::array] outside its bounds is undefined behaviour in C++: every
    read and write is therefore explicit about its range and yields
    [Undefined] outside it. *)

From Stdlib Require Import ZArith Lia.
From stdpp Require Import base list strings.

Local Open Scope Z_scope.

(** ** Outcomes of a call *)

Inductive outcome (A : Type) : Type :=
| Done (a : A)                                (* the call returns *)
| Exited (status : Z) (err : list string)     (* exit(status), after writing err *)
| Undefined.                                  (* out-of-range array access *)

Arguments Done {A} a.
Arguments Exited {A} status err.
Arguments Undefined {A}.

#[global] Instance outcome_ret : MRet outcome := λ A a, Done a.
#[global] Instance outcome_bind : MBind outcome := λ A B f m,
  match m with
  | Done a => f a
  | Exited st e => Exited st e
  | Undefined => Undefined
  end.

(** ** Fixed-width arithmetic *)

Definition u8 (z : Z) : Z := z mod 256.
Definition u16 (z : Z) : Z := z mod 65536.

Arguments u8 : simpl never.
Arguments u16 : simpl never.

(** ** std::array access *)

Definition ld (a : list Z) (i : Z) : outcome Z :=
  if 0 <=? i then
    match a !! Z.to_nat i with
    | Some v => Done v
    | None => Undefined
    end
  else Undefined.

Definition st (a : list Z) (i v : Z) : outcome (list Z) :=
  if (0 <=? i) && (i <? Z.of_nat (length a))
  then Done (<[Z.to_nat i := v]> a)
  else Undefined.

(** [for (i = i0; i < i0 + n; ++i) body] with the loop-carried value [a]. *)
Fixpoint for_loop {A : Type} (n : nat) (i : Z)
    (body : Z → A → outcome A) (a : A) : outcome A :=
  match n with
  | O => Done a
  | S n' => a' ← body i a; for_loop n' (i + 1) body a'
  end.

(** ** Constants (chip8.cpp:12-19) *)

Definition MEMORY_SIZE : Z := 4096.
Definition REGISTER_COUNT : Z := 16.
Definition STACK_SIZE : Z := 16.
Definition KEYPAD_SIZE : Z := 16.
Definition DISPLAY_WIDTH : Z := 64.
Definition DISPLAY_HEIGHT : Z := 32.
Definition PROGRAM_START : Z := 0x200.
Definition FONTSET_SIZE : Z := 80.

Definition fontset : list Z :=
  [ 0xF0; 0x90; 0x90; 0x90; 0xF0;   (* 0 *)
    0x20; 0x60; 0x20; 0x20; 0x70;   (* 1 *)
    0xF0; 0x10; 0xF0; 0x80; 0xF0;   (* 2 *)
    0xF0; 0x10; 0xF0; 0x10; 0xF0;   (* 3 *)
    0x90; 0x90; 0xF0; 0x10; 0x10;   (* 4 *)
    0xF0; 0x80; 0xF0; 0x10; 0xF0;   (* 5 *)
    0xF0; 0x80; 0xF0; 0x90; 0xF0;   (* 6 *)
    0xF0; 0x10; 0x20; 0x40; 0x40;   (* 7 *)
    0xF0; 0x90; 0xF0; 0x90; 0xF0;   (* 8 *)
    0xF0; 0x90; 0xF0; 0x10; 0xF0;   (* 9 *)
    0xF0; 0x90; 0xF0; 0x90; 0x90;   (* A *)
    0xE0; 0x90; 0xE0; 0x90; 0xE0;   (* B *)
    0xF0; 0x80; 0x80; 0x80; 0xF0;   (* C *)
    0xE0; 0x90; 0x90; 0x90; 0xE0;   (* D *)
    0xF0; 0x80; 0xF0; 0x80; 0xF0;   (* E *)
    0xF0; 0x80; 0xF0; 0x80; 0x80 ]. (* F *)

(** ** The machine state: the data members of class Chip8 (chip8.cpp:58-71) *)

Record Chip8 : Type := mkChip8 {
  memory : list Z;      (* std::array<uint8_t, MEMORY_SIZE> *)
  V : list Z;           (* std::array<uint8_t, REGISTER_COUNT> *)
  I : Z;                (* uint16_t *)
  pc : Z;               (* uint16_t *)
  stack : list Z;       (* std::array<uint16_t, STACK_SIZE> *)
  sp : Z;               (* uint16_t *)
  display : list Z;     (* std::array<uint8_t, 64 * 32> *)
  keypad : list Z;      (* std::array<uint8_t, KEYPAD_SIZE> *)
  delayTimer : Z;       (* uint8_t *)
  soundTimer : Z;       (* uint8_t *)
  drawFlag : bool
}.

Definition set_memory (c : Chip8) (m : list Z) : Chip8 :=
  mkChip8 m (V c) (I c) (pc c) (stack c) (sp c) (display c) (keypad c)
          (delayTimer c) (soundTimer c) (drawFlag c).
Definition set_V (c : Chip8) (v : list Z) : Chip8 :=
  mkChip8 (memory c) v (I c) (pc c) (stack c) (sp c) (display c) (keypad c)
          (delayTimer c) (soundTimer c) (drawFlag c).
Definition set_I (c : Chip8) (i : Z) : Chip8 :=
  mkChip8 (memory c) (V c) i (pc c) (stack c) (sp c) (display c) (keypad c)
          (delayTimer c) (soundTimer c) (drawFlag c).
Definition set_pc (c : Chip8) (p : Z) : Chip8 :=
  mkChip8 (memory c) (V c) (I c) p (stack c) (sp c) (display c) (keypad c)
          (delayTimer c) (soundTimer c) (drawFlag c).
Definition set_stack (c : Chip8) (s : list Z) : Chip8 :=
  mkChip8 (memory c) (V c) (I c) (pc c) s (sp c) (display c) (keypad c)
          (delayTimer c) (soundTimer c) (drawFlag c).
Definition set_sp (c : Chip8) (s : Z) : Chip8 :=
  mkChip8 (memory c) (V c) (I c) (pc c) (stack c) s (display c) (keypad c)
          (delayTimer c) (soundTimer c) (drawFlag c).
Definition set_display (c : Chip8) (d : list Z) : Chip8 :=
  mkChip8 (memory c) (V c) (I c) (pc c) (stack c) (sp c) d (keypad c)
          (delayTimer c) (soundTimer c) (drawFlag c).
Definition set_keypad (c : Chip8) (k : list Z) : Chip8 :=
  mkChip8 (memory c) (V c) (I c) (pc c) (stack c) (sp c) (display c) k
          (delayTimer c) (soundTimer c) (drawFlag c).
Definition set_delayTimer (c : Chip8) (t : Z) : Chip8 :=
  mkChip8 (memory c) (V c) (I c) (pc c) (stack c) (sp c) (display c) (keypad c)
          t (soundTimer c) (drawFlag c).
Definition set_soundTimer (c : Chip8) (t : Z) : Chip8 :=
  mkChip8 (memory c) (V c) (I c) (pc c) (stack c) (sp c) (display c) (keypad c)
          (delayTimer c) t (drawFlag c).
Definition set_drawFlag (c : Chip8) (b : bool) : Chip8 :=
  mkChip8 (memory c) (V c) (I c) (pc c) (stack c) (sp c) (display c) (keypad c)
          (delayTimer c) (soundTimer c) b.

(** [pc += k] on a uint16_t. *)
Definition advance (c : Chip8) (k : Z) : Chip8 := set_pc c (u16 (pc c + k)).

(** A state is well formed when every array has the size of its type and
    every integer is in the range of its type. *)
Definition bytes (l : list Z) : Prop := Forall (λ b, 0 <= b < 256) l.
Definition words (l : list Z) : Prop := Forall (λ w, 0 <= w < 65536) l.

Record wf (c : Chip8) : Prop := mk_wf {
  wf_memory_len : length (memory c) = Z.to_nat MEMORY_SIZE;
  wf_memory : bytes (memory c);
  wf_V_len : length (V c) = Z.to_nat REGISTER_COUNT;
  wf_V : bytes (V c);
  wf_I : 0 <= I c < 65536;
  wf_pc : 0 <= pc c < 65536;
  wf_stack_len : length (stack c) = Z.to_nat STACK_SIZE;
  wf_stack : words (stack c);
  wf_sp : 0 <= sp c < 65536;
  wf_display_len : length (display c) = Z.to_nat (DISPLAY_WIDTH * DISPLAY_HEIGHT);
  wf_display : bytes (display c);
  wf_keypad_len : length (keypad c) = Z.to_nat KEYPAD_SIZE;
  wf_keypad : bytes (keypad c);
  wf_delayTimer : 0 <= delayTimer c < 256;
  wf_soundTimer : 0 <= soundTimer c < 256
}.

Definition in_range (lo hi : Z) (z : Z) : bool := (lo <=? z) && (z <? hi).

Definition wfb (c : Chip8) : bool :=
  (length (memory c) =? Z.to_nat MEMORY_SIZE)%nat
  && forallb (in_range 0 256) (memory c)
  && (length (V c) =? Z.to_nat REGISTER_COUNT)%nat
  && forallb (in_range 0 256) (V c)
  && in_range 0 65536 (I c)
  && in_range 0 65536 (pc c)
  && (length (stack c) =? Z.to_nat STACK_SIZE)%nat
  && forallb (in_range 0 65536) (stack c)
  && in_range 0 65536 (sp c)
  && (length (display c) =? Z.to_nat (DISPLAY_WIDTH * DISPLAY_HEIGHT))%nat
  && forallb (in_range 0 256) (display c)
  && (length (keypad c) =? Z.to_nat KEYPAD_SIZE)%nat
  && forallb (in_range 0 256) (keypad c)
  && in_range 0 256 (delayTimer c)
  && in_range 0 256 (soundTimer c).

(** ** Chip8::Chip8 (chip8.cpp:24-44) *)

Definition Chip8_new : outcome Chip8 :=
  let memory0 := replicate (Z.to_nat MEMORY_SIZE) 0 in
  mem ← for_loop (Z.to_nat FONTSET_SIZE) 0
          (λ i m, f ← ld fontset i; st m (0x50 + i) f) memory0;
  mret (mkChip8 mem
          (replicate (Z.to_nat REGISTER_COUNT) 0)
          0
          PROGRAM_START
          (replicate (Z.to_nat STACK_SIZE) 0)
          0
          (replicate (Z.to_nat (DISPLAY_WIDTH * DISPLAY_HEIGHT)) 0)
          (replicate (Z.to_nat KEYPAD_SIZE) 0)
          0 0 false).

(** The constructor's loop stays inside both arrays; [init] is the state
    it builds. *)
Definition init : Chip8 :=
  match Chip8_new with
  | Done c => c
  | _ => mkChip8 [] [] 0 0 [] 0 [] [] 0 0 false
  end.

(** ** Diagnostics written to std::cerr *)

Definition hex_digit (d : Z) : string :=
  match String.get (Z.to_nat d) "0123456789abcdef" with
  | Some ch => String ch ""
  | None => ""
  end.

(** [std::hex] rendering of an unsigned value: no prefix, no leading zeros,
    lower case.  A uint16_t has at most four digits. *)
Fixpoint hex_aux (fuel : nat) (z : Z) (acc : string) : string :=
  match fuel with
  | O => acc
  | S fuel' =>
      let acc' := hex_digit (z mod 16) +:+ acc in
      if z / 16 =? 0 then acc' else hex_aux fuel' (z / 16) acc'
  end.

Definition hex (z : Z) : string := hex_aux 4 z "".

(** ** Chip8::fetchOpcode (chip8.cpp:127-130) *)

Definition fetchOpcode (c : Chip8) : outcome Z :=
  hi ← ld (memory c) (pc c);
  lo ← ld (memory c) (pc c + 1);
  mret (u16 (Z.lor (Z.shiftl hi 8) lo)).

(** ** Chip8::executeOpcode (chip8.cpp:132-423)

    The result pairs the new state with the lines written to std::cerr.
    [rnd] is the value returned by rand() should the opcode call it. *)

Definition ok (c : Chip8) : outcome (Chip8 * list string) := Done (c, []).

Definition skip_if (c : Chip8) (b : bool) : outcome (Chip8 * list string) :=
  if b then ok (advance c 4) else ok (advance c 2).

(** case 0x0000 (chip8.cpp:139-152) *)
Definition exec_0 (c : Chip8) (opcode : Z) : outcome (Chip8 * list string) :=
  if opcode =? 0x00E0 then
    let c1 := set_display c (replicate (length (display c)) 0) in
    let c2 := set_drawFlag c1 true in
    ok (advance c2 2)
  else if opcode =? 0x00EE then
    let c1 := set_sp c (u16 (sp c - 1)) in
    ret ← ld (stack c1) (sp c1);
    let c2 := set_pc c1 ret in
    ok (advance c2 2)
  else ok c.

(** case 0x2000 (chip8.cpp:156-160) *)
Definition exec_2 (c : Chip8) (opcode : Z) : outcome (Chip8 * list string) :=
  stack' ← st (stack c) (sp c) (pc c);
  let c1 := set_stack c stack' in
  let c2 := set_sp c1 (u16 (sp c1 + 1)) in
  ok (set_pc c2 (Z.land opcode 0x0FFF)).

(** case 0x8000 (chip8.cpp:199-259) *)
Definition exec_8 (c : Chip8) (opcode : Z) : outcome (Chip8 * list string) :=
  let x := Z.shiftr (Z.land opcode 0x0F00) 8 in
  let y := Z.shiftr (Z.land opcode 0x00F0) 4 in
  let n := Z.land opcode 0x000F in
  if n =? 0x0 then
    vy ← ld (V c) y;
    V1 ← st (V c) x vy;
    ok (advance (set_V c V1) 2)
  else if n =? 0x1 then
    vx ← ld (V c) x; vy ← ld (V c) y;
    V1 ← st (V c) x (Z.lor vx vy);
    ok (advance (set_V c V1) 2)
  else if n =? 0x2 then
    vx ← ld (V c) x; vy ← ld (V c) y;
    V1 ← st (V c) x (Z.land vx vy);
    ok (advance (set_V c V1) 2)
  else if n =? 0x3 then
    vx ← ld (V c) x; vy ← ld (V c) y;
    V1 ← st (V c) x (Z.lxor vx vy);
    ok (advance (set_V c V1) 2)
  else if n =? 0x4 then
    vx ← ld (V c) x; vy ← ld (V c) y;
    let sum := u16 (vx + vy) in
    V1 ← st (V c) 0xF (if sum >? 0xFF then 1 else 0);
    V2 ← st V1 x (Z.land sum 0xFF);
    ok (advance (set_V c V2) 2)
  else if n =? 0x5 then
    vx ← ld (V c) x; vy ← ld (V c) y;
    V1 ← st (V c) 0xF (if vx >? vy then 1 else 0);
    vx1 ← ld V1 x; vy1 ← ld V1 y;
    V2 ← st V1 x (u8 (vx1 - vy1));
    ok (advance (set_V c V2) 2)
  else if n =? 0x6 then
    vx ← ld (V c) x;
    V1 ← st (V c) 0xF (Z.land vx 0x1);
    vx1 ← ld V1 x;
    V2 ← st V1 x (Z.shiftr vx1 1);
    ok (advance (set_V c V2) 2)
  else if n =? 0x7 then
    vy ← ld (V c) y; vx ← ld (V c) x;
    V1 ← st (V c) 0xF (if vy >? vx then 1 else 0);
    vy1 ← ld V1 y; vx1 ← ld V1 x;
    V2 ← st V1 x (u8 (vy1 - vx1));
    ok (advance (set_V c V2) 2)
  else if n =? 0xE then
    vx ← ld (V c) x;
    V1 ← st (V c) 0xF (Z.shiftr (Z.land vx 0x80) 7);
    vx1 ← ld V1 x;
    V2 ← st V1 x (u8 (Z.shiftl vx1 1));
    ok (advance (set_V c V2) 2)
  else
    Done (c, ["Unknown 0x8 instruction: 0x" +:+ hex opcode]).

(** case 0xD000 (chip8.cpp:281-308): the body of the inner loop, for the
    sprite byte [sprite] of row [row] drawn from ([x], [y]). *)
Definition draw_col (x y row sprite : Z) (col : Z) (c : Chip8) : outcome Chip8 :=
  if negb (Z.land sprite (Z.shiftr 0x80 col) =? 0) then
    let index := (y + row) * DISPLAY_WIDTH + (x + col) in
    d ← ld (display c) index;
    c1 ← (if d =? 1
          then V1 ← st (V c) 0xF 1; mret (set_V c V1)
          else mret c);
    d1 ← ld (display c1) index;
    display' ← st (display c1) index (Z.lxor d1 1);
    mret (set_display c1 display')
  else mret c.

Definition draw_row (x y : Z) (row : Z) (c : Chip8) : outcome Chip8 :=
  sprite ← ld (memory c) (I c + row);
  for_loop 8 0 (draw_col x y row sprite) c.

Definition exec_D (c : Chip8) (opcode : Z) : outcome (Chip8 * list string) :=
  vx ← ld (V c) (Z.shiftr (Z.land opcode 0x0F00) 8);
  vy ← ld (V c) (Z.shiftr (Z.land opcode 0x00F0) 4);
  let x := vx mod DISPLAY_WIDTH in
  let y := vy mod DISPLAY_HEIGHT in
  let height := Z.land opcode 0x000F in
  V1 ← st (V c) 0xF 0;
  c1 ← for_loop (Z.to_nat height) 0 (draw_row x y) (set_V c V1);
  ok (advance (set_drawFlag c1 true) 2).

(** case 0xE000 (chip8.cpp:309-333); the inner switch has no default. *)
Definition exec_E (c : Chip8) (opcode : Z) : outcome (Chip8 * list string) :=
  let x := Z.shiftr (Z.land opcode 0x0F00) 8 in
  let nn := Z.land opcode 0x00FF in
  if nn =? 0x9E then
    vx ← ld (V c) x;
    k ← ld (keypad c) vx;
    skip_if c (negb (k =? 0))
  else if nn =? 0xA1 then
    vx ← ld (V c) x;
    k ← ld (keypad c) vx;
    skip_if c (k =? 0)
  else ok c.

(** Fx0A (chip8.cpp:342-360): the loop over the keypad, from key [i] with
    [n] keys left; the boolean is [keyPressed]. *)
Fixpoint scan_keys (n : nat) (i : Z) (x : Z) (c : Chip8) : outcome (Chip8 * bool) :=
  match n with
  | O => mret (c, false)
  | S n' =>
      k ← ld (keypad c) i;
      if negb (k =? 0) then
        V1 ← st (V c) x i;
        mret (set_V c V1, true)
      else scan_keys n' (i + 1) x c
  end.

(** Fx55 and Fx65 (chip8.cpp:392-412): the bodies of the two copy loops. *)
Definition store_reg (i : Z) (c : Chip8) : outcome Chip8 :=
  vi ← ld (V c) i;
  m ← st (memory c) (I c + i) vi;
  mret (set_memory c m).

Definition load_reg (i : Z) (c : Chip8) : outcome Chip8 :=
  mi ← ld (memory c) (I c + i);
  V1 ← st (V c) i mi;
  mret (set_V c V1).

(** case 0xF000 (chip8.cpp:334-418) *)
Definition exec_F (c : Chip8) (opcode : Z) : outcome (Chip8 * list string) :=
  let x := Z.shiftr (Z.land opcode 0x0F00) 8 in
  let nn := Z.land opcode 0x00FF in
  if nn =? 0x07 then
    V1 ← st (V c) x (delayTimer c);
    ok (advance (set_V c V1) 2)
  else if nn =? 0x0A then
    r ← scan_keys (Z.to_nat KEYPAD_SIZE) 0 x c;
    let '(c1, keyPressed) := r in
    if negb keyPressed then ok c1 else ok (advance c1 2)
  else if nn =? 0x15 then
    vx ← ld (V c) x;
    ok (advance (set_delayTimer c vx) 2)
  else if nn =? 0x18 then
    vx ← ld (V c) x;
    ok (advance (set_soundTimer c vx) 2)
  else if nn =? 0x1E then
    vx ← ld (V c) x;
    ok (advance (set_I c (u16 (I c + vx))) 2)
  else if nn =? 0x29 then
    vx ← ld (V c) x;
    ok (advance (set_I c (u16 (vx * 5))) 2)
  else if nn =? 0x33 then
    value ← ld (V c) x;
    m1 ← st (memory c) (I c) (value / 100);
    m2 ← st m1 (I c + 1) ((value / 10) mod 10);
    m3 ← st m2 (I c + 2) (value mod 10);
    ok (advance (set_memory c m3) 2)
  else if nn =? 0x55 then
    c1 ← for_loop (Z.to_nat (x + 1)) 0 store_reg c;
    ok (advance c1 2)
  else if nn =? 0x65 then
    c1 ← for_loop (Z.to_nat (x + 1)) 0 load_reg c;
    ok (advance c1 2)
  else
    Done (c, ["Unknown 0xF instruction: 0x" +:+ hex opcode]).

Definition executeOpcode (c : Chip8) (opcode rnd : Z) : outcome (Chip8 * list string) :=
  let sw := Z.land opcode 0xF000 in
  if sw =? 0x0000 then exec_0 c opcode
  else if sw =? 0x1000 then
    ok (set_pc c (Z.land opcode 0x0FFF))
  else if sw =? 0x2000 then exec_2 c opcode
  else if sw =? 0x3000 then
    vx ← ld (V c) (Z.shiftr (Z.land opcode 0x0F00) 8);
    skip_if c (vx =? Z.land opcode 0x00FF)
  else if sw =? 0x4000 then
    vx ← ld (V c) (Z.shiftr (Z.land opcode 0xF00) 8);
    if vx =? Z.land opcode 0x00FF then ok (advance c 2) else ok (advance c 4)
  else if sw =? 0x5000 then
    vx ← ld (V c) (Z.shiftr (Z.land opcode 0x0F00) 8);
    vy ← ld (V c) (Z.shiftr (Z.land opcode 0x00F0) 4);
    skip_if c (vx =? vy)
  else if sw =? 0x6000 then
    V1 ← st (V c) (Z.shiftr (Z.land opcode 0x0F00) 8) (Z.land opcode 0x00FF);
    ok (advance (set_V c V1) 2)
  else if sw =? 0x7000 then
    vx ← ld (V c) (Z.shiftr (Z.land opcode 0x0F00) 8);
    V1 ← st (V c) (Z.shiftr (Z.land opcode 0x0F00) 8) (u8 (vx + Z.land opcode 0x00FF));
    ok (advance (set_V c V1) 2)
  else if sw =? 0x8000 then exec_8 c opcode
  else if sw =? 0x9000 then
    vx ← ld (V c) (Z.shiftr (Z.land opcode 0x0F00) 8);
    vy ← ld (V c) (Z.shiftr (Z.land opcode 0x00F0) 4);
    skip_if c (negb (vx =? vy))
  else if sw =? 0xA000 then
    ok (advance (set_I c (Z.land opcode 0x0FFF)) 2)
  else if sw =? 0xB000 then
    v0 ← ld (V c) 0;
    ok (set_pc c (u16 (Z.land opcode 0x0FFF + v0)))
  else if sw =? 0xC000 then
    V1 ← st (V c) (Z.shiftr (Z.land opcode 0x0F00) 8)
            (Z.land (rnd mod 256) (Z.land opcode 0x00FF));
    ok (advance (set_V c V1) 2)
  else if sw =? 0xD000 then exec_D c opcode
  else if sw =? 0xE000 then exec_E c opcode
  else if sw =? 0xF000 then exec_F c opcode
  else
    Done (c, ["Unknown opcode: 0x" +:+ hex opcode]).

(** ** Chip8::emulateCycle (chip8.cpp:425-439) *)

Definition tick (c : Chip8) : Chip8 :=
  let c1 := if delayTimer c >? 0 then set_delayTimer c (delayTimer c - 1) else c in
  if soundTimer c1 >? 0 then set_soundTimer c1 (soundTimer c1 - 1) else c1.

Definition emulateCycle (c : Chip8) (rnd : Z) : outcome (Chip8 * list string) :=
  opcode ← fetchOpcode c;
  r ← executeOpcode c opcode rnd;
  let '(c1, err) := r in
  mret (tick c1, err).

(** ** Chip8::renderDisplay (chip8.cpp:441-462): its effect on the machine *)

Definition renderDisplay (c : Chip8) : Chip8 := set_drawFlag c false.

(** ** Chip8::setKeyState (chip8.cpp:464-470) *)

Definition setKeyState (c : Chip8) (key : Z) (pressed : bool) : outcome Chip8 :=
  if key <? KEYPAD_SIZE then
    k ← st (keypad c) key (if pressed then 1 else 0);
    mret (set_keypad c k)
  else mret c.

(** ** Chip8::loadROM (chip8.cpp:96-125)

    [file] is the content of the file named [filename], [None] when it
    cannot be opened. *)

Definition loadROM (c : Chip8) (filename : string) (file : option (list Z))
    : outcome (Chip8 * list string) :=
  match file with
  | None => Done (c, ["Failed to open ROM: " +:+ filename])
  | Some buffer =>
      let size := Z.of_nat (length buffer) in
      if size >? MEMORY_SIZE then
        Exited 1 ["ROM FILE size exceeded limits"]
      else
        m ← for_loop (length buffer) 0
              (λ i m, b ← ld buffer i; st m (PROGRAM_START + i) b) (memory c);
        ok (set_memory c m)
  end.

(** ** Reading the state in statements

    [get a i] is the element [a[i]] for an index inside the array. *)

Definition get (a : list Z) (i : Z) : Z := default 0 (a !! Z.to_nat i).
Definition reg (c : Chip8) (x : Z) : Z := get (V c) x.
Definition mem (c : Chip8) (addr : Z) : Z := get (memory c) addr.
Definition pixel (c : Chip8) (index : Z) : Z := get (display c) index.
Definition key (c : Chip8) (k : Z) : Z := get (keypad c) k.

(** ** Vocabulary of the statements *)

(** The framebuffer cell that row [row], column [col] of a sprite drawn
    from ([x], [y]) lands on: the index arithmetic of chip8.cpp:295. *)
Definition cell (x y row col : Z) : Z :=
  (y + row) * DISPLAY_WIDTH + (x + col).

(** Bit [col] (from the left) of row [row] of the sprite at memory[I..]:
    the test of chip8.cpp:293. *)
Definition lit (c : Chip8) (row col : Z) : bool :=
  negb (Z.land (mem c (I c + row)) (Z.shiftr 0x80 col) =? 0).

(** Sprite bit ([r'], [col']) of the sprite at memory[I..] of [c] is set and
    drawn before the loops of Dxyn reach ([r], [col]). *)
Definition before (c : Chip8) (r col r' col' : Z) : Prop :=
  0 <= r' ∧ 0 <= col' < 8 ∧ (r' < r ∨ (r' = r ∧ col' < col))
  ∧ lit c r' col' = true.

(** The loop invariant of Dxyn at ([r], [col]), for the state [c] on entry
    and the sprite position ([x], [y]): only V[0xF] and the display differ
    from [c]; every cell drawn so far is toggled, the others are as they
    were; V[0xF] is 1 if one of the drawn cells held 1, and 0 otherwise. *)
Definition drawn (c : Chip8) (x y : Z) (r col : Z) (s : Chip8) : Prop :=
  ∃ d vf,
    s = set_display (set_V c (<[15%nat := vf]> (V c))) d
    ∧ length d = length (display c)
    ∧ (∀ r' col', before c r col r' col' →
         get d (cell x y r' col') = Z.lxor (pixel c (cell x y r' col')) 1)
    ∧ (∀ i, 0 <= i → (∀ r' col', before c r col r' col' → i ≠ cell x y r' col') →
         get d i = pixel c i)
    ∧ ((vf = 1 ∧ ∃ r' col', before c r col r' col' ∧ pixel c (cell x y r' col') = 1)
       ∨ (vf = 0 ∧ ∀ r' col', before c r col r' col' → pixel c (cell x y r' col') ≠ 1)).

(** The opcodes for which some branch of the switch is taken. *)
Definition recognized (op : Z) : bool :=
  let sw := Z.land op 0xF000 in
  let n := Z.land op 0x000F in
  let nn := Z.land op 0x00FF in
  if sw =? 0x0000 then (op =? 0x00E0) || (op =? 0x00EE)
  else if sw =? 0x8000 then
    (n =? 0x0) || (n =? 0x1) || (n =? 0x2) || (n =? 0x3) || (n =? 0x4)
    || (n =? 0x5) || (n =? 0x6) || (n =? 0x7) || (n =? 0xE)
  else if sw =? 0xE000 then (nn =? 0x9E) || (nn =? 0xA1)
  else if sw =? 0xF000 then
    (nn =? 0x07) || (nn =? 0x0A) || (nn =? 0x15) || (nn =? 0x18) || (nn =? 0x1E)
    || (nn =? 0x29) || (nn =? 0x33) || (nn =? 0x55) || (nn =? 0x65)
  else true.

(** What an unrecognized opcode writes to std::cerr. *)
Definition unknown_report (op : Z) : list string :=
  let sw := Z.land op 0xF000 in
  if sw =? 0x8000 then ["Unknown 0x8 instruction: 0x" +:+ hex op]
  else if sw =? 0xF000 then ["Unknown 0xF instruction: 0x" +:+ hex op]
  else [].

(** What one instruction can do to the stack: [stack_step c c'] holds when
    [c'] has a stack array of the same size and a stack pointer that is
    the old one, one more after a store inside the array, or one less and
    inside the array. *)
Definition stack_step (c c' : Chip8) : Prop :=
  length (stack c') = length (stack c)
  ∧ (sp c' = sp c
     ∨ (0 <= sp c < Z.of_nat (length (stack c)) ∧ sp c' = u16 (sp c + 1))
     ∨ (0 <= sp c' < Z.of_nat (length (stack c)) ∧ sp c' = u16 (sp c - 1))).

(** [c'] has the stack and the stack pointer of [c]. *)
Definition stack_kept (c c' : Chip8) : Prop :=
  stack c' = stack c ∧ sp c' = sp c.

(** The stack invariant: the array has its 16 slots and the pointer is at
    most 16. *)
Definition stack_inv (c : Chip8) : Prop :=
  length (stack c) = Z.to_nat STACK_SIZE ∧ 0 <= sp c <= STACK_SIZE.

(** Reachable states.

    What main does with the machine (chip8.cpp:503-582): build it, load a
    ROM, then forward key events, run cycles and render. *)

Inductive reachable : Chip8 → Prop :=
| reach_init : reachable init
| reach_load (c : Chip8) (filename : string) (file : option (list Z))
    (c' : Chip8) (err : list string) :
    reachable c → from_option bytes True file →
    loadROM c filename file = Done (c', err) → reachable c'
| reach_key (c : Chip8) (k : Z) (pressed : bool) (c' : Chip8) :
    reachable c → 0 <= k < 256 → setKeyState c k pressed = Done c' →
    reachable c'
| reach_cycle (c : Chip8) (rnd : Z) (c' : Chip8) (err : list string) :
    reachable c → emulateCycle c rnd = Done (c', err) → reachable c'
| reach_render (c : Chip8) :
    reachable c → reachable (renderDisplay c).

(** The loop of main without key events: a cycle, then a render when the
    draw flag is up; rand() is taken to return 0. *)
Fixpoint main_loop (n : nat) (c : Chip8) : outcome Chip8 :=
  match n with
  | O => Done c
  | S n' =>
      r ← emulateCycle c 0;
      main_loop n' (if drawFlag r.1 then renderDisplay r.1 else r.1)
  end.

(** ** The fields an instruction may write *)

Inductive field : Type :=
| FMemory | FV | FI | FPc | FStack | FSp | FDisplay | FKeypad
| FDelayTimer | FSoundTimer | FDrawFlag.

#[global] Instance field_eq_dec : EqDecision field.
Proof. solve_decision. Defined.

(** [same_field fld c c']: field [fld] of [c'] is the one of [c]. *)
Definition same_field (fld : field) (c c' : Chip8) : Prop :=
  match fld with
  | FMemory => memory c' = memory c
  | FV => V c' = V c
  | FI => I c' = I c
  | FPc => pc c' = pc c
  | FStack => stack c' = stack c
  | FSp => sp c' = sp c
  | FDisplay => display c' = display c
  | FKeypad => keypad c' = keypad c
  | FDelayTimer => delayTimer c' = delayTimer c
  | FSoundTimer => soundTimer c' = soundTimer c
  | FDrawFlag => drawFlag c' = drawFlag c
  end.

(** [c'] differs from [c] at most in the fields listed in [l]. *)
Definition same_except (l : list field) (c c' : Chip8) : Prop :=
  ∀ fld, fld ∉ l → same_field fld c c'.

(** The fields assigned in the branch of executeOpcode that [op] takes
    (chip8.cpp:137-422), read off the assignments of each case. *)
Definition writes (op : Z) : list field :=
  let sw := Z.land op 0xF000 in
  let n := Z.land op 0x000F in
  let nn := Z.land op 0x00FF in
  if sw =? 0x0000 then
    if op =? 0x00E0 then [FDisplay; FDrawFlag; FPc]
    else if op =? 0x00EE then [FSp; FPc]
    else []
  else if sw =? 0x1000 then [FPc]
  else if sw =? 0x2000 then [FStack; FSp; FPc]
  else if sw =? 0x3000 then [FPc]
  else if sw =? 0x4000 then [FPc]
  else if sw =? 0x5000 then [FPc]
  else if sw =? 0x6000 then [FV; FPc]
  else if sw =? 0x7000 then [FV; FPc]
  else if sw =? 0x8000 then
    if recognized op then [FV; FPc] else []
  else if sw =? 0x9000 then [FPc]
  else if sw =? 0xA000 then [FI; FPc]
  else if sw =? 0xB000 then [FPc]
  else if sw =? 0xC000 then [FV; FPc]
  else if sw =? 0xD000 then [FV; FDisplay; FDrawFlag; FPc]
  else if sw =? 0xE000 then
    if recognized op then [FPc] else []
  else if sw =? 0xF000 then
    if nn =? 0x07 then [FV; FPc]
    else if nn =? 0x0A then [FV; FPc]
    else if nn =? 0x15 then [FDelayTimer; FPc]
    else if nn =? 0x18 then [FSoundTimer; FPc]
    else if nn =? 0x1E then [FI; FPc]
    else if nn =? 0x29 then [FI; FPc]
    else if nn =? 0x33 then [FMemory; FPc]
    else if nn =? 0x55 then [FMemory; FPc]
    else if nn =? 0x65 then [FV; FPc]
    else []
  else [].

(** ** Key events of main (chip8.cpp:517-571)

    The key symbols the switch of main handles; every other symbol falls
    through the switch. *)

Inductive SDL_Keycode : Type :=
| SDLK_1 | SDLK_2 | SDLK_3 | SDLK_4
| SDLK_q | SDLK_w | SDLK_e | SDLK_r
| SDLK_a | SDLK_s | SDLK_d | SDLK_f
| SDLK_z | SDLK_x | SDLK_c | SDLK_v
| SDLK_other.

(** The CHIP-8 key the switch passes to setKeyState, if any. *)
Definition keymap (sym : SDL_Keycode) : option Z :=
  match sym with
  | SDLK_1 => Some 0x1
  | SDLK_2 => Some 0x2
  | SDLK_3 => Some 0x3
  | SDLK_4 => Some 0xC
  | SDLK_q => Some 0x4
  | SDLK_w => Some 0x5
  | SDLK_e => Some 0x6
  | SDLK_r => Some 0xD
  | SDLK_a => Some 0x7
  | SDLK_s => Some 0x8
  | SDLK_d => Some 0x9
  | SDLK_f => Some 0xE
  | SDLK_z => Some 0xA
  | SDLK_x => Some 0x0
  | SDLK_c => Some 0xB
  | SDLK_v => Some 0xF
  | SDLK_other => None
  end.

(** An SDL_KEYDOWN ([pressed] = true) or SDL_KEYUP event for [sym]. *)
Definition key_event (c : Chip8) (sym : SDL_Keycode) (pressed : bool)
    : outcome Chip8 :=
  match keymap sym with
  | Some k => setKeyState c k pressed
  | None => mret c
  end.

(** The state after an ALU instruction that wrote [flag] to VF and then
    [result] to Vx. *)
Definition alu_result (c : Chip8) (x flag result : Z) : Chip8 :=
  set_pc (set_V c (<[Z.to_nat x := result]> (<[15%nat := flag]> (V c))))
         (u16 (pc c + 2)).

(** ** Concrete machines used in the examples *)

(** The state [c] with the registers listed in [rs] set. *)
Definition with_regs (c : Chip8) (rs : list (Z * Z)) : Chip8 :=
  set_V c (foldl (λ v r, <[Z.to_nat r.1 := r.2]> v) (V c) rs).

(** The state [c] with the bytes [code] placed in memory from [addr] on. *)
Definition with_code (c : Chip8) (addr : Z) (code : list Z) : Chip8 :=
  set_memory c
    (foldl (λ m b, <[Z.to_nat (addr + b.1) := b.2]> m) (memory c)
           (zip (map Z.of_nat (seq 0 (length code))) code)).

(** A machine waiting on F30A at 0x200 with the delay timer at 5. *)
Definition waiting : Chip8 :=
  set_delayTimer (with_code init 0x200 [0xF3; 0x0A]) 5.

(** A ROM whose first instruction calls itself. *)
Definition self_call : list Z := [0x22; 0x00].

(** A ROM that points I at the last byte of memory and stores V0..V1
    there. *)
Definition store_past_end : list Z := [0xAF; 0xFF; 0xF1; 0x55].

(** Digit 0 of the font, drawn at column 62 of row 3 on an empty screen. *)
Definition glyph_at_edge : Chip8 :=
  set_I (with_regs init [(0, 62); (1, 3)]) 0x50.

(** A full sprite row drawn from column 62, and a two-row sprite drawn
    from row 31. *)
Definition row_at_edge : Chip8 :=
  set_I (with_code (with_regs init [(0, 62); (1, 0)]) 0x300 [0xFF]) 0x300.

Definition rows_at_bottom : Chip8 :=
  set_I (with_code (with_regs init [(0, 0); (1, 31)]) 0x300 [0xFF; 0xFF]) 0x300.

(** * Properties *)

(** ** The constructor *)

Lemma Chip8_new_done : Chip8_new = Done init.
Proof. vm_compute. reflexivity. Qed.

(** ** Array access lemmas *)

Lemma ld_get (a : list Z) (i : Z) :
  0 <= i < Z.of_nat (length a) → ld a i = Done (get a i).
Proof.
  intros Hi. unfold ld, get.
  destruct (Z.leb_spec 0 i); [|lia].
  destruct (lookup_lt_is_Some_2 a (Z.to_nat i)) as [v Hv]; [lia|].
  by rewrite Hv.
Qed.

Lemma ld_out (a : list Z) (i : Z) :
  i < 0 ∨ Z.of_nat (length a) <= i → ld a i = Undefined.
Proof.
  intros Hi. unfold ld.
  destruct (Z.leb_spec 0 i); [|done].
  rewrite lookup_ge_None_2; [done|lia].
Qed.

Lemma ld_Done_inv (a : list Z) (i v : Z) :
  ld a i = Done v → 0 <= i < Z.of_nat (length a) ∧ v = get a i.
Proof.
  intros H.
  destruct (decide (0 <= i < Z.of_nat (length a))) as [Hi|Hi].
  - rewrite ld_get in H by done. by inversion H.
  - rewrite ld_out in H by lia. done.
Qed.

Lemma st_in (a : list Z) (i v : Z) :
  0 <= i < Z.of_nat (length a) → st a i v = Done (<[Z.to_nat i := v]> a).
Proof.
  intros Hi. unfold st.
  destruct (Z.leb_spec 0 i); [|lia].
  destruct (Z.ltb_spec i (Z.of_nat (length a))); [done|lia].
Qed.

Lemma st_out (a : list Z) (i v : Z) :
  i < 0 ∨ Z.of_nat (length a) <= i → st a i v = Undefined.
Proof.
  intros Hi. unfold st.
  destruct (Z.leb_spec 0 i); [|done].
  destruct (Z.ltb_spec i (Z.of_nat (length a))); [lia|done].
Qed.

Lemma st_Done_inv (a a' : list Z) (i v : Z) :
  st a i v = Done a' →
  0 <= i < Z.of_nat (length a) ∧ a' = <[Z.to_nat i := v]> a.
Proof.
  intros H.
  destruct (decide (0 <= i < Z.of_nat (length a))) as [Hi|Hi].
  - rewrite st_in in H by done. by inversion H.
  - rewrite st_out in H by lia. done.
Qed.

Lemma get_insert_eq (a : list Z) (i v : Z) :
  0 <= i < Z.of_nat (length a) → get (<[Z.to_nat i := v]> a) i = v.
Proof.
  intros Hi. unfold get. rewrite list_lookup_insert_eq; [done|lia].
Qed.

Lemma get_insert_ne (a : list Z) (i j v : Z) :
  0 <= i → 0 <= j → i ≠ j → get (<[Z.to_nat i := v]> a) j = get a j.
Proof.
  intros Hi Hj Hne. unfold get. rewrite list_lookup_insert_ne; [done|lia].
Qed.

Lemma get_bytes (a : list Z) (i : Z) :
  bytes a → 0 <= i < Z.of_nat (length a) → 0 <= get a i < 256.
Proof.
  intros Ha Hi. unfold get.
  destruct (lookup_lt_is_Some_2 a (Z.to_nat i)) as [v Hv]; [lia|].
  rewrite Hv. simpl. exact (Forall_lookup_1 _ a _ _ Ha Hv).
Qed.

Lemma get_replicate (n : nat) (v i : Z) :
  0 <= i < Z.of_nat n → get (replicate n v) i = v.
Proof.
  intros Hi. unfold get. rewrite lookup_replicate_2; [done|lia].
Qed.

(** ** Loops *)

(** Invariant rule for [for_loop]. *)
Lemma for_loop_inv {A : Type} (P : Z → A → Prop) (body : Z → A → outcome A) :
  ∀ (n : nat) (i : Z) (a : A),
    P i a →
    (∀ j b, i <= j < i + Z.of_nat n → P j b →
            ∃ b', body j b = Done b' ∧ P (j + 1) b') →
    ∃ a', for_loop n i body a = Done a' ∧ P (i + Z.of_nat n) a'.
Proof.
  induction n as [|n IH]; intros i a Ha Hbody.
  - exists a. split; [done|]. by replace (i + Z.of_nat 0) with i by lia.
  - destruct (Hbody i a) as (b & Hb & HPb); [lia|done|].
    destruct (IH (i + 1) b) as (a' & Ha' & HP'); [done| |].
    + intros j b0 Hj. apply Hbody. lia.
    + exists a'. split.
      * simpl. rewrite Hb. exact Ha'.
      * by replace (i + Z.of_nat (S n)) with (i + 1 + Z.of_nat n) by lia.
Qed.

(** Whatever a finished loop returns satisfies an invariant its body keeps. *)
Lemma for_loop_keeps {A : Type} (P : A → Prop) (body : Z → A → outcome A) :
  (∀ j b b', P b → body j b = Done b' → P b') →
  ∀ (n : nat) (i : Z) (a a' : A),
    P a → for_loop n i body a = Done a' → P a'.
Proof.
  intros Hbody. induction n as [|n IH]; intros i a a' Ha Hrun; simpl in Hrun.
  - by inversion Hrun; subst.
  - destruct (body i a) as [b| |] eqn:Hb; try done.
    eapply IH; [|exact Hrun]. by eapply Hbody.
Qed.

(** ** Opcode fields *)

Lemma land_shifted_mask (a m k : Z) :
  0 <= k → Z.land a (Z.shiftl m k) = Z.shiftl (Z.land (Z.shiftr a k) m) k.
Proof.
  intros Hk. apply Z.bits_inj'. intros n Hn.
  rewrite Z.land_spec.
  destruct (Z.lt_ge_cases n k).
  - rewrite !Z.shiftl_spec_low by lia. apply andb_false_r.
  - rewrite !Z.shiftl_spec by lia.
    rewrite Z.land_spec, Z.shiftr_spec by lia.
    do 2 f_equal. lia.
Qed.

Lemma field_family (op : Z) : Z.land op 0xF000 = (op / 4096) mod 16 * 4096.
Proof.
  change 0xF000 with (Z.shiftl (Z.ones 4) 12).
  rewrite land_shifted_mask by lia.
  rewrite Z.land_ones by lia.
  rewrite Z.shiftl_mul_pow2, Z.shiftr_div_pow2 by lia. reflexivity.
Qed.

Lemma field_x (op : Z) : Z.shiftr (Z.land op 0x0F00) 8 = (op / 256) mod 16.
Proof.
  change 0x0F00 with (Z.shiftl (Z.ones 4) 8).
  rewrite land_shifted_mask by lia.
  rewrite Z.land_ones by lia.
  rewrite Z.shiftr_shiftl_l by lia.
  rewrite Z.shiftr_div_pow2 by lia. apply Z.shiftl_0_r.
Qed.

Lemma field_y (op : Z) : Z.shiftr (Z.land op 0x00F0) 4 = (op / 16) mod 16.
Proof.
  change 0x00F0 with (Z.shiftl (Z.ones 4) 4).
  rewrite land_shifted_mask by lia.
  rewrite Z.land_ones by lia.
  rewrite Z.shiftr_shiftl_l by lia.
  rewrite Z.shiftr_div_pow2 by lia. apply Z.shiftl_0_r.
Qed.

Lemma field_n (op : Z) : Z.land op 0x000F = op mod 16.
Proof. change 0x000F with (Z.ones 4). by rewrite Z.land_ones by lia. Qed.

Lemma field_nn (op : Z) : Z.land op 0x00FF = op mod 256.
Proof. change 0x00FF with (Z.ones 8). by rewrite Z.land_ones by lia. Qed.

Lemma field_nnn (op : Z) : Z.land op 0x0FFF = op mod 4096.
Proof. change 0x0FFF with (Z.ones 12). by rewrite Z.land_ones by lia. Qed.

Ltac fields :=
  rewrite ?field_family, ?field_x, ?field_y, ?field_n, ?field_nn, ?field_nnn;
  try (Z.div_mod_to_equations; lia).

(** ** Well-formedness is decidable *)

Lemma in_range_true (lo hi z : Z) : in_range lo hi z = true → lo <= z < hi.
Proof. unfold in_range. rewrite andb_true_iff. lia. Qed.

Lemma forallb_in_range (lo hi : Z) (l : list Z) :
  forallb (in_range lo hi) l = true → Forall (λ z, lo <= z < hi) l.
Proof.
  induction l as [|z l IH]; simpl; [constructor|].
  rewrite andb_true_iff. intros [Hz Hl].
  constructor; [by apply in_range_true | by apply IH].
Qed.

Lemma wfb_wf (c : Chip8) : wfb c = true → wf c.
Proof.
  unfold wfb. rewrite !andb_true_iff, !Nat.eqb_eq.
  intros H. destruct_and!.
  split; unfold bytes, words; auto using forallb_in_range, in_range_true.
Qed.

Lemma init_wf : wf init.
Proof. apply wfb_wf. vm_compute. reflexivity. Qed.

Lemma wf_x_in_V (c : Chip8) (x : Z) :
  wf c → 0 <= x < 16 → 0 <= x < Z.of_nat (length (V c)).
Proof. intros Hc Hx. rewrite (wf_V_len c Hc). unfold REGISTER_COUNT. lia. Qed.

Lemma wf_reg_byte (c : Chip8) (x : Z) :
  wf c → 0 <= x < 16 → 0 <= reg c x < 256.
Proof.
  intros Hc Hx. apply get_bytes; [apply Hc | by apply wf_x_in_V].
Qed.

(** ** The outer switch of executeOpcode, family by family *)

Lemma executeOpcode_0 (c : Chip8) (op rnd : Z) :
  Z.land op 0xF000 = 0x0000 → executeOpcode c op rnd = exec_0 c op.
Proof. intros H. unfold executeOpcode. by rewrite H. Qed.

Lemma executeOpcode_2 (c : Chip8) (op rnd : Z) :
  Z.land op 0xF000 = 0x2000 → executeOpcode c op rnd = exec_2 c op.
Proof. intros H. unfold executeOpcode. by rewrite H. Qed.

Lemma executeOpcode_4 (c : Chip8) (op rnd : Z) :
  Z.land op 0xF000 = 0x4000 →
  executeOpcode c op rnd =
    (vx ← ld (V c) (Z.shiftr (Z.land op 0xF00) 8);
     if vx =? Z.land op 0x00FF then ok (advance c 2) else ok (advance c 4)).
Proof. intros H. unfold executeOpcode. by rewrite H. Qed.

Lemma executeOpcode_8 (c : Chip8) (op rnd : Z) :
  Z.land op 0xF000 = 0x8000 → executeOpcode c op rnd = exec_8 c op.
Proof. intros H. unfold executeOpcode. by rewrite H. Qed.

Lemma executeOpcode_D (c : Chip8) (op rnd : Z) :
  Z.land op 0xF000 = 0xD000 → executeOpcode c op rnd = exec_D c op.
Proof. intros H. unfold executeOpcode. by rewrite H. Qed.

Lemma executeOpcode_E (c : Chip8) (op rnd : Z) :
  Z.land op 0xF000 = 0xE000 → executeOpcode c op rnd = exec_E c op.
Proof. intros H. unfold executeOpcode. by rewrite H. Qed.

Lemma executeOpcode_F (c : Chip8) (op rnd : Z) :
  Z.land op 0xF000 = 0xF000 → executeOpcode c op rnd = exec_F c op.
Proof. intros H. unfold executeOpcode. by rewrite H. Qed.

Lemma u16_advance_differ (p : Z) : u16 (p + 2) ≠ u16 (p + 4).
Proof. unfold u16. Z.div_mod_to_equations. lia. Qed.

(** ** 4xnn *)

(** C9: 4xnn skips the next instruction (pc += 4) exactly when Vx != nn, and
    steps to it (pc += 2) when Vx == nn; pc is a uint16_t, so the sum is
    taken modulo 2^16, and nothing else changes. *)
Theorem op_4xnn_skips_iff_different (c : Chip8) (x nn rnd : Z) :
  wf c → 0 <= x < 16 → 0 <= nn < 256 →
  ∃ c', executeOpcode c (0x4000 + 0x100 * x + nn) rnd = Done (c', [])
        ∧ (reg c x ≠ nn → c' = set_pc c (u16 (pc c + 4)))
        ∧ (reg c x = nn → c' = set_pc c (u16 (pc c + 2)))
        ∧ (pc c' = u16 (pc c + 4) ↔ reg c x ≠ nn).
Proof.
  intros Hc Hx Hnn.
  rewrite executeOpcode_4 by fields.
  replace (Z.shiftr (Z.land (0x4000 + 0x100 * x + nn) 0xF00) 8) with x by fields.
  replace (Z.land (0x4000 + 0x100 * x + nn) 0x00FF) with nn by fields.
  rewrite ld_get by (by apply wf_x_in_V). fold (reg c x). simpl.
  destruct (Z.eqb_spec (reg c x) nn) as [Heq|Hne].
  - exists (advance c 2). repeat split; try done.
    simpl. intros H. by apply u16_advance_differ in H.
  - exists (advance c 4). repeat split; done.
Qed.

Lemma op_4xnn_skips_iff_different_witness :
  ∃ c', executeOpcode (with_regs init [(3, 7)]) 0x4309 0 = Done (c', [])
        ∧ pc c' = 0x204.
Proof.
  destruct (op_4xnn_skips_iff_different (with_regs init [(3, 7)]) 3 9 0)
    as (c' & Hrun & Hne & _ & _).
  - apply wfb_wf. vm_compute. reflexivity.
  - lia.
  - lia.
  - exists c'. split; [exact Hrun|].
    rewrite Hne; [reflexivity|]. vm_compute. discriminate.
Defined.

(** ** Fx29 *)

Lemma exec_F_29 (c : Chip8) (op : Z) :
  Z.land op 0x00FF = 0x29 →
  exec_F c op =
    (vx ← ld (V c) (Z.shiftr (Z.land op 0x0F00) 8);
     ok (advance (set_I c (u16 (vx * 5))) 2)).
Proof. intros H. unfold exec_F. by rewrite H. Qed.

(** Fx29 makes I the product Vx * 5: no font base is added. *)
Lemma op_Fx29_sets_I (c : Chip8) (x rnd : Z) :
  wf c → 0 <= x < 16 →
  executeOpcode c (0xF029 + 0x100 * x) rnd
  = Done (advance (set_I c (reg c x * 5)) 2, []).
Proof.
  intros Hc Hx.
  rewrite executeOpcode_F by fields.
  rewrite exec_F_29 by fields.
  replace (Z.shiftr (Z.land (0xF029 + 0x100 * x) 0x0F00) 8) with x by fields.
  rewrite ld_get by (by apply wf_x_in_V). fold (reg c x). simpl.
  pose proof (wf_reg_byte c x Hc Hx).
  unfold ok, u16. by rewrite Z.mod_small by lia.
Qed.

(** C2: the constructor loads the glyph of digit 1 at 0x50 + 5 = 0x55, and
    F029 with V0 = 1 leaves I = 5, where memory holds zeroes. *)
Theorem op_Fx29_misses_font_base :
  let c := with_regs init [(0, 1)] in
  ∃ c', executeOpcode c 0xF029 0 = Done (c', [])
        ∧ I c' = 5
        ∧ I c' ≠ 0x50 + reg c 0 * 5
        ∧ map (mem c') [0x55; 0x56; 0x57; 0x58; 0x59] = [0x20; 0x60; 0x20; 0x20; 0x70]
        ∧ map (mem c') [5; 6; 7; 8; 9] = [0; 0; 0; 0; 0].
Proof.
  intros c. eexists. split.
  - apply (op_Fx29_sets_I c 0 0); [apply wfb_wf; vm_compute; reflexivity | lia].
  - vm_compute. repeat split; discriminate.
Qed.

(** ** 8xy4 and 8xy5 *)

Lemma exec_8_4 (c : Chip8) (op : Z) :
  Z.land op 0x000F = 0x4 →
  exec_8 c op =
    (let x := Z.shiftr (Z.land op 0x0F00) 8 in
     let y := Z.shiftr (Z.land op 0x00F0) 4 in
     vx ← ld (V c) x; vy ← ld (V c) y;
     let sum := u16 (vx + vy) in
     V1 ← st (V c) 0xF (if sum >? 0xFF then 1 else 0);
     V2 ← st V1 x (Z.land sum 0xFF);
     ok (advance (set_V c V2) 2)).
Proof. intros H. unfold exec_8. by rewrite H. Qed.

Lemma exec_8_5 (c : Chip8) (op : Z) :
  Z.land op 0x000F = 0x5 →
  exec_8 c op =
    (let x := Z.shiftr (Z.land op 0x0F00) 8 in
     let y := Z.shiftr (Z.land op 0x00F0) 4 in
     vx ← ld (V c) x; vy ← ld (V c) y;
     V1 ← st (V c) 0xF (if vx >? vy then 1 else 0);
     vx1 ← ld V1 x; vy1 ← ld V1 y;
     V2 ← st V1 x (u8 (vx1 - vy1));
     ok (advance (set_V c V2) 2)).
Proof. intros H. unfold exec_8. by rewrite H. Qed.

(** C8, with the flag register kept apart from the operands: for x != y and
    x != 0xF, 8xy4 on Vx = 0xFF, Vy = 0x01 leaves VF = 1, Vx = 0x00; for
    x != y, x != 0xF and y != 0xF, 8xy5 on Vx = 0x01, Vy = 0x02 leaves VF = 0,
    Vx = 0xFF. *)
Theorem op_8xy4_8xy5_wraparound (c : Chip8) (x y rnd : Z) :
  wf c → 0 <= x < 16 → 0 <= y < 16 → x ≠ y → x ≠ 0xF →
  (reg c x = 0xFF → reg c y = 0x01 →
   ∃ c', executeOpcode c (0x8004 + 0x100 * x + 0x10 * y) rnd = Done (c', [])
         ∧ reg c' 0xF = 1 ∧ reg c' x = 0x00)
  ∧ (y ≠ 0xF → reg c x = 0x01 → reg c y = 0x02 →
     ∃ c', executeOpcode c (0x8005 + 0x100 * x + 0x10 * y) rnd = Done (c', [])
           ∧ reg c' 0xF = 0 ∧ reg c' x = 0xFF).
Proof.
  intros Hc Hx Hy Hxy HxF.
  pose proof (wf_x_in_V c x Hc Hx) as Hlx.
  pose proof (wf_x_in_V c y Hc Hy) as Hly.
  pose proof (wf_x_in_V c 0xF Hc ltac:(lia)) as HlF.
  split.
  - intros Hvx Hvy.
    rewrite executeOpcode_8 by fields. rewrite exec_8_4 by fields.
    replace (Z.shiftr (Z.land (0x8004 + 0x100 * x + 0x10 * y) 0x0F00) 8)
      with x by fields.
    replace (Z.shiftr (Z.land (0x8004 + 0x100 * x + 0x10 * y) 0x00F0) 4)
      with y by fields.
    cbv zeta. rewrite !ld_get by done.
    fold (reg c x) (reg c y). rewrite Hvx, Hvy. simpl.
    rewrite st_in by done. simpl.
    rewrite st_in by (rewrite length_insert; done). simpl.
    eexists. split; [reflexivity|]. unfold reg. simpl. split.
    + rewrite get_insert_ne by lia. by rewrite get_insert_eq.
    + rewrite get_insert_eq; [done|]. by rewrite length_insert.
  - intros HyF Hvx Hvy.
    rewrite executeOpcode_8 by fields. rewrite exec_8_5 by fields.
    replace (Z.shiftr (Z.land (0x8005 + 0x100 * x + 0x10 * y) 0x0F00) 8)
      with x by fields.
    replace (Z.shiftr (Z.land (0x8005 + 0x100 * x + 0x10 * y) 0x00F0) 4)
      with y by fields.
    cbv zeta. rewrite !ld_get by done.
    fold (reg c x) (reg c y). rewrite Hvx, Hvy. simpl.
    rewrite st_in by done. simpl.
    rewrite !ld_get by (rewrite length_insert; done). simpl.
    rewrite !get_insert_ne by lia.
    fold (reg c x) (reg c y). rewrite Hvx, Hvy.
    rewrite st_in by (rewrite length_insert; done). simpl.
    eexists. split; [reflexivity|]. unfold reg. simpl. split.
    + rewrite get_insert_ne by lia. by rewrite get_insert_eq.
    + rewrite get_insert_eq; [done|]. by rewrite length_insert.
Qed.

Lemma op_8xy4_8xy5_wraparound_witness :
  (∃ c', executeOpcode (with_regs init [(2, 0xFF); (7, 0x01)]) 0x8274 0 = Done (c', [])
         ∧ reg c' 0xF = 1 ∧ reg c' 2 = 0x00)
  ∧ (∃ c', executeOpcode (with_regs init [(2, 0x01); (7, 0x02)]) 0x8275 0 = Done (c', [])
           ∧ reg c' 0xF = 0 ∧ reg c' 2 = 0xFF).
Proof.
  split.
  - apply (op_8xy4_8xy5_wraparound (with_regs init [(2, 0xFF); (7, 0x01)]) 2 7 0);
      try lia; try reflexivity.
    apply wfb_wf. vm_compute. reflexivity.
  - apply (op_8xy4_8xy5_wraparound (with_regs init [(2, 0x01); (7, 0x02)]) 2 7 0);
      try lia; try reflexivity.
    apply wfb_wf. vm_compute. reflexivity.
Defined.

(** C8 as quantified over all x and y fails where the flag register is an
    operand: 8xy5 with y = 0xF subtracts the freshly written flag, and 8xy4
    with x = 0xF overwrites the carry with the sum. *)
Lemma op_8xy4_8xy5_flag_operand :
  (let c := with_regs init [(0, 0x01); (0xF, 0x02)] in
   reg c 0 = 0x01 ∧ reg c 0xF = 0x02
   ∧ ∃ c', executeOpcode c 0x80F5 0 = Done (c', [])
           ∧ reg c' 0 = 0x01 ∧ reg c' 0 ≠ 0xFF)
  ∧ (let c := with_regs init [(0xF, 0xFF); (0, 0x01)] in
     reg c 0xF = 0xFF ∧ reg c 0 = 0x01
     ∧ ∃ c', executeOpcode c 0x8F04 0 = Done (c', [])
             ∧ reg c' 0xF = 0 ∧ reg c' 0xF ≠ 1).
Proof.
  split; (vm_compute; do 2 (split; [reflexivity|]);
          eexists; split; [reflexivity|]; split; [reflexivity|discriminate]).
Qed.

(** ** fetchOpcode *)

Lemma big_endian (hi lo : Z) :
  0 <= lo < 256 → Z.lor (Z.shiftl hi 8) lo = hi * 256 + lo.
Proof.
  intros Hlo.
  assert (Z.land (Z.shiftl hi 8) lo = 0) as Hdisjoint.
  { apply Z.bits_inj'. intros n Hn.
    rewrite Z.land_spec, Z.bits_0.
    destruct (Z.lt_ge_cases n 8).
    - by rewrite Z.shiftl_spec_low by lia.
    - rewrite <- (Z.mod_small lo (2 ^ 8)) by lia.
      rewrite Z.mod_pow2_bits_high by lia. apply andb_false_r. }
  rewrite <- Z.lxor_lor, <- Z.add_nocarry_lxor by done.
  by rewrite Z.shiftl_mul_pow2 by lia.
Qed.

Lemma wf_mem_byte (c : Chip8) (addr : Z) :
  wf c → 0 <= addr < 4096 → 0 <= mem c addr < 256.
Proof.
  intros Hc Ha. apply get_bytes; [apply Hc|].
  rewrite (wf_memory_len c Hc). unfold MEMORY_SIZE. lia.
Qed.

(** C6, as the code has it: with pc + 1 <= 4095 the fetch reads the bytes
    at pc and pc + 1 and combines them big-endian into a 16-bit opcode;
    the index is not checked, so with pc + 1 > 4095 the fetch is an
    out-of-range array access and no error is reported. *)
Theorem fetchOpcode_big_endian_unchecked (c : Chip8) :
  wf c →
  (pc c + 1 <= 4095 →
   fetchOpcode c = Done (mem c (pc c) * 256 + mem c (pc c + 1))
   ∧ 0 <= mem c (pc c) * 256 + mem c (pc c + 1) < 65536)
  ∧ (pc c + 1 > 4095 → fetchOpcode c = Undefined).
Proof.
  intros Hc. pose proof (wf_pc c Hc) as Hpc.
  pose proof (wf_memory_len c Hc) as Hlen. unfold MEMORY_SIZE in Hlen.
  unfold fetchOpcode. split.
  - intros Hin.
    rewrite !ld_get by lia. simpl. fold (mem c (pc c)) (mem c (pc c + 1)).
    pose proof (wf_mem_byte c (pc c) Hc ltac:(lia)).
    pose proof (wf_mem_byte c (pc c + 1) Hc ltac:(lia)).
    rewrite big_endian by done. unfold u16.
    rewrite Z.mod_small by lia. split; [done|lia].
  - intros Hout.
    destruct (decide (pc c < 4096)).
    + rewrite (ld_get _ (pc c)) by lia. simpl. by rewrite ld_out by lia.
    + by rewrite (ld_out _ (pc c)) by lia.
Qed.

Lemma fetchOpcode_big_endian_unchecked_witness :
  fetchOpcode (with_code init 0x200 [0xA2; 0x1E]) = Done 0xA21E.
Proof.
  destruct (fetchOpcode_big_endian_unchecked (with_code init 0x200 [0xA2; 0x1E]))
    as [Hin _].
  - apply wfb_wf. vm_compute. reflexivity.
  - destruct Hin as [Hfetch _].
    + vm_compute. discriminate.
    + rewrite Hfetch. vm_compute. reflexivity.
Defined.

(** C6 fails at pc = 4095: the second byte is read at index 4096 with no
    check, the call neither returns an opcode nor reports an error. *)
Lemma fetchOpcode_no_range_check :
  wf (set_pc init 4095)
  ∧ pc (set_pc init 4095) + 1 > 4095
  ∧ fetchOpcode (set_pc init 4095) = Undefined
  ∧ (∀ status err, fetchOpcode (set_pc init 4095) ≠ Exited status err).
Proof.
  split; [apply wfb_wf; vm_compute; reflexivity|].
  split; [vm_compute; reflexivity|].
  assert (fetchOpcode (set_pc init 4095) = Undefined) as H
    by (vm_compute; reflexivity).
  split; [exact H|]. intros status err. rewrite H. discriminate.
Qed.

(** ** Unrecognized opcodes *)

Lemma family_cases (op : Z) :
  ∃ k, 0 <= k < 16 ∧ Z.land op 0xF000 = k * 4096.
Proof.
  exists ((op / 4096) mod 16). split; [|apply field_family].
  apply Z.mod_pos_bound. lia.
Qed.

Ltac split_ors H :=
  repeat (apply orb_false_iff in H; destruct H as [H ?]).

Lemma executeOpcode_unrecognized (c : Chip8) (op rnd : Z) :
  recognized op = false →
  executeOpcode c op rnd = Done (c, unknown_report op).
Proof.
  intros Hrec.
  destruct (family_cases op) as (k & Hk & Hsw).
  assert (k = 0 ∨ k = 1 ∨ k = 2 ∨ k = 3 ∨ k = 4 ∨ k = 5 ∨ k = 6 ∨ k = 7
          ∨ k = 8 ∨ k = 9 ∨ k = 10 ∨ k = 11 ∨ k = 12 ∨ k = 13 ∨ k = 14
          ∨ k = 15) as Hcases by lia.
  unfold recognized, unknown_report in *.
  destruct Hcases
    as [->|[->|[->|[->|[->|[->|[->|[->|[->|[->|[->|[->|[->|[->|[->| ->]]]]]]]]]]]]]]];
    try (rewrite Hsw in Hrec; simpl in Hrec; discriminate).
  - rewrite executeOpcode_0 by done.
    rewrite Hsw in *. simpl in *. split_ors Hrec.
    unfold exec_0. by rewrite Hrec, H.
  - rewrite executeOpcode_8 by done.
    rewrite Hsw in *. simpl in *. split_ors Hrec.
    unfold exec_8. by rewrite Hrec, H, H0, H1, H2, H3, H4, H5, H6.
  - rewrite executeOpcode_E by done.
    rewrite Hsw in *. simpl in *. split_ors Hrec.
    unfold exec_E. by rewrite Hrec, H.
  - rewrite executeOpcode_F by done.
    rewrite Hsw in *. simpl in *. split_ors Hrec.
    unfold exec_F. by rewrite Hrec, H, H0, H1, H2, H3, H4, H5, H6.
Qed.

Lemma tick_pc (c : Chip8) : pc (tick c) = pc c.
Proof. unfold tick. by repeat case_match. Qed.

Lemma tick_memory (c : Chip8) : memory (tick c) = memory c.
Proof. unfold tick. by repeat case_match. Qed.

Lemma tick_fetchOpcode (c : Chip8) : fetchOpcode (tick c) = fetchOpcode c.
Proof. unfold fetchOpcode. by rewrite tick_pc, tick_memory. Qed.

(** The timers after a cycle: each one less, unless already zero. *)
Lemma tick_timers (c : Chip8) :
  0 <= delayTimer c → 0 <= soundTimer c →
  tick c = set_soundTimer (set_delayTimer c (Z.max 0 (delayTimer c - 1)))
                          (Z.max 0 (soundTimer c - 1)).
Proof.
  intros Hd Hs. unfold tick. destruct c as [m v i p s q d k dt stm f].
  simpl in *.
  unfold set_soundTimer, set_delayTimer.
  destruct (Z.gtb_spec dt 0); simpl; destruct (Z.gtb_spec stm 0); simpl;
    f_equal; lia.
Qed.

Example hex_800f : hex 0x800F = "800f".
Proof. reflexivity. Qed.

Example hex_e0 : hex 0x00E0 = "e0".
Proof. reflexivity. Qed.

(** C3, as the code has it: an unrecognized opcode does not crash and
    changes nothing, pc included; in the families 8 and F it writes one line
    naming the raw opcode (the pc is not part of it), in the families 0 and E
    it writes nothing.  A cycle on it only ticks the timers, and the next
    cycle fetches the same opcode again. *)
Theorem unrecognized_opcode_stalls (c : Chip8) (op rnd : Z) :
  recognized op = false →
  executeOpcode c op rnd = Done (c, unknown_report op)
  ∧ (Z.land op 0xF000 = 0x8000 →
     unknown_report op = ["Unknown 0x8 instruction: 0x" +:+ hex op])
  ∧ (Z.land op 0xF000 = 0xF000 →
     unknown_report op = ["Unknown 0xF instruction: 0x" +:+ hex op])
  ∧ (Z.land op 0xF000 = 0x0000 ∨ Z.land op 0xF000 = 0xE000 →
     unknown_report op = [])
  ∧ (fetchOpcode c = Done op →
     emulateCycle c rnd = Done (tick c, unknown_report op)
     ∧ pc (tick c) = pc c
     ∧ fetchOpcode (tick c) = Done op).
Proof.
  intros Hrec. split; [by apply executeOpcode_unrecognized|].
  split; [intros H; unfold unknown_report; by rewrite H|].
  split; [intros H; unfold unknown_report; by rewrite H|].
  split; [intros [H|H]; unfold unknown_report; by rewrite H|].
  intros Hfetch. split; [|split].
  - unfold emulateCycle. rewrite Hfetch. simpl.
    by rewrite executeOpcode_unrecognized.
  - apply tick_pc.
  - by rewrite tick_fetchOpcode.
Qed.

Lemma unrecognized_opcode_stalls_witness :
  executeOpcode init 0x8128 0 = Done (init, ["Unknown 0x8 instruction: 0x8128"])
  ∧ executeOpcode init 0xF1FF 0 = Done (init, ["Unknown 0xF instruction: 0xf1ff"])
  ∧ executeOpcode init 0x0123 0 = Done (init, [])
  ∧ emulateCycle init 0 = Done (tick init, [])
  ∧ fetchOpcode (tick init) = Done 0x0000.
Proof.
  destruct (unrecognized_opcode_stalls init 0x8128 0) as (H8 & R8 & _);
    [reflexivity|].
  destruct (unrecognized_opcode_stalls init 0xF1FF 0) as (HF & _ & RF & _);
    [reflexivity|].
  destruct (unrecognized_opcode_stalls init 0x0123 0) as (H0 & _ & _ & R0 & _);
    [reflexivity|].
  destruct (unrecognized_opcode_stalls init 0x0000 0) as (_ & _ & _ & R & Hcyc);
    [reflexivity|].
  destruct Hcyc as (Hcyc & _ & Hnext); [vm_compute; reflexivity|].
  rewrite R8 in H8 by reflexivity. rewrite RF in HF by reflexivity.
  rewrite R0 in H0 by (left; reflexivity).
  rewrite R in Hcyc by (left; reflexivity).
  repeat split; assumption.
Defined.

(** C3 fails on the freshly built machine: the opcode at 0x200 is 0x0000,
    which no branch handles; the cycle reports nothing and pc stays at
    0x200.  On 0x8128 the line names the opcode, and pc still stays. *)
Lemma unrecognized_opcode_keeps_pc :
  recognized 0x0000 = false
  ∧ fetchOpcode init = Done 0x0000
  ∧ (∃ c', emulateCycle init 0 = Done (c', [])
           ∧ pc c' = pc init ∧ pc c' ≠ u16 (pc init + 2))
  ∧ recognized 0x8128 = false
  ∧ (∃ c', executeOpcode init 0x8128 0
             = Done (c', ["Unknown 0x8 instruction: 0x8128"])
           ∧ pc c' = pc init ∧ pc c' ≠ u16 (pc init + 2)).
Proof.
  split; [reflexivity|]. split; [vm_compute; reflexivity|].
  split; [|split; [reflexivity|]].
  - eexists. split; [vm_compute; reflexivity|].
    split; [reflexivity|vm_compute; discriminate].
  - eexists. split; [vm_compute; reflexivity|].
    split; [reflexivity|vm_compute; discriminate].
Qed.

(** ** Fx0A *)

Lemma exec_F_0A (c : Chip8) (op : Z) :
  Z.land op 0x00FF = 0x0A →
  exec_F c op =
    (r ← scan_keys (Z.to_nat KEYPAD_SIZE) 0 (Z.shiftr (Z.land op 0x0F00) 8) c;
     let '(c1, keyPressed) := r in
     if negb keyPressed then ok c1 else ok (advance c1 2)).
Proof. intros H. unfold exec_F. by rewrite H. Qed.

Lemma scan_keys_none (x : Z) (c : Chip8) :
  ∀ (n : nat) (i : Z),
    0 <= i → i + Z.of_nat n <= Z.of_nat (length (keypad c)) →
    (∀ j, i <= j < i + Z.of_nat n → key c j = 0) →
    scan_keys n i x c = Done (c, false).
Proof.
  induction n as [|n IH]; intros i Hi Hlen Hkeys; [done|].
  simpl. rewrite ld_get by lia. simpl.
  fold (key c i). rewrite Hkeys by lia. simpl.
  apply IH; [lia|lia|]. intros j Hj. apply Hkeys. lia.
Qed.

Lemma scan_keys_first (x k : Z) (c : Chip8) :
  0 <= x < Z.of_nat (length (V c)) →
  key c k ≠ 0 →
  ∀ (n : nat) (i : Z),
    0 <= i <= k → k < i + Z.of_nat n <= Z.of_nat (length (keypad c)) →
    (∀ j, i <= j < k → key c j = 0) →
    scan_keys n i x c = Done (set_V c (<[Z.to_nat x := k]> (V c)), true).
Proof.
  intros Hx Hk.
  induction n as [|n IH]; intros i Hi Hlen Hkeys; [lia|].
  simpl. rewrite ld_get by lia. simpl. fold (key c i).
  destruct (decide (i = k)) as [->|Hne].
  - destruct (Z.eqb_spec (key c k) 0); [done|]. simpl.
    by rewrite st_in by done.
  - rewrite Hkeys by lia. simpl.
    apply IH; [lia|lia|]. intros j Hj. apply Hkeys. lia.
Qed.

(** C4, as the code has it: with Fx0A at pc and no key pressed, one cycle
    leaves pc and everything else unchanged except the two timers, which
    are decremented when nonzero like in every cycle; with some key
    pressed, the cycle stores the lowest pressed key's index in Vx,
    advances pc by 2 and ticks the timers. *)
Theorem op_Fx0A_waits_while_timers_tick (c : Chip8) (x rnd : Z) :
  wf c → 0 <= x < 16 → fetchOpcode c = Done (0xF00A + 0x100 * x) →
  ((∀ k, 0 <= k < 16 → key c k = 0) →
   emulateCycle c rnd
   = Done (set_soundTimer (set_delayTimer c (Z.max 0 (delayTimer c - 1)))
                          (Z.max 0 (soundTimer c - 1)), []))
  ∧ (∀ k, 0 <= k < 16 → key c k ≠ 0 → (∀ j, 0 <= j < k → key c j = 0) →
     let c1 := set_pc (set_V c (<[Z.to_nat x := k]> (V c))) (u16 (pc c + 2)) in
     emulateCycle c rnd
     = Done (set_soundTimer (set_delayTimer c1 (Z.max 0 (delayTimer c - 1)))
                            (Z.max 0 (soundTimer c - 1)), [])).
Proof.
  intros Hc Hx Hfetch.
  pose proof (wf_keypad_len c Hc) as Hkl. unfold KEYPAD_SIZE in Hkl.
  pose proof (wf_delayTimer c Hc) as Hdt.
  pose proof (wf_soundTimer c Hc) as Hst.
  unfold emulateCycle. rewrite Hfetch. simpl.
  rewrite executeOpcode_F by fields. rewrite exec_F_0A by fields.
  replace (Z.shiftr (Z.land (0xF00A + 0x100 * x) 0x0F00) 8) with x by fields.
  split.
  - intros Hkeys.
    rewrite scan_keys_none; [|lia|unfold KEYPAD_SIZE; lia|].
    + simpl. by rewrite tick_timers by lia.
    + intros j Hj. apply Hkeys. unfold KEYPAD_SIZE in Hj. lia.
  - intros k Hk Hpressed Hbefore.
    rewrite (scan_keys_first x k c (wf_x_in_V c x Hc Hx) Hpressed);
      [|lia|unfold KEYPAD_SIZE; lia|intros j Hj; apply Hbefore; lia].
    simpl. by rewrite tick_timers by (simpl; lia).
Qed.

Lemma op_Fx0A_waits_while_timers_tick_witness :
  (∃ c', emulateCycle waiting 0 = Done (c', [])
         ∧ pc c' = 0x200 ∧ delayTimer c' = 4)
  ∧ (∃ c', emulateCycle (set_keypad waiting (<[7%nat := 1]> (keypad waiting))) 0
           = Done (c', [])
           ∧ pc c' = 0x202 ∧ reg c' 3 = 7 ∧ delayTimer c' = 4).
Proof.
  split.
  - destruct (op_Fx0A_waits_while_timers_tick waiting 3 0) as [Hnone _].
    + apply wfb_wf. vm_compute. reflexivity.
    + lia.
    + vm_compute. reflexivity.
    + eexists. split.
      * apply Hnone. intros k Hk.
        assert (k = 0 ∨ k = 1 ∨ k = 2 ∨ k = 3 ∨ k = 4 ∨ k = 5 ∨ k = 6
                ∨ k = 7 ∨ k = 8 ∨ k = 9 ∨ k = 10 ∨ k = 11 ∨ k = 12
                ∨ k = 13 ∨ k = 14 ∨ k = 15) as Hcases by lia.
        repeat (destruct Hcases as [->|Hcases]; [vm_compute; reflexivity|]).
        subst k. vm_compute. reflexivity.
      * split; reflexivity.
  - destruct (op_Fx0A_waits_while_timers_tick
                (set_keypad waiting (<[7%nat := 1]> (keypad waiting))) 3 0)
      as [_ Hsome].
    + apply wfb_wf. vm_compute. reflexivity.
    + lia.
    + vm_compute. reflexivity.
    + eexists. split.
      * apply (Hsome 7); [lia|vm_compute; discriminate|].
        intros j Hj.
        assert (j = 0 ∨ j = 1 ∨ j = 2 ∨ j = 3 ∨ j = 4 ∨ j = 5 ∨ j = 6)
          as Hcases by lia.
        repeat (destruct Hcases as [->|Hcases]; [vm_compute; reflexivity|]).
        subst j. vm_compute. reflexivity.
      * repeat split; reflexivity.
Defined.

(** C4 fails on the timers: the blocked cycle of [waiting] takes the delay
    timer from 5 to 4, so the state is not left as it was. *)
Lemma op_Fx0A_blocked_cycle_ticks :
  wf waiting
  ∧ fetchOpcode waiting = Done 0xF30A
  ∧ keypad waiting = replicate 16 0
  ∧ ∃ c', emulateCycle waiting 0 = Done (c', [])
          ∧ pc c' = pc waiting
          ∧ delayTimer waiting = 5 ∧ delayTimer c' = 4
          ∧ c' ≠ waiting.
Proof.
  split; [apply wfb_wf; vm_compute; reflexivity|].
  split; [vm_compute; reflexivity|].
  split; [vm_compute; reflexivity|].
  eexists. split; [vm_compute; reflexivity|].
  repeat split. intros Heq.
  apply (f_equal delayTimer) in Heq. vm_compute in Heq. discriminate.
Qed.

(** ** Fx55 and Fx65 *)

Lemma exec_F_55 (c : Chip8) (op : Z) :
  Z.land op 0x00FF = 0x55 →
  exec_F c op =
    (c1 ← for_loop (Z.to_nat (Z.shiftr (Z.land op 0x0F00) 8 + 1)) 0 store_reg c;
     ok (advance c1 2)).
Proof. intros H. unfold exec_F. by rewrite H. Qed.

Lemma exec_F_65 (c : Chip8) (op : Z) :
  Z.land op 0x00FF = 0x65 →
  exec_F c op =
    (c1 ← for_loop (Z.to_nat (Z.shiftr (Z.land op 0x0F00) 8 + 1)) 0 load_reg c;
     ok (advance c1 2)).
Proof. intros H. unfold exec_F. by rewrite H. Qed.

Lemma store_reg_I (i : Z) (c c' : Chip8) :
  store_reg i c = Done c' → I c' = I c.
Proof.
  unfold store_reg. intros H.
  destruct (ld (V c) i) as [vi| |]; try done. simpl in H.
  destruct (st (memory c) (I c + i) vi) as [m| |]; try done.
  by inversion H.
Qed.

Lemma load_reg_I (i : Z) (c c' : Chip8) :
  load_reg i c = Done c' → I c' = I c.
Proof.
  unfold load_reg. intros H.
  destruct (ld (memory c) (I c + i)) as [mi| |]; try done. simpl in H.
  destruct (st (V c) i mi) as [v| |]; try done.
  by inversion H.
Qed.

Lemma for_loop_app {A : Type} (body : Z → A → outcome A) :
  ∀ (n1 n2 : nat) (i : Z) (a : A),
    for_loop (n1 + n2) i body a
    = (a' ← for_loop n1 i body a; for_loop n2 (i + Z.of_nat n1) body a').
Proof.
  induction n1 as [|n1 IH]; intros n2 i a.
  - simpl. f_equal. lia.
  - simpl. destruct (body i a) as [b| |]; try done. simpl.
    rewrite IH. do 2 f_equal. lia.
Qed.

Lemma store_regs (c : Chip8) (x : Z) :
  wf c → 0 <= x < 16 → I c + x < 4096 →
  ∃ m, for_loop (Z.to_nat (x + 1)) 0 store_reg c = Done (set_memory c m)
       ∧ length m = length (memory c)
       ∧ (∀ i, 0 <= i <= x → get m (I c + i) = reg c i)
       ∧ (∀ a, 0 <= a → ¬ (I c <= a <= I c + x) → get m a = mem c a).
Proof.
  intros Hc Hx HI.
  pose proof (wf_I c Hc) as HI0.
  pose proof (wf_memory_len c Hc) as Hml. unfold MEMORY_SIZE in Hml.
  destruct (for_loop_inv
    (λ j c', ∃ m, c' = set_memory c m
                  ∧ length m = length (memory c)
                  ∧ (∀ i, 0 <= i < j → get m (I c + i) = reg c i)
                  ∧ (∀ a, 0 <= a → ¬ (I c <= a < I c + j) → get m a = mem c a))
    store_reg (Z.to_nat (x + 1)) 0 c) as (c' & Hrun & m & -> & Hlen & Hcopy & Hrest).
  - exists (memory c). split; [by destruct c|]. split; [done|].
    split; [intros; lia|done].
  - intros j b Hj (m & -> & Hlen & Hcopy & Hrest).
    unfold store_reg. simpl.
    rewrite ld_get by (apply wf_x_in_V; [done|lia]). simpl.
    rewrite st_in by lia. simpl. eexists. split; [reflexivity|].
    exists (<[Z.to_nat (I c + j) := get (V c) j]> m).
    split; [done|]. split; [by rewrite length_insert|]. split.
    + intros i Hi. destruct (decide (i = j)) as [->|Hne].
      * rewrite get_insert_eq by lia. done.
      * rewrite get_insert_ne by lia. apply Hcopy. lia.
    + intros a Ha Hout. rewrite get_insert_ne by lia. apply Hrest; lia.
  - exists m. split; [done|]. split; [done|]. split.
    + intros i Hi. apply Hcopy. lia.
    + intros a Ha Hout. apply Hrest; lia.
Qed.

Lemma load_regs (c : Chip8) (x : Z) :
  wf c → 0 <= x < 16 → I c + x < 4096 →
  ∃ v, for_loop (Z.to_nat (x + 1)) 0 load_reg c = Done (set_V c v)
       ∧ length v = length (V c)
       ∧ (∀ i, 0 <= i <= x → get v i = mem c (I c + i))
       ∧ (∀ i, x < i → get v i = reg c i).
Proof.
  intros Hc Hx HI.
  pose proof (wf_I c Hc) as HI0.
  pose proof (wf_memory_len c Hc) as Hml. unfold MEMORY_SIZE in Hml.
  pose proof (wf_V_len c Hc) as Hvl. unfold REGISTER_COUNT in Hvl.
  destruct (for_loop_inv
    (λ j c', ∃ v, c' = set_V c v
                  ∧ length v = length (V c)
                  ∧ (∀ i, 0 <= i < j → get v i = mem c (I c + i))
                  ∧ (∀ i, j <= i → get v i = reg c i))
    load_reg (Z.to_nat (x + 1)) 0 c) as (c' & Hrun & v & -> & Hlen & Hcopy & Hrest).
  - exists (V c). split; [by destruct c|]. split; [done|].
    split; [intros; lia|done].
  - intros j b Hj (v & -> & Hlen & Hcopy & Hrest).
    unfold load_reg. simpl.
    rewrite ld_get by lia. simpl.
    rewrite st_in by lia. simpl. eexists. split; [reflexivity|].
    exists (<[Z.to_nat j := get (memory c) (I c + j)]> v).
    split; [done|]. split; [by rewrite length_insert|]. split.
    + intros i Hi. destruct (decide (i = j)) as [->|Hne].
      * rewrite get_insert_eq by lia. done.
      * rewrite get_insert_ne by lia. apply Hcopy. lia.
    + intros i Hi. rewrite get_insert_ne by lia. apply Hrest; lia.
  - exists v. split; [done|]. split; [done|]. split.
    + intros i Hi. apply Hcopy. lia.
    + intros i Hi. apply Hrest; lia.
Qed.

(** The copy loops stop at the first register whose memory cell lies past
    the end of memory. *)
Lemma store_regs_overrun (c : Chip8) (x : Z) :
  wf c → 0 <= x < 16 → 4096 <= I c + x →
  for_loop (Z.to_nat (x + 1)) 0 store_reg c = Undefined.
Proof.
  intros Hc Hx HI.
  pose proof (wf_I c Hc) as HI0.
  pose proof (wf_memory_len c Hc) as Hml. unfold MEMORY_SIZE in Hml.
  destruct (decide (4096 <= I c)) as [Hfar|Hnear].
  - replace (Z.to_nat (x + 1)) with (S (Z.to_nat x)) by lia.
    assert (store_reg 0 c = Undefined) as Hstep.
    { unfold store_reg. rewrite ld_get by (apply wf_x_in_V; [done|lia]).
      cbn [mbind outcome_bind]. by rewrite st_out by lia. }
    cbn [for_loop]. by rewrite Hstep.
  - set (k := 4096 - I c).
    replace (Z.to_nat (x + 1))
      with (Z.to_nat k + S (Z.to_nat (x - k)))%nat by lia.
    rewrite for_loop_app.
    destruct (store_regs c (k - 1)) as (m & Hrun & Hlen & _); [done|lia..|].
    replace (Z.to_nat (k - 1 + 1)) with (Z.to_nat k) in Hrun by lia.
    assert (store_reg (0 + Z.of_nat (Z.to_nat k)) (set_memory c m) = Undefined)
      as Hstep.
    { unfold store_reg. cbn [V memory I set_memory].
      rewrite ld_get by (apply wf_x_in_V; [done|lia]).
      cbn [mbind outcome_bind]. by rewrite st_out by lia. }
    rewrite Hrun. cbn [mbind outcome_bind for_loop]. by rewrite Hstep.
Qed.

Lemma load_regs_overrun (c : Chip8) (x : Z) :
  wf c → 0 <= x < 16 → 4096 <= I c + x →
  for_loop (Z.to_nat (x + 1)) 0 load_reg c = Undefined.
Proof.
  intros Hc Hx HI.
  pose proof (wf_I c Hc) as HI0.
  pose proof (wf_memory_len c Hc) as Hml. unfold MEMORY_SIZE in Hml.
  destruct (decide (4096 <= I c)) as [Hfar|Hnear].
  - replace (Z.to_nat (x + 1)) with (S (Z.to_nat x)) by lia.
    assert (load_reg 0 c = Undefined) as Hstep.
    { unfold load_reg. by rewrite ld_out by lia. }
    cbn [for_loop]. by rewrite Hstep.
  - set (k := 4096 - I c).
    replace (Z.to_nat (x + 1))
      with (Z.to_nat k + S (Z.to_nat (x - k)))%nat by lia.
    rewrite for_loop_app.
    destruct (load_regs c (k - 1)) as (v & Hrun & Hlen & _); [done|lia..|].
    replace (Z.to_nat (k - 1 + 1)) with (Z.to_nat k) in Hrun by lia.
    assert (load_reg (0 + Z.of_nat (Z.to_nat k)) (set_V c v) = Undefined)
      as Hstep.
    { unfold load_reg. cbn [V memory I set_V]. by rewrite ld_out by lia. }
    rewrite Hrun. cbn [mbind outcome_bind for_loop]. by rewrite Hstep.
Qed.

(** C10: Fx55 and Fx65 leave I as it was, in every state in which the
    block I..I+x lies inside memory: the instruction then completes without
    a diagnostic, V0..Vx have been copied to, respectively from,
    memory[I..I+x], pc has advanced by 2, and nothing else has changed, I
    included.  The copy is not range-checked: when I + x is past the last
    byte of memory, memory[I + i] is indexed out of range and the
    instruction has no defined result.  Whenever it does complete, I is as
    before. *)
Theorem op_Fx55_Fx65_keep_I (c : Chip8) (x rnd : Z) :
  wf c → 0 <= x < 16 →
  (I c + x <= 4095 →
     (∃ m, executeOpcode c (0xF055 + 0x100 * x) rnd
           = Done (advance (set_memory c m) 2, [])
           ∧ I (advance (set_memory c m) 2) = I c
           ∧ length m = length (memory c)
           ∧ (∀ i, 0 <= i <= x → get m (I c + i) = reg c i)
           ∧ (∀ a, 0 <= a → ¬ (I c <= a <= I c + x) → get m a = mem c a))
     ∧ (∃ v, executeOpcode c (0xF065 + 0x100 * x) rnd
             = Done (advance (set_V c v) 2, [])
             ∧ I (advance (set_V c v) 2) = I c
             ∧ length v = length (V c)
             ∧ (∀ i, 0 <= i <= x → get v i = mem c (I c + i))
             ∧ (∀ i, x < i → get v i = reg c i)))
  ∧ (I c + x > 4095 →
     executeOpcode c (0xF055 + 0x100 * x) rnd = Undefined
     ∧ executeOpcode c (0xF065 + 0x100 * x) rnd = Undefined)
  ∧ (∀ c' err, executeOpcode c (0xF055 + 0x100 * x) rnd = Done (c', err) →
               I c' = I c)
  ∧ (∀ c' err, executeOpcode c (0xF065 + 0x100 * x) rnd = Done (c', err) →
               I c' = I c).
Proof.
  intros Hc Hx.
  assert (executeOpcode c (0xF055 + 0x100 * x) rnd
          = (c1 ← for_loop (Z.to_nat (x + 1)) 0 store_reg c; ok (advance c1 2)))
    as H55.
  { rewrite executeOpcode_F by fields. rewrite exec_F_55 by fields.
    by replace (Z.shiftr (Z.land (0xF055 + 0x100 * x) 0x0F00) 8) with x by fields. }
  assert (executeOpcode c (0xF065 + 0x100 * x) rnd
          = (c1 ← for_loop (Z.to_nat (x + 1)) 0 load_reg c; ok (advance c1 2)))
    as H65.
  { rewrite executeOpcode_F by fields. rewrite exec_F_65 by fields.
    by replace (Z.shiftr (Z.land (0xF065 + 0x100 * x) 0x0F00) 8) with x by fields. }
  rewrite H55, H65. split; [|split; [|split]].
  - intros HI. split.
    + destruct (store_regs c x Hc Hx) as (m & -> & Hm); [lia|].
      exists m. split; [reflexivity|]. split; [reflexivity|]. exact Hm.
    + destruct (load_regs c x Hc Hx) as (v & -> & Hv); [lia|].
      exists v. split; [reflexivity|]. split; [reflexivity|]. exact Hv.
  - intros HI. split.
    + by rewrite store_regs_overrun by (done || lia).
    + by rewrite load_regs_overrun by (done || lia).
  - intros c' err Hrun.
    destruct (for_loop _ 0 store_reg c) as [c1| |] eqn:Hloop; try done.
    simpl in Hrun. inversion Hrun; subst. simpl.
    eapply (for_loop_keeps (λ b, I b = I c)); [|reflexivity|exact Hloop].
    intros j b b' Hb Hstep. apply store_reg_I in Hstep. congruence.
  - intros c' err Hrun.
    destruct (for_loop _ 0 load_reg c) as [c1| |] eqn:Hloop; try done.
    simpl in Hrun. inversion Hrun; subst. simpl.
    eapply (for_loop_keeps (λ b, I b = I c)); [|reflexivity|exact Hloop].
    intros j b b' Hb Hstep. apply load_reg_I in Hstep. congruence.
Qed.

Lemma op_Fx55_Fx65_keep_I_witness :
  let c := set_I (with_regs init [(0, 0x11); (1, 0x22); (2, 0x33)]) 0x300 in
  (∃ c', executeOpcode c 0xF255 0 = Done (c', [])
         ∧ I c' = 0x300 ∧ mem c' 0x302 = 0x33 ∧ mem c' 0x303 = 0)
  ∧ (∃ c', executeOpcode (set_I c 0x50) 0xF265 0 = Done (c', [])
           ∧ I c' = 0x50 ∧ reg c' 1 = 0x90)
  ∧ executeOpcode (set_I c 0xFFE) 0xF255 0 = Undefined
  ∧ executeOpcode (set_I c 0xFFE) 0xF265 0 = Undefined.
Proof.
  intros c. split; [|split].
  - destruct (op_Fx55_Fx65_keep_I c 2 0) as (Hdone & _).
    + apply wfb_wf. vm_compute. reflexivity.
    + lia.
    + destruct Hdone as [(m & Hrun & HI & _ & Hcopy & Hrest) _];
        [by vm_compute|].
      eexists. split; [exact Hrun|]. split; [exact HI|].
      unfold mem. cbn [memory advance set_pc set_memory]. split.
      * change 0x302 with (I c + 2). rewrite (Hcopy 2) by lia.
        vm_compute. reflexivity.
      * rewrite (Hrest 0x303); [vm_compute; reflexivity|lia|].
        change (I c) with 0x300. lia.
  - destruct (op_Fx55_Fx65_keep_I (set_I c 0x50) 2 0) as (Hdone & _).
    + apply wfb_wf. vm_compute. reflexivity.
    + lia.
    + destruct Hdone as [_ (v & Hrun & HI & _ & Hcopy & _)];
        [by vm_compute|].
      eexists. split; [exact Hrun|]. split; [exact HI|].
      unfold reg. cbn [V advance set_pc set_V].
      rewrite (Hcopy 1) by lia. vm_compute. reflexivity.
  - destruct (op_Fx55_Fx65_keep_I (set_I c 0xFFE) 2 0) as (_ & Hout & _).
    + apply wfb_wf. vm_compute. reflexivity.
    + lia.
    + apply Hout. vm_compute. reflexivity.
Defined.

(** C10 fails for some machine states: [store_past_end] sets I to 0xFFF
    in its first cycle, a state main reaches, and its F155 then stores V1
    at memory[0x1000], past the last byte; F165 reads the same address.
    Neither has a state afterward in which I could be compared. *)
Lemma op_Fx55_Fx65_past_end_of_memory :
  let c0 := with_code init 0x200 store_past_end in
  let c := set_pc (set_I c0 0xFFF) 0x202 in
  loadROM init "rom" (Some store_past_end) = Done (c0, [])
  ∧ emulateCycle c0 0 = Done (c, [])
  ∧ reachable c ∧ wf c ∧ I c + 1 > 4095
  ∧ fetchOpcode c = Done 0xF155
  ∧ executeOpcode c 0xF155 0 = Undefined
  ∧ executeOpcode c 0xF165 0 = Undefined
  ∧ emulateCycle c 0 = Undefined
  ∧ ¬ (∃ c' err, executeOpcode c 0xF155 0 = Done (c', err) ∧ I c' = I c).
Proof.
  intros c0 c.
  assert (loadROM init "rom" (Some store_past_end) = Done (c0, [])) as Hload
    by (vm_compute; reflexivity).
  assert (emulateCycle c0 0 = Done (c, [])) as Hcycle
    by (vm_compute; reflexivity).
  assert (executeOpcode c 0xF155 0 = Undefined) as H55
    by (vm_compute; reflexivity).
  split; [exact Hload|]. split; [exact Hcycle|]. split.
  { eapply reach_cycle; [|exact Hcycle].
    eapply reach_load; [apply reach_init| |exact Hload].
    repeat constructor; lia. }
  split; [apply wfb_wf; vm_compute; reflexivity|].
  split; [vm_compute; reflexivity|].
  split; [vm_compute; reflexivity|].
  split; [exact H55|].
  split; [vm_compute; reflexivity|].
  split; [vm_compute; reflexivity|].
  intros (c' & err & Hdone & _). rewrite H55 in Hdone. discriminate Hdone.
Qed.

(** ** loadROM *)

(** The copy loop of loadROM over the first [n] bytes of the buffer, as
    long as they land inside memory. *)
Lemma copy_rom (buffer m0 : list Z) (n : nat) :
  (n <= length buffer)%nat →
  PROGRAM_START + Z.of_nat n <= Z.of_nat (length m0) →
  ∃ m, for_loop n 0 (λ i m, b ← ld buffer i; st m (PROGRAM_START + i) b) m0
       = Done m
       ∧ length m = length m0
       ∧ (∀ i, 0 <= i < Z.of_nat n → get m (PROGRAM_START + i) = get buffer i)
       ∧ (∀ a, 0 <= a →
               ¬ (PROGRAM_START <= a < PROGRAM_START + Z.of_nat n) →
               get m a = get m0 a).
Proof.
  intros Hn Hfit. unfold PROGRAM_START in *.
  destruct (for_loop_inv
    (λ j m, length m = length m0
            ∧ (∀ i, 0 <= i < j → get m (0x200 + i) = get buffer i)
            ∧ (∀ a, 0 <= a → ¬ (0x200 <= a < 0x200 + j) → get m a = get m0 a))
    (λ i m, b ← ld buffer i; st m (0x200 + i) b) n 0 m0)
    as (m & Hrun & Hlen & Hcopy & Hrest).
  - split; [done|]. split; [intros; lia|done].
  - intros j m Hj (Hlen & Hcopy & Hrest).
    rewrite ld_get by lia. simpl. rewrite st_in by lia.
    eexists. split; [reflexivity|].
    split; [by rewrite length_insert|]. split.
    + intros i Hi. destruct (decide (i = j)) as [->|Hne].
      * by rewrite get_insert_eq by lia.
      * rewrite get_insert_ne by lia. apply Hcopy. lia.
    + intros a Ha Hout. rewrite get_insert_ne by lia. apply Hrest; lia.
  - exists m. split; [done|]. split; [done|]. split.
    + intros i Hi. apply Hcopy. lia.
    + intros a Ha Hout. apply Hrest; lia.
Qed.

(** A ROM of at most 4096 - 0x200 bytes is copied to 0x200 and up. *)
Lemma loadROM_fits (c : Chip8) (filename : string) (buffer : list Z) :
  wf c → Z.of_nat (length buffer) <= MEMORY_SIZE - PROGRAM_START →
  ∃ m, loadROM c filename (Some buffer) = Done (set_memory c m, [])
       ∧ length m = length (memory c)
       ∧ (∀ i, 0 <= i < Z.of_nat (length buffer) →
               get m (PROGRAM_START + i) = get buffer i)
       ∧ (∀ a, 0 <= a →
               ¬ (PROGRAM_START <= a < PROGRAM_START + Z.of_nat (length buffer)) →
               get m a = mem c a).
Proof.
  intros Hc Hsize.
  pose proof (wf_memory_len c Hc) as Hml.
  unfold MEMORY_SIZE, PROGRAM_START in *.
  destruct (copy_rom buffer (memory c) (length buffer))
    as (m & Hrun & Hm); [done|unfold PROGRAM_START; lia|].
  exists m. split; [|exact Hm].
  unfold loadROM, MEMORY_SIZE.
  destruct (Z.gtb_spec (Z.of_nat (length buffer)) 4096); [lia|].
  by rewrite Hrun.
Qed.

(** A ROM of more than 4096 bytes ends the process before any copy. *)
Lemma loadROM_rejects (c : Chip8) (filename : string) (buffer : list Z) :
  MEMORY_SIZE < Z.of_nat (length buffer) →
  loadROM c filename (Some buffer) = Exited 1 ["ROM FILE size exceeded limits"].
Proof.
  intros Hsize. unfold loadROM.
  by destruct (Z.gtb_spec (Z.of_nat (length buffer)) MEMORY_SIZE); [|lia].
Qed.

(** In between, the size check passes and the copy runs past the end of
    memory. *)
Lemma loadROM_overruns (c : Chip8) (filename : string) (buffer : list Z) :
  wf c →
  MEMORY_SIZE - PROGRAM_START < Z.of_nat (length buffer) <= MEMORY_SIZE →
  loadROM c filename (Some buffer) = Undefined.
Proof.
  intros Hc Hsize.
  pose proof (wf_memory_len c Hc) as Hml.
  unfold MEMORY_SIZE, PROGRAM_START in *.
  unfold loadROM, MEMORY_SIZE.
  destruct (Z.gtb_spec (Z.of_nat (length buffer)) 4096); [lia|].
  assert (length buffer = 3584 + S (length buffer - 3585))%nat as Hsplit by lia.
  rewrite Hsplit at 1. rewrite for_loop_app.
  destruct (copy_rom buffer (memory c) 3584) as (m & Hrun & Hlen & _);
    [lia|unfold PROGRAM_START; lia|].
  rewrite Hrun. simpl.
  rewrite ld_get by lia. simpl.
  rewrite st_out; [done|]. unfold PROGRAM_START. lia.
Qed.

(** C5: a ROM of 3585 bytes, one more than fits from 0x200, passes the size
    check (which compares with the whole memory size) and is copied past
    the end of memory; 3584 bytes load, and only from 4097 bytes on is the
    ROM refused. *)
Theorem loadROM_capacity_check_misses_offset :
  loadROM init "rom" (Some (replicate 3585 0xAA)) = Undefined
  ∧ (∃ c', loadROM init "rom" (Some (replicate 3584 0xAA)) = Done (c', [])
           ∧ mem c' 0x200 = 0xAA ∧ mem c' 0xFFF = 0xAA)
  ∧ loadROM init "rom" (Some (replicate 4096 0xAA)) = Undefined
  ∧ loadROM init "rom" (Some (replicate 4097 0xAA))
    = Exited 1 ["ROM FILE size exceeded limits"].
Proof.
  assert (wf init) as Hinit by (apply wfb_wf; vm_compute; reflexivity).
  split; [|split; [|split]].
  - apply loadROM_overruns; [done|].
    rewrite length_replicate. unfold MEMORY_SIZE, PROGRAM_START. lia.
  - destruct (loadROM_fits init "rom" (replicate 3584 0xAA) Hinit)
      as (m & Hrun & _ & Hcopy & _).
    { rewrite length_replicate. unfold MEMORY_SIZE, PROGRAM_START. lia. }
    eexists. split; [exact Hrun|]. unfold mem. cbn [memory set_memory].
    rewrite length_replicate in Hcopy. unfold PROGRAM_START in Hcopy. split.
    + change (get m 0x200) with (get m (512 + 0)).
      rewrite (Hcopy 0) by lia. apply get_replicate. lia.
    + change (get m 0xFFF) with (get m (512 + 3583)).
      rewrite (Hcopy 3583) by lia. apply get_replicate. lia.
  - apply loadROM_overruns; [done|].
    rewrite length_replicate. unfold MEMORY_SIZE, PROGRAM_START. lia.
  - apply loadROM_rejects. rewrite length_replicate. unfold MEMORY_SIZE. lia.
Qed.

(** ** The call stack *)

Arguments for_loop : simpl never.

Lemma exec_2_call (c : Chip8) (op : Z) :
  0 <= sp c < Z.of_nat (length (stack c)) →
  exec_2 c op
  = Done (set_pc (set_sp (set_stack c (<[Z.to_nat (sp c) := pc c]> (stack c)))
                         (u16 (sp c + 1)))
                 (Z.land op 0x0FFF), []).
Proof. intros Hsp. unfold exec_2. by rewrite st_in by done. Qed.

Lemma exec_2_overflow (c : Chip8) (op : Z) :
  Z.of_nat (length (stack c)) <= sp c → exec_2 c op = Undefined.
Proof. intros Hsp. unfold exec_2. by rewrite st_out by lia. Qed.

Lemma exec_0_return (c : Chip8) :
  0 < sp c <= Z.of_nat (length (stack c)) → sp c < 65536 →
  exec_0 c 0x00EE
  = Done (set_pc (set_sp c (sp c - 1)) (u16 (get (stack c) (sp c - 1) + 2)), []).
Proof.
  intros Hsp Hsp16. unfold exec_0.
  change (0x00EE =? 0x00E0) with false. change (0x00EE =? 0x00EE) with true.
  cbv iota.
  replace (u16 (sp c - 1)) with (sp c - 1)
    by (unfold u16; by rewrite Z.mod_small by lia).
  cbn [sp stack set_sp].
  by rewrite ld_get by lia.
Qed.

Lemma exec_0_underflow (c : Chip8) :
  sp c = 0 → Z.of_nat (length (stack c)) <= 65535 →
  exec_0 c 0x00EE = Undefined.
Proof.
  intros Hsp Hlen. unfold exec_0.
  change (0x00EE =? 0x00E0) with false. change (0x00EE =? 0x00EE) with true.
  cbv iota. rewrite Hsp. change (u16 (0 - 1)) with 65535.
  cbn [sp stack set_sp].
  by rewrite ld_out by lia.
Qed.

Lemma stack_kept_refl (c : Chip8) : stack_kept c c.
Proof. done. Qed.

Lemma stack_kept_trans (c1 c2 c3 : Chip8) :
  stack_kept c1 c2 → stack_kept c2 c3 → stack_kept c1 c3.
Proof. unfold stack_kept. intros [-> ->] [-> ->]. done. Qed.

Lemma stack_kept_step (c c' : Chip8) : stack_kept c c' → stack_step c c'.
Proof. intros [Hs Hp]. split; [by rewrite Hs|by left]. Qed.

(** Straight-line monadic code: case analysis on every access and test
    met on the way to a [Done]. *)
Ltac run H :=
  repeat (simpl in H;
          match type of H with
          | Done _ = Done _ => fail 1
          | (if ?b then _ else _) = Done _ => destruct b eqn:?
          | mbind _ ?m = Done _ => destruct m eqn:?; try discriminate H
          | (let '(_, _) := ?p in _) = Done _ => destruct p
          end).

Ltac kept H := run H; inversion H; subst; done.

Lemma for_loop_stack_kept (body : Z → Chip8 → outcome Chip8) :
  (∀ j b b', body j b = Done b' → stack_kept b b') →
  ∀ n i c c', for_loop n i body c = Done c' → stack_kept c c'.
Proof.
  intros Hbody n i c c' Hrun.
  apply (for_loop_keeps (stack_kept c) body) with (n := n) (i := i) (a := c);
    [|done|done].
  intros j b b' Hb Hstep. by eapply stack_kept_trans, Hbody.
Qed.

Lemma draw_col_stack_kept (x y row sprite col : Z) (c c' : Chip8) :
  draw_col x y row sprite col c = Done c' → stack_kept c c'.
Proof.
  unfold draw_col. intros H.
  destruct (negb _); [|by inversion H].
  destruct (ld (display c) _) as [d| |]; try done. simpl in H.
  destruct (d =? 1).
  - destruct (st (V c) 15 1) as [V1| |]; try done. simpl in H. kept H.
  - simpl in H. kept H.
Qed.

Lemma draw_row_stack_kept (x y row : Z) (c c' : Chip8) :
  draw_row x y row c = Done c' → stack_kept c c'.
Proof.
  unfold draw_row. intros H.
  destruct (ld (memory c) _) as [sprite| |]; try done. simpl in H.
  eapply for_loop_stack_kept; [|exact H].
  intros j b b'. apply draw_col_stack_kept.
Qed.

Lemma exec_D_stack_kept (c : Chip8) (op : Z) (c' : Chip8) (err : list string) :
  exec_D c op = Done (c', err) → stack_kept c c'.
Proof.
  unfold exec_D. intros H.
  destruct (ld (V c) (Z.shiftr (Z.land op 0x0F00) 8)) as [vx| |]; try done.
  simpl in H.
  destruct (ld (V c) (Z.shiftr (Z.land op 0x00F0) 4)) as [vy| |]; try done.
  simpl in H.
  destruct (st (V c) 15 0) as [V1| |]; try done. simpl in H.
  destruct (for_loop _ _ _ _) as [c1| |] eqn:Hloop; try done. simpl in H.
  assert (stack_kept (set_V c V1) c1) as [Hs Hp].
  { eapply for_loop_stack_kept; [|exact Hloop].
    intros j b b'. apply draw_row_stack_kept. }
  inversion H; subst. by split.
Qed.

Lemma exec_8_stack_kept (c : Chip8) (op : Z) (c' : Chip8) (err : list string) :
  exec_8 c op = Done (c', err) → stack_kept c c'.
Proof. unfold exec_8. intros H. kept H. Qed.

Lemma exec_E_stack_kept (c : Chip8) (op : Z) (c' : Chip8) (err : list string) :
  exec_E c op = Done (c', err) → stack_kept c c'.
Proof. unfold exec_E, skip_if. intros H. kept H. Qed.

Lemma scan_keys_stack_kept (x : Z) (c : Chip8) :
  ∀ n i c' pressed, scan_keys n i x c = Done (c', pressed) → stack_kept c c'.
Proof.
  induction n as [|n IH]; intros i c' pressed H; simpl in H.
  - by inversion H.
  - destruct (ld (keypad c) i) as [k| |]; try done. simpl in H.
    destruct (negb _); [|by eapply IH].
    kept H.
Qed.

Lemma store_reg_stack_kept (i : Z) (c c' : Chip8) :
  store_reg i c = Done c' → stack_kept c c'.
Proof. unfold store_reg. intros H. kept H. Qed.

Lemma load_reg_stack_kept (i : Z) (c c' : Chip8) :
  load_reg i c = Done c' → stack_kept c c'.
Proof. unfold load_reg. intros H. kept H. Qed.

Lemma exec_F_stack_kept (c : Chip8) (op : Z) (c' : Chip8) (err : list string) :
  exec_F c op = Done (c', err) → stack_kept c c'.
Proof.
  unfold exec_F. intros H.
  repeat match type of H with
         | (if ?b then _ else _) = Done _ => destruct b eqn:?
         end.
  - kept H.
  - destruct (scan_keys _ _ _ _) as [[c1 pressed]| |] eqn:Hscan; try done.
    apply scan_keys_stack_kept in Hscan. simpl in H.
    destruct (negb pressed); inversion H; subst; destruct Hscan; by split.
  - kept H.
  - kept H.
  - kept H.
  - kept H.
  - kept H.
  - destruct (for_loop _ _ _ _) as [c1| |] eqn:Hloop; try done. simpl in H.
    assert (stack_kept c c1) as [Hs Hp]
      by (eapply for_loop_stack_kept; [apply store_reg_stack_kept|exact Hloop]).
    inversion H; subst. by split.
  - destruct (for_loop _ _ _ _) as [c1| |] eqn:Hloop; try done. simpl in H.
    assert (stack_kept c c1) as [Hs Hp]
      by (eapply for_loop_stack_kept; [apply load_reg_stack_kept|exact Hloop]).
    inversion H; subst. by split.
  - kept H.
Qed.

Lemma exec_0_stack_step (c : Chip8) (op : Z) (c' : Chip8) (err : list string) :
  exec_0 c op = Done (c', err) → stack_step c c'.
Proof.
  unfold exec_0. intros H.
  destruct (op =? 0x00E0); [apply stack_kept_step; kept H|].
  destruct (op =? 0x00EE); [|apply stack_kept_step; kept H].
  cbn [sp stack set_sp] in H.
  destruct (ld (stack c) (u16 (sp c - 1))) as [ret| |] eqn:Hld; try done.
  apply ld_Done_inv in Hld as [Hin _].
  simpl in H. inversion H; subst. split; [done|]. right. right. done.
Qed.

Lemma exec_2_stack_step (c : Chip8) (op : Z) (c' : Chip8) (err : list string) :
  exec_2 c op = Done (c', err) → stack_step c c'.
Proof.
  unfold exec_2. intros H.
  destruct (st (stack c) (sp c) (pc c)) as [s'| |] eqn:Hst; try done.
  apply st_Done_inv in Hst as [Hin ->].
  simpl in H. inversion H; subst. split; simpl.
  - by rewrite length_insert.
  - right. left. done.
Qed.

Lemma executeOpcode_stack_step (c : Chip8) (op rnd : Z) (c' : Chip8)
    (err : list string) :
  executeOpcode c op rnd = Done (c', err) → stack_step c c'.
Proof.
  unfold executeOpcode, skip_if. intros H.
  repeat match type of H with
         | (if ?b then _ else _) = Done _ => destruct b eqn:?
         end.
  - by eapply exec_0_stack_step.
  - apply stack_kept_step. kept H.
  - by eapply exec_2_stack_step.
  - apply stack_kept_step. kept H.
  - apply stack_kept_step. kept H.
  - apply stack_kept_step. kept H.
  - apply stack_kept_step. kept H.
  - apply stack_kept_step. kept H.
  - by eapply stack_kept_step, exec_8_stack_kept.
  - apply stack_kept_step. kept H.
  - apply stack_kept_step. kept H.
  - apply stack_kept_step. kept H.
  - apply stack_kept_step. kept H.
  - by eapply stack_kept_step, exec_D_stack_kept.
  - by eapply stack_kept_step, exec_E_stack_kept.
  - by eapply stack_kept_step, exec_F_stack_kept.
  - apply stack_kept_step. kept H.
Qed.

Lemma stack_step_inv (c c' : Chip8) :
  stack_inv c → stack_step c c' → stack_inv c'.
Proof.
  unfold stack_inv, stack_step, STACK_SIZE, u16.
  intros [Hlen Hsp] [Hlen' Hstep]. split; [congruence|].
  destruct Hstep as [->|[[Hin ->]|[Hin _]]]; [done| |lia].
  rewrite Z.mod_small by lia. lia.
Qed.

Lemma tick_stack_kept (c : Chip8) : stack_kept c (tick c).
Proof. unfold tick. by repeat case_match. Qed.

Lemma emulateCycle_stack_inv (c : Chip8) (rnd : Z) (c' : Chip8)
    (err : list string) :
  stack_inv c → emulateCycle c rnd = Done (c', err) → stack_inv c'.
Proof.
  intros Hinv. unfold emulateCycle. intros H.
  destruct (fetchOpcode c) as [op| |]; try done. simpl in H.
  destruct (executeOpcode c op rnd) as [[c1 e1]| |] eqn:Hexec; try done.
  simpl in H. inversion H; subst.
  apply executeOpcode_stack_step in Hexec.
  eapply stack_step_inv; [|apply stack_kept_step, tick_stack_kept].
  by eapply stack_step_inv.
Qed.

Lemma main_loop_reachable :
  ∀ n c c', reachable c → main_loop n c = Done c' → reachable c'.
Proof.
  induction n as [|n IH]; intros c c' Hc H; simpl in H.
  - by inversion H; subst.
  - destruct (emulateCycle c 0) as [[c1 e1]| |] eqn:Hcyc; try done.
    simpl in H. eapply IH; [|exact H].
    assert (reachable c1) by (by eapply reach_cycle).
    destruct (drawFlag c1); [by apply reach_render|done].
Qed.

Lemma reachable_stack_inv (c : Chip8) : reachable c → stack_inv c.
Proof.
  induction 1 as [|c filename file c' err _ IH _ Hload|c k pressed c' _ IH _ Hkey
                  |c rnd c' err _ IH Hcyc|c _ IH].
  - split; [vm_compute; reflexivity|]. vm_compute. split; discriminate.
  - unfold loadROM in Hload. destruct file as [buffer|].
    + destruct (_ >? _); try done.
      destruct (for_loop _ _ _ _); try done. by inversion Hload; subst.
    + by inversion Hload; subst.
  - unfold setKeyState in Hkey. destruct (k <? KEYPAD_SIZE).
    + destruct (st _ _ _); try done. by inversion Hkey; subst.
    + by inversion Hkey; subst.
  - by eapply emulateCycle_stack_inv.
  - done.
Qed.

(** C7, as the code has it: in every state reached by main without
    undefined behaviour the stack pointer lies in [0,16], the bound 16
    included; 2nnn stores pc at stack[sp], increments sp and jumps, 00EE
    decrements sp and continues after stack[sp]; with sp = 16 the store of
    2nnn, and with sp = 0 the load of 00EE, indexes the stack array out of
    range, unchecked and without any diagnostic. *)
Theorem stack_pointer_at_most_16 (c : Chip8) (nnn rnd : Z) :
  reachable c → 0 <= nnn < 4096 →
  0 <= sp c <= 16
  ∧ (sp c < 16 →
     executeOpcode c (0x2000 + nnn) rnd
     = Done (set_pc (set_sp (set_stack c (<[Z.to_nat (sp c) := pc c]> (stack c)))
                            (sp c + 1)) nnn, []))
  ∧ (sp c = 16 → executeOpcode c (0x2000 + nnn) rnd = Undefined)
  ∧ (0 < sp c →
     executeOpcode c 0x00EE rnd
     = Done (set_pc (set_sp c (sp c - 1)) (u16 (get (stack c) (sp c - 1) + 2)), []))
  ∧ (sp c = 0 → executeOpcode c 0x00EE rnd = Undefined).
Proof.
  intros Hreach Hnnn.
  destruct (reachable_stack_inv c Hreach) as [Hlen Hsp].
  unfold STACK_SIZE in *.
  split; [done|]. split; [|split; [|split]].
  - intros Hroom. rewrite executeOpcode_2 by fields.
    rewrite exec_2_call by lia.
    replace (Z.land (0x2000 + nnn) 0x0FFF) with nnn by fields.
    unfold u16. by rewrite Z.mod_small by lia.
  - intros Hfull. rewrite executeOpcode_2 by fields.
    apply exec_2_overflow. lia.
  - intros Hframes. rewrite executeOpcode_0 by done.
    apply exec_0_return; lia.
  - intros Hempty. rewrite executeOpcode_0 by done.
    apply exec_0_underflow; [done|lia].
Qed.

Lemma stack_pointer_at_most_16_witness :
  0 <= sp init <= 16
  ∧ (∃ c', executeOpcode init 0x2ABC 0 = Done (c', [])
           ∧ sp c' = 1 ∧ pc c' = 0xABC ∧ get (stack c') 0 = 0x200)
  ∧ executeOpcode init 0x00EE 0 = Undefined.
Proof.
  destruct (stack_pointer_at_most_16 init 0xABC 0) as (Hsp & Hcall & _ & _ & Hret).
  - apply reach_init.
  - lia.
  - split; [exact Hsp|]. split.
    + eexists. split; [apply Hcall; vm_compute; reflexivity|].
      vm_compute. repeat split; reflexivity.
    + apply Hret. vm_compute. reflexivity.
Defined.

(** C7 fails on the bound: sixteen cycles of [self_call] reach sp = 16,
    outside [0,16); the seventeenth call stores at stack[16] with neither a
    check nor a diagnostic. *)
Lemma stack_pointer_reaches_16 :
  loadROM init "rom" (Some self_call) = Done (with_code init 0x200 self_call, [])
  ∧ ∃ c, main_loop 16 (with_code init 0x200 self_call) = Done c
         ∧ reachable c
         ∧ sp c = 16 ∧ ¬ (0 <= sp c < 16)
         ∧ emulateCycle c 0 = Undefined.
Proof.
  assert (loadROM init "rom" (Some self_call)
          = Done (with_code init 0x200 self_call, [])) as Hload
    by (vm_compute; reflexivity).
  split; [exact Hload|].
  assert (match main_loop 16 (with_code init 0x200 self_call) with
          | Done c => sp c
          | _ => -1
          end = 16) as Hsp by (vm_compute; reflexivity).
  assert (mbind (λ c, emulateCycle c 0)
                (main_loop 16 (with_code init 0x200 self_call))
          = Undefined) as Hnext by (vm_compute; reflexivity).
  destruct (main_loop 16 (with_code init 0x200 self_call)) as [c| |] eqn:Hrun;
    [|discriminate Hsp..].
  exists c. split; [done|]. split.
  - eapply main_loop_reachable; [|exact Hrun].
    eapply reach_load; [apply reach_init| |exact Hload].
    repeat constructor; lia.
  - split; [done|]. split; [lia|]. exact Hnext.
Qed.

(** ** Dxyn *)

Lemma cell_inj (x y r1 c1 r2 c2 : Z) :
  0 <= c1 < 8 → 0 <= c2 < 8 →
  cell x y r1 c1 = cell x y r2 c2 → r1 = r2 ∧ c1 = c2.
Proof. unfold cell, DISPLAY_WIDTH. lia. Qed.

Section Draw.

(** The state on entry and the sprite position, already reduced. *)
Variable c : Chip8.
Variables x y n : Z.
Hypothesis Hc : wf c.
Hypothesis Hx : 0 <= x.
Hypothesis Hy : 0 <= y.
Hypothesis Hsprite : I c + n <= MEMORY_SIZE.
Hypothesis Hcells : ∀ r col, 0 <= r < n → 0 <= col < 8 → lit c r col = true →
                             cell x y r col < DISPLAY_WIDTH * DISPLAY_HEIGHT.

Lemma before_next_col (r col r' col' : Z) :
  0 <= r → 0 <= col < 8 →
  before c r (col + 1) r' col'
  ↔ before c r col r' col' ∨ (r' = r ∧ col' = col ∧ lit c r col = true).
Proof.
  intros Hr Hcol. unfold before. split.
  - intros (H1 & H2 & [H3|[-> H3]] & H4); [left; auto| ].
    destruct (decide (col' = col)) as [->|Hne]; [right; auto|].
    left. repeat split; auto; try lia.
  - intros [(H1 & H2 & [H3|[-> H3]] & H4)|(-> & -> & H)];
      repeat split; auto; try lia.
Qed.

Lemma before_next_row (r r' col' : Z) :
  before c (r + 1) 0 r' col' ↔ before c r 8 r' col'.
Proof.
  unfold before. split; intros (H1 & H2 & H3 & H4); repeat split; auto; lia.
Qed.

(** Adding the bit at ([r], [col]) to the cells drawn so far. *)
Lemma drawn_toggle (r col : Z) (d : list Z) (vf : Z) :
  0 <= r < n → 0 <= col < 8 → lit c r col = true →
  drawn c x y r col (set_display (set_V c (<[15%nat := vf]> (V c))) d) →
  drawn c x y r (col + 1)
    (set_display
       (set_V c (<[15%nat := if pixel c (cell x y r col) =? 1 then 1 else vf]> (V c)))
       (<[Z.to_nat (cell x y r col) := Z.lxor (pixel c (cell x y r col)) 1]> d)).
Proof.
  intros Hr Hcol Hlit (d0 & vf0 & Heq & Hlen & Hdrawn & Hrest & Hflag).
  assert (d0 = d) as -> by (by inversion Heq).
  assert (<[15%nat := vf0]> (V c) = <[15%nat := vf]> (V c)) as HV
    by (by inversion Heq).
  assert (vf0 = vf) as ->.
  { apply (f_equal (λ v, get v 15)) in HV. cbv beta in HV.
    pose proof (wf_V_len c Hc) as Hvl. unfold REGISTER_COUNT in Hvl.
    change 15%nat with (Z.to_nat 15) in HV.
    by rewrite !get_insert_eq in HV by lia. }
  pose proof (wf_display_len c Hc) as Hdl.
  unfold DISPLAY_WIDTH, DISPLAY_HEIGHT in Hdl.
  assert (0 <= cell x y r col < 2048) as Hin.
  { split; [unfold cell, DISPLAY_WIDTH; lia|]. by apply (Hcells r col). }
  eexists _, _. split; [reflexivity|]. split; [by rewrite length_insert|].
  split; [|split].
  - intros r' col' Hb. apply before_next_col in Hb; [|lia|lia].
    destruct Hb as [Hb|(-> & -> & _)]; [|by rewrite get_insert_eq by lia].
    rewrite get_insert_ne; [by apply Hdrawn|lia| |].
    + destruct Hb as (H1 & H2 & _). unfold cell, DISPLAY_WIDTH. lia.
    + intros Hsame. destruct Hb as (H1 & H2 & H3 & _).
      apply cell_inj in Hsame; lia.
  - intros i Hi Hfree. rewrite get_insert_ne; [|lia|done|].
    + apply Hrest; [done|]. intros r' col' Hb. apply Hfree.
      apply before_next_col; auto; lia.
    + intros <-. apply (Hfree r col); [|done].
      apply before_next_col; auto; lia.
  - destruct (Z.eqb_spec (pixel c (cell x y r col)) 1) as [Hone|Hnot].
    + left. split; [done|]. exists r, col. split; [|done].
      apply before_next_col; auto; lia.
    + destruct Hflag as [[-> (r' & col' & Hb & Hone)]|[-> Hnone]].
      * left. split; [done|]. exists r', col'. split; [|done].
        apply before_next_col; auto; lia.
      * right. split; [done|]. intros r' col' Hb.
        apply before_next_col in Hb; [|lia|lia].
        destruct Hb as [Hb|(-> & -> & _)]; auto.
Qed.

(** Passing over a clear bit. *)
Lemma drawn_skip (r col : Z) (s : Chip8) :
  0 <= r < n → 0 <= col < 8 → lit c r col = false →
  drawn c x y r col s → drawn c x y r (col + 1) s.
Proof.
  intros Hr Hcol Hlit (d & vf & -> & Hlen & Hdrawn & Hrest & Hflag).
  exists d, vf. split; [done|]. split; [done|]. split; [|split].
  - intros r' col' Hb. apply Hdrawn.
    apply before_next_col in Hb; [|lia|lia].
    destruct Hb as [Hb|(_ & _ & Hb)]; [done|congruence].
  - intros i Hi Hfree. apply Hrest; [done|]. intros r' col' Hb.
    apply Hfree. apply before_next_col; auto; lia.
  - destruct Hflag as [[-> (r' & col' & Hb & Hone)]|[-> Hnone]].
    + left. split; [done|]. exists r', col'. split; [|done].
      apply before_next_col; auto; lia.
    + right. split; [done|]. intros r' col' Hb. apply Hnone.
      apply before_next_col in Hb; [|lia|lia].
      destruct Hb as [Hb|(_ & _ & Hb)]; [done|congruence].
Qed.

Lemma draw_col_step (r col : Z) (s : Chip8) :
  0 <= r < n → 0 <= col < 8 → drawn c x y r col s →
  ∃ s', draw_col x y r (mem c (I c + r)) col s = Done s'
        ∧ drawn c x y r (col + 1) s'.
Proof.
  intros Hr Hcol Hs.
  unfold draw_col. fold (lit c r col).
  destruct (lit c r col) eqn:Hlit;
    [|exists s; split; [done|by apply drawn_skip]].
  pose proof Hs as (d & vf & -> & Hlen & Hdrawn & Hrest & Hflag).
  pose proof (wf_display_len c Hc) as Hdl.
  pose proof (wf_V_len c Hc) as Hvl.
  unfold DISPLAY_WIDTH, DISPLAY_HEIGHT, REGISTER_COUNT in Hdl, Hvl.
  fold (cell x y r col).
  assert (0 <= cell x y r col < 2048) as Hin.
  { split; [unfold cell, DISPLAY_WIDTH; lia|]. by apply (Hcells r col). }
  assert (get d (cell x y r col) = pixel c (cell x y r col)) as Hold.
  { apply Hrest; [lia|]. intros r' col' (H1 & H2 & H3 & H4) Hsame.
    apply cell_inj in Hsame; lia. }
  apply (drawn_toggle r col d vf Hr Hcol Hlit) in Hs.
  cbn [display V set_display set_V negb].
  rewrite ld_get by lia. rewrite Hold. cbn [mbind outcome_bind].
  destruct (pixel c (cell x y r col) =? 1).
  - rewrite st_in by (rewrite length_insert; lia).
    cbn [mbind outcome_bind mret outcome_ret display V set_display set_V].
    rewrite ld_get by lia. cbn [mbind outcome_bind].
    rewrite st_in by lia.
    rewrite list_insert_insert_eq, Hold.
    eexists. split; [reflexivity|exact Hs].
  - cbn [mbind outcome_bind mret outcome_ret display V set_display set_V].
    rewrite ld_get by lia. cbn [mbind outcome_bind].
    rewrite st_in by lia. rewrite Hold.
    eexists. split; [reflexivity|exact Hs].
Qed.

Lemma draw_row_step (r : Z) (s : Chip8) :
  0 <= r < n → drawn c x y r 0 s →
  ∃ s', draw_row x y r s = Done s' ∧ drawn c x y (r + 1) 0 s'.
Proof.
  intros Hr Hs.
  pose proof (wf_memory_len c Hc) as Hml.
  pose proof (wf_I c Hc) as HI.
  unfold MEMORY_SIZE in *.
  assert (memory s = memory c ∧ I s = I c) as [Hmem HIs]
    by (by destruct Hs as (d & vf & -> & _)).
  unfold draw_row. rewrite Hmem, HIs.
  rewrite ld_get by lia. cbn [mbind outcome_bind]. fold (mem c (I c + r)).
  destruct (for_loop_inv (drawn c x y r) (draw_col x y r (mem c (I c + r))) 8 0 s Hs)
    as (s' & Hrun & Hs').
  - intros j b Hj Hb. apply draw_col_step; [done|lia|done].
  - exists s'. split; [done|].
    destruct Hs' as (d & vf & -> & Hlen & Hdrawn & Hrest & Hflag).
    exists d, vf. split; [done|]. split; [done|]. split; [|split].
    + intros r' col' Hb. apply Hdrawn. by apply before_next_row.
    + intros i Hi Hfree. apply Hrest; [done|]. intros r' col' Hb.
      apply Hfree. by apply before_next_row.
    + destruct Hflag as [[-> (r' & col' & Hb & Hone)]|[-> Hnone]].
      * left. split; [done|]. exists r', col'. split; [|done].
        by apply before_next_row.
      * right. split; [done|]. intros r' col' Hb. apply Hnone.
        by apply before_next_row.
Qed.

Lemma draw_rows (s : Chip8) :
  0 <= n → drawn c x y 0 0 s →
  ∃ s', for_loop (Z.to_nat n) 0 (draw_row x y) s = Done s' ∧ drawn c x y n 0 s'.
Proof.
  intros Hn Hs.
  destruct (for_loop_inv (λ r, drawn c x y r 0) (draw_row x y) (Z.to_nat n) 0 s Hs)
    as (s' & Hrun & Hs').
  - intros j b Hj Hb. apply draw_row_step; [lia|done].
  - exists s'. split; [done|].
    by replace (0 + Z.of_nat (Z.to_nat n)) with n in Hs' by lia.
Qed.

End Draw.

(** C1, as the code has it: provided the sprite rows lie inside memory
    and every set sprite bit lands on a framebuffer index below 64 * 32,
    Dxyn XORs each set bit (row r, column col) onto the cell
    (Vy mod 32 + r) * 64 + (Vx mod 64 + col), leaves the other cells alone,
    sets VF to 1 if one of these cells held 1 and to 0 otherwise, sets the
    draw flag and adds 2 to pc, changing nothing else.  Columns are not
    clipped: a set bit with Vx mod 64 + col >= 64 lands on the next row,
    at column Vx mod 64 + col - 64. *)
Theorem op_Dxyn_draws_unclipped (c : Chip8) (xi yi n rnd : Z) :
  wf c → 0 <= xi < 16 → 0 <= yi < 16 → 0 <= n < 16 →
  let x := reg c xi mod 64 in
  let y := reg c yi mod 32 in
  I c + n <= 4096 →
  (∀ r col, 0 <= r < n → 0 <= col < 8 → lit c r col = true →
            cell x y r col < 2048) →
  ∃ d vf,
    executeOpcode c (0xD000 + 0x100 * xi + 0x10 * yi + n) rnd
    = Done (set_pc (set_drawFlag
                      (set_display (set_V c (<[15%nat := vf]> (V c))) d) true)
                   (u16 (pc c + 2)), [])
    ∧ length d = length (display c)
    ∧ (∀ r col, 0 <= r < n → 0 <= col < 8 → lit c r col = true →
         get d (cell x y r col) = Z.lxor (pixel c (cell x y r col)) 1)
    ∧ (∀ i, 0 <= i →
         (∀ r col, 0 <= r < n → 0 <= col < 8 → lit c r col = true →
                   i ≠ cell x y r col) →
         get d i = pixel c i)
    ∧ ((∃ r col, 0 <= r < n ∧ 0 <= col < 8 ∧ lit c r col = true
                 ∧ pixel c (cell x y r col) = 1) → vf = 1)
    ∧ ((∀ r col, 0 <= r < n → 0 <= col < 8 → lit c r col = true →
                 pixel c (cell x y r col) ≠ 1) → vf = 0)
    ∧ (∀ r col, 0 <= r < n → 0 <= col < 8 → lit c r col = true →
         64 <= x + col →
         get d ((y + r + 1) * 64 + (x + col - 64))
         = Z.lxor (pixel c ((y + r + 1) * 64 + (x + col - 64))) 1).
Proof.
  intros Hc Hxi Hyi Hn x y HI Hcells.
  pose proof (wf_reg_byte c xi Hc Hxi) as Hvx.
  pose proof (wf_reg_byte c yi Hc Hyi) as Hvy.
  pose proof (wf_x_in_V c 0xF Hc ltac:(lia)) as HlF.
  assert (0 <= x < 64) as Hx by (apply Z.mod_pos_bound; lia).
  assert (0 <= y < 32) as Hy by (apply Z.mod_pos_bound; lia).
  rewrite executeOpcode_D by fields. unfold exec_D.
  replace (Z.shiftr (Z.land (0xD000 + 0x100 * xi + 0x10 * yi + n) 0x0F00) 8)
    with xi by fields.
  replace (Z.shiftr (Z.land (0xD000 + 0x100 * xi + 0x10 * yi + n) 0x00F0) 4)
    with yi by fields.
  replace (Z.land (0xD000 + 0x100 * xi + 0x10 * yi + n) 0x000F) with n by fields.
  rewrite !ld_get by (by apply wf_x_in_V).
  cbn [mbind outcome_bind]. rewrite st_in by done. cbn [mbind outcome_bind].
  fold (reg c xi) (reg c yi). unfold DISPLAY_WIDTH at 1, DISPLAY_HEIGHT at 1.
  fold x y.
  destruct (draw_rows c x y n Hc ltac:(lia) ltac:(lia) HI Hcells
              (set_V c (<[Z.to_nat 0xF := 0]> (V c))))
    as (s' & Hrun & d & vf & -> & Hlen & Hdrawn & Hrest & Hflag).
  { lia. }
  { exists (display c), 0. split; [done|]. split; [done|].
    split; [|split].
    - intros r' col' (H1 & H2 & H3 & H4). lia.
    - done.
    - right. split; [done|]. intros r' col' (H1 & H2 & H3 & H4). lia. }
  rewrite Hrun. cbn [mbind outcome_bind].
  assert (∀ r col, 0 <= r < n → 0 <= col < 8 → lit c r col = true →
                   before c n 0 r col) as Hall.
  { intros r col Hr Hcol Hlit. repeat split; auto; lia. }
  assert (∀ r col, before c n 0 r col →
                   0 <= r < n ∧ 0 <= col < 8 ∧ lit c r col = true) as Honly.
  { intros r col (H1 & H2 & H3 & H4). repeat split; auto; lia. }
  exists d, vf. split; [done|]. split; [done|].
  split; [|split; [|split; [|split]]].
  - intros r col Hr Hcol Hlit. by apply Hdrawn, Hall.
  - intros i Hi Hfree. apply Hrest; [done|]. intros r col Hb.
    apply Honly in Hb as (Hr & Hcol & Hlit). by apply Hfree.
  - intros (r & col & Hr & Hcol & Hlit & Hone).
    destruct Hflag as [[-> _]|[-> Hnone]]; [done|].
    exfalso. apply (Hnone r col); [by apply Hall|done].
  - intros Hnone.
    destruct Hflag as [[-> (r & col & Hb & Hone)]|[-> _]]; [|done].
    exfalso. apply Honly in Hb as (Hr & Hcol & Hlit).
    exact (Hnone r col Hr Hcol Hlit Hone).
  - intros r col Hr Hcol Hlit Hwrap.
    replace ((y + r + 1) * 64 + (x + col - 64)) with (cell x y r col)
      by (unfold cell, DISPLAY_WIDTH; lia).
    by apply Hdrawn, Hall.
Qed.

Lemma get_replicate_0 (k : nat) (i : Z) : get (replicate k 0) i = 0.
Proof.
  unfold get. destruct (replicate k 0 !! Z.to_nat i) as [v|] eqn:Hv; [|done].
  apply lookup_replicate_1 in Hv as [-> _]. done.
Qed.

Lemma op_Dxyn_draws_unclipped_witness :
  ∃ c', executeOpcode glyph_at_edge 0xD015 0 = Done (c', [])
        ∧ pixel c' (3 * 64 + 62) = 1
        ∧ pixel c' (4 * 64 + 1) = 1
        ∧ pixel c' (3 * 64 + 0) = 0
        ∧ reg c' 0xF = 0
        ∧ drawFlag c' = true
        ∧ pc c' = 0x202.
Proof.
  assert (reg glyph_at_edge 0 mod 64 = 62) as Hx by (vm_compute; reflexivity).
  assert (reg glyph_at_edge 1 mod 32 = 3) as Hy by (vm_compute; reflexivity).
  assert (∀ i, pixel glyph_at_edge i = 0) as Hblank.
  { intros i. unfold pixel.
    replace (display glyph_at_edge) with (replicate (Z.to_nat 2048) 0)
      by (vm_compute; reflexivity).
    apply get_replicate_0. }
  destruct (op_Dxyn_draws_unclipped glyph_at_edge 0 1 5 0)
    as (d & vf & Hrun & Hlen & Hset & Hrest & Hhit & Hnone & Hwrap).
  - apply wfb_wf. vm_compute. reflexivity.
  - lia.
  - lia.
  - lia.
  - vm_compute. discriminate.
  - intros r col Hr Hcol _. rewrite Hx, Hy. unfold cell, DISPLAY_WIDTH. lia.
  - rewrite Hx, Hy in *.
    eexists. split; [exact Hrun|].
    unfold pixel, reg. cbn [display V set_pc set_drawFlag set_display set_V].
    split; [|split; [|split; [|split; [|split]]]].
    + change (3 * 64 + 62) with (cell 62 3 0 0).
      rewrite Hset, Hblank; [done|lia|lia|vm_compute; reflexivity].
    + change (4 * 64 + 1) with ((3 + 0 + 1) * 64 + (62 + 3 - 64)).
      rewrite (Hwrap 0 3), Hblank; [done|lia|lia|vm_compute; reflexivity|lia].
    + rewrite Hrest, Hblank; [done|lia|].
      intros r col Hr Hcol _. unfold cell, DISPLAY_WIDTH. lia.
    + change 15%nat with (Z.to_nat 15). rewrite get_insert_eq.
      * apply Hnone. intros r col _ _ _. by rewrite Hblank.
      * vm_compute. split; [discriminate|reflexivity].
    + done.
    + vm_compute. reflexivity.
Defined.

(** C1 fails on clipping: the six columns of [row_at_edge] that fall beyond
    column 63 of row 0 are drawn at columns 0..5 of row 1; the second row
    of [rows_at_bottom] is not skipped either, it is written past the end of
    the display array. *)
Lemma op_Dxyn_does_not_clip :
  (∃ c', executeOpcode row_at_edge 0xD011 0 = Done (c', [])
         ∧ map (pixel c') [62; 63] = [1; 1]
         ∧ map (pixel row_at_edge) [64; 65; 66; 67; 68; 69] = [0; 0; 0; 0; 0; 0]
         ∧ map (pixel c') [64; 65; 66; 67; 68; 69] = [1; 1; 1; 1; 1; 1])
  ∧ executeOpcode rows_at_bottom 0xD012 0 = Undefined.
Proof.
  split; [|vm_compute; reflexivity].
  eexists. split; [vm_compute; reflexivity|].
  vm_compute. repeat split; reflexivity.
Qed.

(** ** Well-formedness is kept by every operation *)

Lemma fits_land_ones (z k : Z) :
  0 <= k → (0 <= z < 2 ^ k ↔ Z.land z (Z.ones k) = z).
Proof.
  intros Hk. rewrite Z.land_ones by done. split.
  - intros Hz. by apply Z.mod_small.
  - intros <-. apply Z.mod_pos_bound. lia.
Qed.

Lemma byte_lor (a b : Z) : 0 <= a < 256 → 0 <= b < 256 → 0 <= Z.lor a b < 256.
Proof.
  change 256 with (2 ^ 8). rewrite !fits_land_ones by lia. intros Ha Hb.
  by rewrite Z.land_lor_distr_l, Ha, Hb.
Qed.

Lemma byte_land (a b : Z) : 0 <= a < 256 → 0 <= b < 256 → 0 <= Z.land a b < 256.
Proof.
  change 256 with (2 ^ 8). rewrite !fits_land_ones by lia. intros Ha Hb.
  by rewrite <- Z.land_assoc, Hb.
Qed.

Lemma byte_lxor (a b : Z) : 0 <= a < 256 → 0 <= b < 256 → 0 <= Z.lxor a b < 256.
Proof.
  change 256 with (2 ^ 8). rewrite !fits_land_ones by lia. intros Ha Hb.
  apply Z.bits_inj'. intros k Hk.
  rewrite Z.land_spec, Z.lxor_spec.
  apply (f_equal (λ z, Z.testbit z k)) in Ha, Hb.
  rewrite Z.land_spec in Ha, Hb. rewrite <- Ha, <- Hb.
  by destruct (Z.testbit a k), (Z.testbit b k), (Z.testbit (Z.ones 8) k).
Qed.

Lemma byte_land_r (a b : Z) : 0 <= b < 256 → 0 <= Z.land a b < 256.
Proof.
  change 256 with (2 ^ 8). rewrite !fits_land_ones by lia. intros Hb.
  by rewrite <- Z.land_assoc, Hb.
Qed.

Lemma byte_u8 (z : Z) : 0 <= u8 z < 256.
Proof. unfold u8. apply Z.mod_pos_bound. lia. Qed.

Lemma word_u16 (z : Z) : 0 <= u16 z < 65536.
Proof. unfold u16. apply Z.mod_pos_bound. lia. Qed.

Lemma byte_shiftr (a k : Z) : 0 <= k → 0 <= a < 256 → 0 <= Z.shiftr a k < 256.
Proof.
  intros Hk Ha. rewrite Z.shiftr_div_pow2 by done.
  assert (0 < 2 ^ k) by (apply Z.pow_pos_nonneg; lia).
  split; [apply Z.div_pos; lia|].
  apply Z.le_lt_trans with a; [|lia].
  apply Z.div_le_upper_bound; [lia|]. nia.
Qed.

Lemma word_nnn (op : Z) : 0 <= Z.land op 0x0FFF < 65536.
Proof. rewrite field_nnn. Z.div_mod_to_equations. lia. Qed.

Lemma byte_nn (op : Z) : 0 <= Z.land op 0x00FF < 256.
Proof. rewrite field_nn. Z.div_mod_to_equations. lia. Qed.

Lemma bytes_insert (a : list Z) (i : nat) (v : Z) :
  bytes a → 0 <= v < 256 → bytes (<[i := v]> a).
Proof. intros Ha Hv. by apply Forall_insert. Qed.

Lemma words_insert (a : list Z) (i : nat) (v : Z) :
  words a → 0 <= v < 65536 → words (<[i := v]> a).
Proof. intros Ha Hv. by apply Forall_insert. Qed.

Lemma ld_bytes (a : list Z) (i v : Z) :
  bytes a → ld a i = Done v → 0 <= v < 256.
Proof.
  intros Ha Hld. apply ld_Done_inv in Hld as [Hi ->]. by apply get_bytes.
Qed.

Lemma ld_words (a : list Z) (i v : Z) :
  words a → ld a i = Done v → 0 <= v < 65536.
Proof.
  intros Ha Hld. apply ld_Done_inv in Hld as [Hi ->].
  unfold get. destruct (lookup_lt_is_Some_2 a (Z.to_nat i)) as [w Hw]; [lia|].
  rewrite Hw. exact (Forall_lookup_1 _ a _ _ Ha Hw).
Qed.

Lemma st_bytes (a a' : list Z) (i v : Z) :
  bytes a → 0 <= v < 256 → st a i v = Done a' →
  bytes a' ∧ length a' = length a.
Proof.
  intros Ha Hv Hst. apply st_Done_inv in Hst as [Hi ->].
  split; [by apply bytes_insert|by rewrite length_insert].
Qed.

Lemma wf_set_pc (c : Chip8) (p : Z) : wf c → 0 <= p < 65536 → wf (set_pc c p).
Proof. intros [] Hp. by split. Qed.

Lemma wf_advance (c : Chip8) (k : Z) : wf c → wf (advance c k).
Proof. intros Hc. apply wf_set_pc; [done|apply word_u16]. Qed.

Lemma wf_set_I (c : Chip8) (i : Z) : wf c → 0 <= i < 65536 → wf (set_I c i).
Proof. intros [] Hi. by split. Qed.

Lemma wf_set_V (c : Chip8) (v : list Z) :
  wf c → bytes v ∧ length v = length (V c) → wf (set_V c v).
Proof. intros [] [Hv Hlen]. split; try done. simpl. congruence. Qed.

Lemma wf_set_memory (c : Chip8) (m : list Z) :
  wf c → bytes m ∧ length m = length (memory c) → wf (set_memory c m).
Proof. intros [] [Hm Hlen]. split; try done. simpl. congruence. Qed.

Lemma wf_set_display (c : Chip8) (d : list Z) :
  wf c → bytes d ∧ length d = length (display c) → wf (set_display c d).
Proof. intros [] [Hd Hlen]. split; try done. simpl. congruence. Qed.

Lemma wf_set_keypad (c : Chip8) (k : list Z) :
  wf c → bytes k ∧ length k = length (keypad c) → wf (set_keypad c k).
Proof. intros [] [Hk Hlen]. split; try done. simpl. congruence. Qed.

Lemma wf_set_drawFlag (c : Chip8) (b : bool) : wf c → wf (set_drawFlag c b).
Proof. intros []. by split. Qed.

Lemma wf_set_delayTimer (c : Chip8) (t : Z) :
  wf c → 0 <= t < 256 → wf (set_delayTimer c t).
Proof. intros [] Ht. by split. Qed.

Lemma wf_set_soundTimer (c : Chip8) (t : Z) :
  wf c → 0 <= t < 256 → wf (set_soundTimer c t).
Proof. intros [] Ht. by split. Qed.

Lemma wf_tick (c : Chip8) : wf c → wf (tick c).
Proof.
  intros Hc. rewrite tick_timers by apply Hc.
  pose proof (wf_delayTimer c Hc). pose proof (wf_soundTimer c Hc).
  apply wf_set_soundTimer; [apply wf_set_delayTimer; [done|lia]|lia].
Qed.

Create HintDb wf_db.

#[local] Hint Resolve wf_set_pc wf_advance wf_set_I wf_set_V wf_set_memory
  wf_set_display wf_set_keypad wf_set_drawFlag wf_set_delayTimer
  wf_set_soundTimer wf_V wf_memory wf_display wf_keypad wf_delayTimer
  wf_soundTimer byte_lor byte_land byte_lxor byte_u8 word_u16 byte_nn
  word_nnn byte_land_r : wf_db.

#[local] Hint Extern 3 (_ <= _ < _) => lia : wf_db.
#[local] Hint Extern 3 (_ <= _) => lia : wf_db.
#[local] Hint Extern 4 (_ <= (if _ then _ else _) < _) => case_match; lia : wf_db.
#[local] Hint Extern 5 (_ <= _ < _) => (Z.div_mod_to_equations; lia) : wf_db.
#[local] Hint Extern 1 (bytes _ ∧ length _ = length _) =>
  (split; [assumption|congruence]) : wf_db.
#[local] Hint Resolve byte_shiftr : wf_db.

(** Ranges of the values loaded and of the arrays stored on the way. *)
Ltac ranges :=
  repeat match goal with
         | Ha : bytes ?a, H : ld ?a _ = Done ?v |- _ =>
             lazymatch goal with
             | _ : 0 <= v < 256 |- _ => fail
             | _ => pose proof (ld_bytes _ _ _ Ha H)
             end
         | Ha : bytes ?a, H : st ?a _ ?v = Done ?a' |- _ =>
             lazymatch goal with
             | _ : bytes a' |- _ => fail
             | _ =>
                 let Hv := fresh "Hv" in
                 let Hb := fresh "Hbytes" in
                 let Hl := fresh "Hlen" in
                 assert (0 <= v < 256) as Hv by eauto with wf_db;
                 destruct (st_bytes _ _ _ _ Ha Hv H) as [Hb Hl]; clear Hv
             end
         end.

Ltac wf_start c Hc :=
  pose proof (wf_V c Hc); pose proof (wf_memory c Hc);
  pose proof (wf_display c Hc); pose proof (wf_keypad c Hc);
  pose proof (wf_delayTimer c Hc); pose proof (wf_soundTimer c Hc).

Ltac wf_kept c Hc H :=
  wf_start c Hc; run H; inversion H; subst; ranges; eauto 8 with wf_db.

Lemma exec_8_wf (c : Chip8) (op : Z) (c' : Chip8) (err : list string) :
  wf c → exec_8 c op = Done (c', err) → wf c'.
Proof. intros Hc H. unfold exec_8 in H. wf_kept c Hc H. Qed.

Lemma wf_set_sp (c : Chip8) (s : Z) : wf c → 0 <= s < 65536 → wf (set_sp c s).
Proof. intros [] Hs. by split. Qed.

Lemma wf_set_stack (c : Chip8) (s : list Z) :
  wf c → words s → length s = length (stack c) → wf (set_stack c s).
Proof. intros [] Hs Hlen. split; try done. simpl. congruence. Qed.

Lemma exec_0_wf (c : Chip8) (op : Z) (c' : Chip8) (err : list string) :
  wf c → exec_0 c op = Done (c', err) → wf c'.
Proof.
  intros Hc H. unfold exec_0 in H.
  destruct (op =? 0x00E0).
  - inversion H; subst. apply wf_advance, wf_set_drawFlag, wf_set_display; [done|].
    split; [|by rewrite length_replicate].
    apply Forall_replicate. lia.
  - destruct (op =? 0x00EE); [|by inversion H; subst].
    cbn [sp stack set_sp] in H.
    destruct (ld (stack c) (u16 (sp c - 1))) as [ret| |] eqn:Hld; try done.
    apply ld_words in Hld; [|apply Hc].
    simpl in H. inversion H; subst.
    apply wf_advance, wf_set_pc; [|done].
    apply wf_set_sp; [done|apply word_u16].
Qed.

Lemma exec_2_wf (c : Chip8) (op : Z) (c' : Chip8) (err : list string) :
  wf c → exec_2 c op = Done (c', err) → wf c'.
Proof.
  intros Hc H. unfold exec_2 in H.
  destruct (st (stack c) (sp c) (pc c)) as [s'| |] eqn:Hst; try done.
  apply st_Done_inv in Hst as [Hin ->].
  simpl in H. inversion H; subst.
  apply wf_set_pc; [|apply word_nnn].
  apply wf_set_sp; [|apply word_u16].
  apply wf_set_stack; [done| |by rewrite length_insert].
  apply words_insert; [apply Hc|apply Hc].
Qed.

Lemma for_loop_wf (body : Z → Chip8 → outcome Chip8) :
  (∀ j b b', wf b → body j b = Done b' → wf b') →
  ∀ n i c c', wf c → for_loop n i body c = Done c' → wf c'.
Proof. intros Hbody n i c c'. by apply for_loop_keeps. Qed.

Lemma draw_col_wf (x y row sprite col : Z) (c c' : Chip8) :
  wf c → draw_col x y row sprite col c = Done c' → wf c'.
Proof.
  intros Hc H. unfold draw_col in H.
  destruct (negb _); [|by inversion H; subst].
  destruct (ld (display c) _) as [d| |]; try done. simpl in H.
  destruct (d =? 1).
  - destruct (st (V c) 15 1) as [V1| |] eqn:HV1; try done.
    cbn -[ld st] in H. wf_kept c Hc H.
  - cbn -[ld st] in H. wf_kept c Hc H.
Qed.

Lemma draw_row_wf (x y row : Z) (c c' : Chip8) :
  wf c → draw_row x y row c = Done c' → wf c'.
Proof.
  intros Hc H. unfold draw_row in H.
  destruct (ld (memory c) _) as [sprite| |]; try done. simpl in H.
  eapply for_loop_wf; [|exact Hc|exact H].
  intros j b b'. apply draw_col_wf.
Qed.

Lemma exec_D_wf (c : Chip8) (op : Z) (c' : Chip8) (err : list string) :
  wf c → exec_D c op = Done (c', err) → wf c'.
Proof.
  intros Hc H. unfold exec_D in H.
  destruct (ld (V c) (Z.shiftr (Z.land op 0x0F00) 8)) as [vx| |]; try done.
  simpl in H.
  destruct (ld (V c) (Z.shiftr (Z.land op 0x00F0) 4)) as [vy| |]; try done.
  simpl in H.
  destruct (st (V c) 15 0) as [V1| |] eqn:HV1; try done. simpl in H.
  destruct (for_loop _ _ _ _) as [c1| |] eqn:Hloop; try done. simpl in H.
  inversion H; subst. apply wf_advance, wf_set_drawFlag.
  eapply for_loop_wf; [|
    |exact Hloop].
  - intros j b b'. apply draw_row_wf.
  - wf_start c Hc. ranges. eauto with wf_db.
Qed.

Lemma exec_E_wf (c : Chip8) (op : Z) (c' : Chip8) (err : list string) :
  wf c → exec_E c op = Done (c', err) → wf c'.
Proof. intros Hc H. unfold exec_E, skip_if in H. wf_kept c Hc H. Qed.

Lemma scan_keys_wf (x : Z) (c : Chip8) :
  wf c →
  ∀ n i c' pressed,
    0 <= i → i + Z.of_nat n <= 256 →
    scan_keys n i x c = Done (c', pressed) → wf c'.
Proof.
  intros Hc. induction n as [|n IH]; intros i c' pressed Hi Hn H; simpl in H.
  - by inversion H; subst.
  - destruct (ld (keypad c) i) as [k| |]; try done. simpl in H.
    destruct (negb _); [|eapply IH; [| |exact H]; lia].
    wf_kept c Hc H.
Qed.

Lemma store_reg_wf (i : Z) (c c' : Chip8) :
  wf c → store_reg i c = Done c' → wf c'.
Proof. intros Hc H. unfold store_reg in H. wf_kept c Hc H. Qed.

Lemma load_reg_wf (i : Z) (c c' : Chip8) :
  wf c → load_reg i c = Done c' → wf c'.
Proof. intros Hc H. unfold load_reg in H. wf_kept c Hc H. Qed.

Lemma exec_F_wf (c : Chip8) (op : Z) (c' : Chip8) (err : list string) :
  wf c → exec_F c op = Done (c', err) → wf c'.
Proof.
  intros Hc H. unfold exec_F in H.
  repeat match type of H with
         | (if ?b then _ else _) = Done _ => destruct b eqn:?
         end.
  - wf_kept c Hc H.
  - destruct (scan_keys _ _ _ _) as [[c1 pressed]| |] eqn:Hscan; try done.
    apply scan_keys_wf in Hscan; [|done|lia|unfold KEYPAD_SIZE; lia].
    simpl in H. destruct (negb pressed); inversion H; subst;
      eauto with wf_db.
  - wf_kept c Hc H.
  - wf_kept c Hc H.
  - wf_kept c Hc H.
  - wf_kept c Hc H.
  - wf_kept c Hc H.
  - destruct (for_loop _ _ _ _) as [c1| |] eqn:Hloop; try done. simpl in H.
    inversion H; subst. apply wf_advance.
    eapply for_loop_wf; [apply store_reg_wf|exact Hc|exact Hloop].
  - destruct (for_loop _ _ _ _) as [c1| |] eqn:Hloop; try done. simpl in H.
    inversion H; subst. apply wf_advance.
    eapply for_loop_wf; [apply load_reg_wf|exact Hc|exact Hloop].
  - wf_kept c Hc H.
Qed.

Lemma executeOpcode_wf (c : Chip8) (op rnd : Z) (c' : Chip8) (err : list string) :
  wf c → executeOpcode c op rnd = Done (c', err) → wf c'.
Proof.
  intros Hc H. unfold executeOpcode, skip_if in H.
  repeat match type of H with
         | (if ?b then _ else _) = Done _ => destruct b eqn:?
         end.
  - by eapply exec_0_wf.
  - wf_kept c Hc H.
  - by eapply exec_2_wf.
  - wf_kept c Hc H.
  - wf_kept c Hc H.
  - wf_kept c Hc H.
  - wf_kept c Hc H.
  - wf_kept c Hc H.
  - by eapply exec_8_wf.
  - wf_kept c Hc H.
  - wf_kept c Hc H.
  - wf_kept c Hc H.
  - wf_kept c Hc H.
  - by eapply exec_D_wf.
  - by eapply exec_E_wf.
  - by eapply exec_F_wf.
  - wf_kept c Hc H.
Qed.

Lemma emulateCycle_wf (c : Chip8) (rnd : Z) (c' : Chip8) (err : list string) :
  wf c → emulateCycle c rnd = Done (c', err) → wf c'.
Proof.
  intros Hc H. unfold emulateCycle in H.
  destruct (fetchOpcode c) as [op| |]; try done. simpl in H.
  destruct (executeOpcode c op rnd) as [[c1 e1]| |] eqn:Hexec; try done.
  simpl in H. inversion H; subst.
  by eapply wf_tick, executeOpcode_wf.
Qed.

Lemma setKeyState_wf (c : Chip8) (k : Z) (pressed : bool) (c' : Chip8) :
  wf c → setKeyState c k pressed = Done c' → wf c'.
Proof.
  intros Hc H. unfold setKeyState in H.
  destruct (k <? KEYPAD_SIZE); [|by inversion H; subst].
  wf_kept c Hc H.
Qed.

Lemma loadROM_wf (c : Chip8) (filename : string) (file : option (list Z))
    (c' : Chip8) (err : list string) :
  wf c → (∀ buffer, file = Some buffer → bytes buffer) →
  loadROM c filename file = Done (c', err) → wf c'.
Proof.
  intros Hc Hfile H. unfold loadROM in H.
  destruct file as [buffer|]; [|by inversion H; subst].
  specialize (Hfile buffer eq_refl).
  destruct (_ >? _); try done.
  destruct (for_loop _ _ _ _) as [m| |] eqn:Hloop; try done.
  inversion H; subst. apply wf_set_memory; [done|].
  eapply (for_loop_keeps (λ m, bytes m ∧ length m = length (memory c)));
    [|split; [apply Hc|done]|exact Hloop].
  intros j m0 m1 [Hm0 Hlen] Hstep. simpl in Hstep.
  destruct (ld buffer j) as [b| |] eqn:Hb; try done. simpl in Hstep.
  apply ld_bytes in Hb; [|done].
  destruct (st_bytes _ _ _ _ Hm0 Hb Hstep) as [Hm1 Hlen1].
  split; [done|congruence].
Qed.

(** X1: every state main can reach without undefined behaviour is well
    formed. *)
Lemma reachable_wf (c : Chip8) : reachable c → wf c.
Proof.
  induction 1 as [|c filename file c' err _ IH Hfile Hload|c k pressed c' _ IH _ Hkey
                  |c rnd c' err _ IH Hcyc|c _ IH].
  - apply init_wf.
  - eapply loadROM_wf; [exact IH| |exact Hload].
    intros buffer ->. exact Hfile.
  - by eapply setKeyState_wf.
  - by eapply emulateCycle_wf.
  - by apply wf_set_drawFlag.
Qed.

(** ** Which fields an instruction writes *)

Lemma same_except_refl (l : list field) (c : Chip8) : same_except l c c.
Proof. intros fld _. by destruct fld. Qed.

Lemma same_except_trans (l : list field) (c1 c2 c3 : Chip8) :
  same_except l c1 c2 → same_except l c2 c3 → same_except l c1 c3.
Proof.
  intros H12 H23 fld Hfld. specialize (H12 fld Hfld). specialize (H23 fld Hfld).
  destruct fld; simpl in *; congruence.
Qed.

Lemma same_except_mono (l l' : list field) (c c' : Chip8) :
  l ⊆ l' → same_except l c c' → same_except l' c c'.
Proof. intros Hsub H fld Hfld. apply H. intros Hin. by apply Hfld, Hsub. Qed.

Lemma for_loop_same_except (l : list field) (body : Z → Chip8 → outcome Chip8) :
  (∀ j b b', body j b = Done b' → same_except l b b') →
  ∀ n i c c', for_loop n i body c = Done c' → same_except l c c'.
Proof.
  intros Hbody n i c c' Hrun.
  apply (for_loop_keeps (same_except l c) body) with (n := n) (i := i) (a := c);
    [|apply same_except_refl|done].
  intros j b b' Hb Hstep. by eapply same_except_trans, Hbody.
Qed.

Ltac in_list := solve [repeat constructor].

Ltac not_in Hfld :=
  let Hin := fresh "Hin" in
  intros Hin; apply Hfld; revert Hin;
  rewrite ?elem_of_app, ?elem_of_cons; tauto.

(** Straight-line code: the state returned is an explicit update of [c]. *)
Ltac frame H :=
  run H; inversion H; subst;
  let fld := fresh "fld" in
  let Hfld := fresh "Hfld" in
  intros fld Hfld; destruct fld; try done;
  exfalso; apply Hfld; in_list.

Lemma exec_0_writes (c : Chip8) (op : Z) (c' : Chip8) (err : list string) :
  exec_0 c op = Done (c', err) →
  same_except (if op =? 0x00E0 then [FDisplay; FDrawFlag; FPc]
               else if op =? 0x00EE then [FSp; FPc] else []) c c'.
Proof.
  unfold exec_0. intros H.
  destruct (op =? 0x00E0); [frame H|].
  destruct (op =? 0x00EE); [|frame H].
  cbn [sp stack set_sp] in H. frame H.
Qed.

Lemma exec_2_writes (c : Chip8) (op : Z) (c' : Chip8) (err : list string) :
  exec_2 c op = Done (c', err) → same_except [FStack; FSp; FPc] c c'.
Proof. unfold exec_2. intros H. frame H. Qed.

Lemma exec_8_writes (c : Chip8) (op : Z) (c' : Chip8) (err : list string) :
  exec_8 c op = Done (c', err) → same_except [FV; FPc] c c'.
Proof. unfold exec_8. intros H. frame H. Qed.

Lemma draw_col_writes (x y row sprite col : Z) (c c' : Chip8) :
  draw_col x y row sprite col c = Done c' → same_except [FV; FDisplay] c c'.
Proof.
  unfold draw_col. intros H.
  destruct (negb _); [|frame H].
  destruct (ld (display c) _) as [d| |]; try done. simpl in H.
  destruct (d =? 1).
  - destruct (st (V c) 15 1) as [V1| |]; try done.
    cbn -[ld st] in H. frame H.
  - cbn -[ld st] in H. frame H.
Qed.

Lemma draw_row_writes (x y row : Z) (c c' : Chip8) :
  draw_row x y row c = Done c' → same_except [FV; FDisplay] c c'.
Proof.
  unfold draw_row. intros H.
  destruct (ld (memory c) _) as [sprite| |]; try done. simpl in H.
  eapply for_loop_same_except; [|exact H].
  intros j b b'. apply draw_col_writes.
Qed.

Lemma exec_D_writes (c : Chip8) (op : Z) (c' : Chip8) (err : list string) :
  exec_D c op = Done (c', err) →
  same_except [FV; FDisplay; FDrawFlag; FPc] c c'.
Proof.
  unfold exec_D. intros H.
  destruct (ld (V c) (Z.shiftr (Z.land op 0x0F00) 8)) as [vx| |]; try done.
  simpl in H.
  destruct (ld (V c) (Z.shiftr (Z.land op 0x00F0) 4)) as [vy| |]; try done.
  simpl in H.
  destruct (st (V c) 15 0) as [V1| |]; try done. simpl in H.
  destruct (for_loop _ _ _ _) as [c1| |] eqn:Hloop; try done. simpl in H.
  assert (same_except [FV; FDisplay] (set_V c V1) c1) as Hc1.
  { eapply for_loop_same_except; [|exact Hloop].
    intros j b b'. apply draw_row_writes. }
  inversion H; subst. intros fld Hfld.
  assert (fld ∉ [FV; FDisplay]) as Hfld' by not_in Hfld.
  specialize (Hc1 fld Hfld').
  destruct fld; try done; exfalso; apply Hfld; in_list.
Qed.

Lemma exec_E_writes (c : Chip8) (op : Z) (c' : Chip8) (err : list string) :
  exec_E c op = Done (c', err) → same_except [FPc] c c'.
Proof. unfold exec_E, skip_if. intros H. frame H. Qed.

Lemma scan_keys_writes (x : Z) (c : Chip8) :
  ∀ n i c' pressed,
    scan_keys n i x c = Done (c', pressed) → same_except [FV] c c'.
Proof.
  induction n as [|n IH]; intros i c' pressed H; simpl in H.
  - inversion H; subst. apply same_except_refl.
  - destruct (ld (keypad c) i) as [k| |]; try done. simpl in H.
    destruct (negb _); [|by eapply IH].
    frame H.
Qed.

Lemma store_reg_writes (i : Z) (c c' : Chip8) :
  store_reg i c = Done c' → same_except [FMemory] c c'.
Proof. unfold store_reg. intros H. frame H. Qed.

Lemma load_reg_writes (i : Z) (c c' : Chip8) :
  load_reg i c = Done c' → same_except [FV] c c'.
Proof. unfold load_reg. intros H. frame H. Qed.

Lemma advance_after (l : list field) (c c1 : Chip8) (k : Z) :
  same_except l c c1 → same_except (l ++ [FPc]) c (advance c1 k).
Proof.
  intros H fld Hfld.
  assert (fld ∉ l) as Hfld' by not_in Hfld.
  specialize (H fld Hfld').
  destruct fld; try done. exfalso. apply Hfld.
  apply elem_of_app. right. in_list.
Qed.

Lemma exec_F_writes (c : Chip8) (op : Z) (c' : Chip8) (err : list string) :
  exec_F c op = Done (c', err) →
  same_except
    (let nn := Z.land op 0x00FF in
     if nn =? 0x07 then [FV; FPc]
     else if nn =? 0x0A then [FV; FPc]
     else if nn =? 0x15 then [FDelayTimer; FPc]
     else if nn =? 0x18 then [FSoundTimer; FPc]
     else if nn =? 0x1E then [FI; FPc]
     else if nn =? 0x29 then [FI; FPc]
     else if nn =? 0x33 then [FMemory; FPc]
     else if nn =? 0x55 then [FMemory; FPc]
     else if nn =? 0x65 then [FV; FPc]
     else []) c c'.
Proof.
  unfold exec_F. cbv zeta. intros H.
  repeat match type of H with
         | (if ?b then _ else _) = Done _ => destruct b eqn:?
         end.
  - frame H.
  - destruct (scan_keys _ _ _ _) as [[c1 pressed]| |] eqn:Hscan; try done.
    apply scan_keys_writes in Hscan. simpl in H.
    destruct (negb pressed); inversion H; subst.
    + eapply same_except_mono; [|exact Hscan].
      intros fld. rewrite !elem_of_cons. tauto.
    + by apply (advance_after [FV]).
  - frame H.
  - frame H.
  - frame H.
  - frame H.
  - frame H.
  - destruct (for_loop _ _ _ _) as [c1| |] eqn:Hloop; try done. simpl in H.
    inversion H; subst. apply (advance_after [FMemory]).
    eapply for_loop_same_except; [apply store_reg_writes|exact Hloop].
  - destruct (for_loop _ _ _ _) as [c1| |] eqn:Hloop; try done. simpl in H.
    inversion H; subst. apply (advance_after [FV]).
    eapply for_loop_same_except; [apply load_reg_writes|exact Hloop].
  - frame H.
Qed.

(** Whatever executeOpcode returns differs from the state it was given at
    most in the fields of [writes op]. *)
Lemma executeOpcode_writes (c : Chip8) (op rnd : Z) (c' : Chip8)
    (err : list string) :
  executeOpcode c op rnd = Done (c', err) → same_except (writes op) c c'.
Proof.
  intros H.
  destruct (recognized op) eqn:Hrec.
  2: { rewrite executeOpcode_unrecognized in H by done.
       inversion H; subst. apply same_except_refl. }
  unfold executeOpcode, skip_if in H. unfold writes. rewrite Hrec.
  repeat match type of H with
         | (if ?b then _ else _) = Done _ => destruct b eqn:?
         end.
  - by eapply exec_0_writes.
  - frame H.
  - by eapply exec_2_writes.
  - frame H.
  - frame H.
  - frame H.
  - frame H.
  - frame H.
  - by eapply exec_8_writes.
  - frame H.
  - frame H.
  - frame H.
  - frame H.
  - by eapply exec_D_writes.
  - by eapply exec_E_writes.
  - by eapply exec_F_writes.
  - frame H.
Qed.

Lemma tick_writes (c : Chip8) :
  same_except [FDelayTimer; FSoundTimer] c (tick c).
Proof.
  intros fld Hfld. unfold tick.
  destruct fld; try (by repeat case_match); exfalso; apply Hfld; in_list.
Qed.

Lemma emulateCycle_inv (c : Chip8) (rnd : Z) (c' : Chip8) (err : list string) :
  emulateCycle c rnd = Done (c', err) →
  ∃ op c1, fetchOpcode c = Done op
           ∧ executeOpcode c op rnd = Done (c1, err)
           ∧ c' = tick c1.
Proof.
  unfold emulateCycle. intros H.
  destruct (fetchOpcode c) as [op| |]; try done. simpl in H.
  destruct (executeOpcode c op rnd) as [[c1 e1]| |] eqn:Hexec; try done.
  simpl in H. inversion H; subst. by exists op, c1.
Qed.

(** Membership in [writes op], field by field. *)
Lemma writes_cases (op : Z) (fld : field) :
  fld ∈ writes op →
  match fld with
  | FMemory => Z.land op 0xF000 = 0xF000
               ∧ (Z.land op 0x00FF = 0x33 ∨ Z.land op 0x00FF = 0x55)
  | FDisplay | FDrawFlag => op = 0x00E0 ∨ Z.land op 0xF000 = 0xD000
  | FDelayTimer => Z.land op 0xF000 = 0xF000 ∧ Z.land op 0x00FF = 0x15
  | FSoundTimer => Z.land op 0xF000 = 0xF000 ∧ Z.land op 0x00FF = 0x18
  | FStack => Z.land op 0xF000 = 0x2000
  | FSp => op = 0x00EE ∨ Z.land op 0xF000 = 0x2000
  | FKeypad => False
  | FV | FI | FPc => True
  end.
Proof.
  unfold writes.
  repeat match goal with
         | |- context [if ?a =? ?b then _ else _] =>
             destruct (Z.eqb_spec a b)
         | |- context [if recognized op then _ else _] =>
             destruct (recognized op)
         end;
    rewrite ?elem_of_cons, elem_of_nil; destruct fld;
    try done; intuition discriminate.
Qed.

(** X2: one completed cycle changes at most the fields its instruction
    assigns, listed by [writes], and the two timers. *)
Theorem cycle_write_set (c : Chip8) (rnd : Z) (c' : Chip8) (err : list string) :
  emulateCycle c rnd = Done (c', err) →
  ∃ op, fetchOpcode c = Done op
        ∧ same_except (writes op ++ [FDelayTimer; FSoundTimer]) c c'.
Proof.
  intros H. apply emulateCycle_inv in H as (op & c1 & Hfetch & Hexec & ->).
  exists op. split; [done|]. intros fld Hfld.
  assert (same_field fld c c1) as H1.
  { apply (executeOpcode_writes c op rnd c1 err Hexec). not_in Hfld. }
  assert (same_field fld c1 (tick c1)) as H2.
  { apply tick_writes. not_in Hfld. }
  destruct fld; simpl in *; congruence.
Qed.

Lemma cycle_write_set_witness :
  let c := with_code init 0x200 [0x6A; 0x2B] in
  ∃ op, fetchOpcode c = Done op
        ∧ same_except (writes op ++ [FDelayTimer; FSoundTimer]) c
            (tick (advance (set_V c (<[10%nat := 0x2B]> (V c))) 2)).
Proof.
  intros c.
  apply (cycle_write_set c 0 (tick (advance (set_V c (<[10%nat := 0x2B]> (V c))) 2)) []).
  vm_compute. reflexivity.
Defined.

(** X3: no cycle writes the keypad: only setKeyState does. *)
Theorem engine_never_writes_keypad (c : Chip8) (rnd : Z) (c' : Chip8)
    (err : list string) :
  emulateCycle c rnd = Done (c', err) → keypad c' = keypad c.
Proof.
  intros H. apply emulateCycle_inv in H as (op & c1 & _ & Hexec & ->).
  transitivity (keypad c1).
  - apply (tick_writes c1 FKeypad). rewrite !elem_of_cons, elem_of_nil.
    intuition discriminate.
  - apply (executeOpcode_writes c op rnd c1 err Hexec FKeypad).
    intros Hin. exact (writes_cases op FKeypad Hin).
Qed.

Lemma engine_never_writes_keypad_witness :
  let c := set_keypad waiting (<[7%nat := 1]> (keypad waiting)) in
  keypad (tick (advance (set_V c (<[3%nat := 7]> (V c))) 2)) = keypad c.
Proof.
  intros c.
  apply (engine_never_writes_keypad c 0 _ []).
  vm_compute. reflexivity.
Defined.

(** X4: memory is written by Fx33 and Fx55 only: a completed cycle on any
    other instruction leaves all 4096 bytes, font and program included, as
    they were. *)
Theorem memory_written_only_by_Fx33_Fx55 (c : Chip8) (rnd op : Z) (c' : Chip8)
    (err : list string) :
  fetchOpcode c = Done op →
  ¬ (Z.land op 0xF000 = 0xF000
     ∧ (Z.land op 0x00FF = 0x33 ∨ Z.land op 0x00FF = 0x55)) →
  emulateCycle c rnd = Done (c', err) → memory c' = memory c.
Proof.
  intros Hfetch Hop H.
  apply emulateCycle_inv in H as (op' & c1 & Hfetch' & Hexec & ->).
  assert (op' = op) as -> by congruence.
  rewrite tick_memory.
  apply (executeOpcode_writes c op rnd c1 err Hexec FMemory).
  intros Hin. exact (Hop (writes_cases op FMemory Hin)).
Qed.

Lemma memory_written_only_by_Fx33_Fx55_witness :
  let c := with_code glyph_at_edge 0x200 [0x8F; 0x00] in
  memory (tick (advance (set_V c (<[15%nat := 62]> (V c))) 2)) = memory c.
Proof.
  intros c.
  apply (memory_written_only_by_Fx33_Fx55 c 0 0x8F00 _ []).
  - vm_compute. reflexivity.
  - vm_compute. intros [Hfam _]. discriminate.
  - vm_compute. reflexivity.
Defined.

Lemma executeOpcode_raises_flag (c : Chip8) (op rnd : Z) (c' : Chip8)
    (err : list string) :
  op = 0x00E0 ∨ Z.land op 0xF000 = 0xD000 →
  executeOpcode c op rnd = Done (c', err) → drawFlag c' = true.
Proof.
  intros [->|Hfam] H.
  - rewrite executeOpcode_0 in H by done. unfold exec_0 in H.
    change (0x00E0 =? 0x00E0) with true in H. cbv iota in H.
    by inversion H; subst.
  - rewrite executeOpcode_D in H by done. unfold exec_D in H.
    destruct (ld (V c) (Z.shiftr (Z.land op 0x0F00) 8)) as [vx| |]; try done.
    simpl in H.
    destruct (ld (V c) (Z.shiftr (Z.land op 0x00F0) 4)) as [vy| |]; try done.
    simpl in H.
    destruct (st (V c) 15 0) as [V1| |]; try done. simpl in H.
    destruct (for_loop _ _ _ _) as [c1| |]; try done. simpl in H.
    by inversion H; subst.
Qed.

(** X5: the framebuffer and the draw flag are written by 00E0 and Dxyn
    only, and these two raise the flag: a completed cycle on any other
    instruction leaves both as they were, and no cycle ever lowers a raised
    flag. *)
Theorem display_written_only_by_00E0_Dxyn (c : Chip8) (rnd op : Z) (c' : Chip8)
    (err : list string) :
  fetchOpcode c = Done op →
  emulateCycle c rnd = Done (c', err) →
  (op ≠ 0x00E0 → Z.land op 0xF000 ≠ 0xD000 →
   display c' = display c ∧ drawFlag c' = drawFlag c)
  ∧ (op = 0x00E0 ∨ Z.land op 0xF000 = 0xD000 → drawFlag c' = true)
  ∧ (drawFlag c = true → drawFlag c' = true).
Proof.
  intros Hfetch H.
  apply emulateCycle_inv in H as (op' & c1 & Hfetch' & Hexec & ->).
  assert (op' = op) as -> by congruence.
  assert (display (tick c1) = display c1 ∧ drawFlag (tick c1) = drawFlag c1)
    as [Hd Hf].
  { split; [apply (tick_writes c1 FDisplay)|apply (tick_writes c1 FDrawFlag)];
      rewrite !elem_of_cons, elem_of_nil; intuition discriminate. }
  rewrite Hd, Hf.
  assert (op ≠ 0x00E0 → Z.land op 0xF000 ≠ 0xD000 →
          display c1 = display c ∧ drawFlag c1 = drawFlag c) as Hkept.
  { intros Hclear Hdraw. split.
    - apply (executeOpcode_writes c op rnd c1 err Hexec FDisplay).
      intros Hin. destruct (writes_cases op FDisplay Hin); done.
    - apply (executeOpcode_writes c op rnd c1 err Hexec FDrawFlag).
      intros Hin. destruct (writes_cases op FDrawFlag Hin); done. }
  split; [exact Hkept|]. split.
  - intros Hop. by eapply executeOpcode_raises_flag.
  - intros Hup.
    destruct (decide (op = 0x00E0)) as [Hclear|Hclear];
      [eapply executeOpcode_raises_flag; [by left|done]|].
    destruct (decide (Z.land op 0xF000 = 0xD000)) as [Hdraw|Hdraw];
      [eapply executeOpcode_raises_flag; [by right|done]|].
    destruct (Hkept Hclear Hdraw) as [_ ->]. done.
Qed.

Lemma display_written_only_by_00E0_Dxyn_witness :
  let c := with_code glyph_at_edge 0x200 [0xD0; 0x15] in
  ∃ c', emulateCycle c 0 = Done (c', []) ∧ drawFlag c' = true.
Proof.
  intros c.
  destruct (emulateCycle c 0) as [[c' err]| |] eqn:Hrun.
  - assert (err = []) as ->.
    { assert (match emulateCycle c 0 with Done r => r.2 | _ => [] end = [])
        as Herr by (vm_compute; reflexivity).
      by rewrite Hrun in Herr. }
    exists c'. split; [done|].
    destruct (display_written_only_by_00E0_Dxyn c 0 0xD015 c' [])
      as (_ & Hraise & _); [vm_compute; reflexivity|done|].
    apply Hraise. right. reflexivity.
  - assert (match emulateCycle c 0 with Done _ => true | _ => false end = true)
      as Hok by (vm_compute; reflexivity).
    rewrite Hrun in Hok. discriminate Hok.
  - assert (match emulateCycle c 0 with Done _ => true | _ => false end = true)
      as Hok by (vm_compute; reflexivity).
    rewrite Hrun in Hok. discriminate Hok.
Defined.

(** X6: every completed cycle counts both timers down by one, stopping at
    zero; a cycle that executes Fx15 (Fx18) first loads the delay (sound)
    timer from Vx, so it ends at Vx - 1, or 0 for Vx = 0. *)
Theorem timers_count_down_every_cycle (c : Chip8) (rnd op : Z) (c' : Chip8)
    (err : list string) :
  wf c →
  fetchOpcode c = Done op →
  emulateCycle c rnd = Done (c', err) →
  let x := Z.shiftr (Z.land op 0x0F00) 8 in
  let Fx nn := Z.land op 0xF000 = 0xF000 ∧ Z.land op 0x00FF = nn in
  (¬ Fx 0x15 → delayTimer c' = Z.max 0 (delayTimer c - 1))
  ∧ (Fx 0x15 → delayTimer c' = Z.max 0 (reg c x - 1))
  ∧ (¬ Fx 0x18 → soundTimer c' = Z.max 0 (soundTimer c - 1))
  ∧ (Fx 0x18 → soundTimer c' = Z.max 0 (reg c x - 1)).
Proof.
  intros Hc Hfetch H x Fx.
  apply emulateCycle_inv in H as (op' & c1 & Hfetch' & Hexec & ->).
  assert (op' = op) as -> by congruence.
  pose proof (executeOpcode_wf c op rnd c1 err Hc Hexec) as Hc1.
  rewrite tick_timers by apply Hc1.
  cbn [delayTimer soundTimer set_delayTimer set_soundTimer].
  assert (∀ nn, Fx nn → exec_F c op = Done (c1, err)) as HF.
  { intros nn [Hfam _]. by rewrite <- (executeOpcode_F c op rnd). }
  split; [|split; [|split]].
  - intros Hop. f_equal. f_equal.
    apply (executeOpcode_writes c op rnd c1 err Hexec FDelayTimer).
    intros Hin. exact (Hop (writes_cases op FDelayTimer Hin)).
  - intros Hop. pose proof (HF _ Hop) as Hrun. destruct Hop as [_ Hnn].
    unfold exec_F in Hrun. rewrite Hnn in Hrun.
    change (0x15 =? 0x07) with false in Hrun.
    change (0x15 =? 0x0A) with false in Hrun.
    change (0x15 =? 0x15) with true in Hrun. cbv iota in Hrun.
    destruct (ld (V c) (Z.shiftr (Z.land op 0x0F00) 8)) as [vx| |] eqn:Hvx;
      try done.
    apply ld_Done_inv in Hvx as [_ ->]. simpl in Hrun.
    by inversion Hrun; subst.
  - intros Hop. f_equal. f_equal.
    apply (executeOpcode_writes c op rnd c1 err Hexec FSoundTimer).
    intros Hin. exact (Hop (writes_cases op FSoundTimer Hin)).
  - intros Hop. pose proof (HF _ Hop) as Hrun. destruct Hop as [_ Hnn].
    unfold exec_F in Hrun. rewrite Hnn in Hrun.
    change (0x18 =? 0x07) with false in Hrun.
    change (0x18 =? 0x0A) with false in Hrun.
    change (0x18 =? 0x15) with false in Hrun.
    change (0x18 =? 0x18) with true in Hrun. cbv iota in Hrun.
    destruct (ld (V c) (Z.shiftr (Z.land op 0x0F00) 8)) as [vx| |] eqn:Hvx;
      try done.
    apply ld_Done_inv in Hvx as [_ ->]. simpl in Hrun.
    by inversion Hrun; subst.
Qed.

Lemma timers_count_down_every_cycle_witness :
  let c := with_regs (with_code init 0x200 [0xF4; 0x15]) [(4, 60)] in
  delayTimer (tick (advance (set_delayTimer c 60) 2)) = 59
  ∧ soundTimer (tick (advance (set_delayTimer c 60) 2)) = 0.
Proof.
  intros c.
  destruct (timers_count_down_every_cycle c 0 0xF415
              (tick (advance (set_delayTimer c 60) 2)) [])
    as (_ & Hdelay & Hsound & _).
  - apply wfb_wf. vm_compute. reflexivity.
  - vm_compute. reflexivity.
  - vm_compute. reflexivity.
  - split.
    + rewrite Hdelay; [vm_compute; reflexivity|]. split; reflexivity.
    + rewrite Hsound; [vm_compute; reflexivity|]. intros [_ Hnn]. discriminate.
Defined.

(** ** Call and return *)

(** X7: a call followed by a return continues right after the call: with
    room on the stack, 2nnn then 00EE leaves pc = pc + 2 and sp as before;
    the only trace is the return address left in the stack slot used. *)
Theorem call_then_return (c : Chip8) (nnn rnd : Z) :
  wf c → 0 <= nnn < 4096 → sp c < 16 →
  ∃ c1, executeOpcode c (0x2000 + nnn) rnd = Done (c1, [])
        ∧ pc c1 = nnn ∧ sp c1 = sp c + 1
        ∧ executeOpcode c1 0x00EE rnd
          = Done (set_pc (set_stack c (<[Z.to_nat (sp c) := pc c]> (stack c)))
                         (u16 (pc c + 2)), []).
Proof.
  intros Hc Hnnn Hroom.
  pose proof (wf_sp c Hc) as Hsp. pose proof (wf_pc c Hc) as Hpc.
  pose proof (wf_stack_len c Hc) as Hlen. unfold STACK_SIZE in Hlen.
  rewrite executeOpcode_2 by fields. rewrite exec_2_call by lia.
  replace (Z.land (0x2000 + nnn) 0x0FFF) with nnn by fields.
  replace (u16 (sp c + 1)) with (sp c + 1)
    by (unfold u16; by rewrite Z.mod_small by lia).
  eexists. split; [reflexivity|]. split; [done|]. split; [done|].
  rewrite executeOpcode_0 by done.
  rewrite exec_0_return by (cbn [sp stack set_pc set_sp set_stack];
                            rewrite ?length_insert; lia).
  cbn [sp stack set_pc set_sp set_stack].
  replace (sp c + 1 - 1) with (sp c) by lia.
  rewrite get_insert_eq by lia.
  by destruct c.
Qed.

Lemma call_then_return_witness :
  ∃ c1, executeOpcode init 0x2ABC 0 = Done (c1, [])
        ∧ pc c1 = 0xABC ∧ sp c1 = 1
        ∧ executeOpcode c1 0x00EE 0
          = Done (set_pc (set_stack init (<[0%nat := 0x200]> (stack init))) 0x202, []).
Proof.
  destruct (call_then_return init 0xABC 0) as (c1 & Hcall & Hpc & Hsp & Hret).
  - apply init_wf.
  - lia.
  - vm_compute. reflexivity.
  - exists c1. split; [exact Hcall|]. split; [exact Hpc|]. split; [exact Hsp|].
    exact Hret.
Defined.

(** ** Fx33 *)

Lemma exec_F_33 (c : Chip8) (op : Z) :
  Z.land op 0x00FF = 0x33 →
  exec_F c op =
    (value ← ld (V c) (Z.shiftr (Z.land op 0x0F00) 8);
     m1 ← st (memory c) (I c) (value / 100);
     m2 ← st m1 (I c + 1) ((value / 10) mod 10);
     m3 ← st m2 (I c + 2) (value mod 10);
     ok (advance (set_memory c m3) 2)).
Proof. intros H. unfold exec_F. by rewrite H. Qed.

(** X8: Fx33 stores the three decimal digits of Vx at memory[I..I+2],
    hundreds first: each is a digit, and together they give Vx back; the
    rest of memory is untouched.  With I + 2 > 4095 the stores leave
    memory. *)
Theorem op_Fx33_decimal_digits (c : Chip8) (x rnd : Z) :
  wf c → 0 <= x < 16 →
  (I c + 2 < 4096 →
   ∃ c', executeOpcode c (0xF033 + 0x100 * x) rnd = Done (c', [])
         ∧ 0 <= mem c' (I c) < 10
         ∧ 0 <= mem c' (I c + 1) < 10
         ∧ 0 <= mem c' (I c + 2) < 10
         ∧ 100 * mem c' (I c) + 10 * mem c' (I c + 1) + mem c' (I c + 2)
           = reg c x
         ∧ (∀ a, 0 <= a → ¬ (I c <= a <= I c + 2) → mem c' a = mem c a)
         ∧ c' = set_pc (set_memory c (memory c')) (u16 (pc c + 2)))
  ∧ (4096 <= I c + 2 →
     executeOpcode c (0xF033 + 0x100 * x) rnd = Undefined).
Proof.
  intros Hc Hx.
  pose proof (wf_I c Hc) as HI.
  pose proof (wf_memory_len c Hc) as Hml. unfold MEMORY_SIZE in Hml.
  pose proof (wf_reg_byte c x Hc Hx) as Hvx.
  rewrite executeOpcode_F by fields. rewrite exec_F_33 by fields.
  replace (Z.shiftr (Z.land (0xF033 + 0x100 * x) 0x0F00) 8) with x by fields.
  rewrite ld_get by (by apply wf_x_in_V). fold (reg c x).
  cbn [mbind outcome_bind]. split.
  - intros Hin.
    rewrite st_in by lia. cbn [mbind outcome_bind].
    rewrite st_in by (rewrite length_insert; lia). cbn [mbind outcome_bind].
    rewrite st_in by (rewrite !length_insert; lia). cbn [mbind outcome_bind].
    eexists. split; [reflexivity|].
    unfold mem. cbn [memory set_memory set_pc advance].
    rewrite get_insert_eq by (rewrite !length_insert; lia).
    rewrite (get_insert_ne _ (I c + 2) (I c + 1)) by lia.
    rewrite get_insert_eq by (rewrite !length_insert; lia).
    rewrite (get_insert_ne _ (I c + 2) (I c)) by lia.
    rewrite (get_insert_ne _ (I c + 1) (I c)) by lia.
    rewrite get_insert_eq by lia.
    repeat split; try (Z.div_mod_to_equations; lia).
    intros a Ha Hout. by rewrite !get_insert_ne by lia.
  - intros Hout.
    destruct (decide (I c < 4096)) as [H0|H0];
      [|by rewrite st_out by lia].
    rewrite st_in by lia. cbn [mbind outcome_bind].
    destruct (decide (I c + 1 < 4096)) as [H1|H1];
      [|by rewrite st_out by (rewrite length_insert; lia)].
    rewrite st_in by (rewrite length_insert; lia). cbn [mbind outcome_bind].
    by rewrite st_out by (rewrite !length_insert; lia).
Qed.

Lemma op_Fx33_decimal_digits_witness :
  let c := set_I (with_regs init [(3, 234)]) 0x400 in
  (∃ c', executeOpcode c 0xF333 0 = Done (c', [])
         ∧ map (mem c') [0x400; 0x401; 0x402] = [2; 3; 4])
  ∧ executeOpcode (set_I c 0xFFE) 0xF333 0 = Undefined.
Proof.
  intros c. split.
  - destruct (op_Fx33_decimal_digits c 3 0) as [Hin _].
    + apply wfb_wf. vm_compute. reflexivity.
    + lia.
    + destruct Hin as (c' & Hrun & _ & _ & _ & _ & _ & Hc'); [vm_compute; reflexivity|].
      exists c'. split; [exact Hrun|].
      assert (match executeOpcode c 0xF333 0 with
              | Done r => map (mem r.1) [0x400; 0x401; 0x402]
              | _ => []
              end = [2; 3; 4]) as Hdigits by (vm_compute; reflexivity).
      change (executeOpcode c (0xF033 + 0x100 * 3) 0) with (executeOpcode c 0xF333 0) in Hrun.
      by rewrite Hrun in Hdigits.
  - destruct (op_Fx33_decimal_digits (set_I c 0xFFE) 3 0) as [_ Hout].
    + apply wfb_wf. vm_compute. reflexivity.
    + lia.
    + apply Hout. vm_compute. discriminate.
Defined.

(** ** Storing and reloading the registers *)

Lemma get_ext (a b : list Z) :
  length a = length b →
  (∀ i, 0 <= i < Z.of_nat (length a) → get a i = get b i) →
  a = b.
Proof.
  intros Hlen Hget. apply list_eq. intros k.
  destruct (decide (k < length a)%nat) as [Hk|Hk].
  - destruct (lookup_lt_is_Some_2 a k Hk) as [va Hva].
    destruct (lookup_lt_is_Some_2 b k) as [vb Hvb]; [lia|].
    specialize (Hget (Z.of_nat k) ltac:(lia)). unfold get in Hget.
    rewrite Nat2Z.id, Hva, Hvb in Hget. simpl in Hget. congruence.
  - rewrite !lookup_ge_None_2 by lia. done.
Qed.

(** X9: Fx55 followed by Fx65 gives every register its value back: with
    the block I..I+x inside memory, both complete, the registers and I are
    as before, and memory[I..I+x] holds V0..Vx. *)
Theorem store_then_load_registers (c : Chip8) (x rnd : Z) :
  wf c → 0 <= x < 16 → I c + x < 4096 →
  ∃ c1 c2, executeOpcode c (0xF055 + 0x100 * x) rnd = Done (c1, [])
           ∧ executeOpcode c1 (0xF065 + 0x100 * x) rnd = Done (c2, [])
           ∧ V c2 = V c ∧ I c2 = I c
           ∧ memory c2 = memory c1
           ∧ (∀ i, 0 <= i <= x → mem c2 (I c + i) = reg c i)
           ∧ pc c2 = u16 (u16 (pc c + 2) + 2).
Proof.
  intros Hc Hx HI.
  pose proof (wf_V_len c Hc) as Hvl. unfold REGISTER_COUNT in Hvl.
  destruct (store_regs c x Hc Hx HI) as (m & Hstore & Hmlen & Hcopy & _).
  assert (executeOpcode c (0xF055 + 0x100 * x) rnd
          = Done (advance (set_memory c m) 2, [])) as H55.
  { rewrite executeOpcode_F by fields. rewrite exec_F_55 by fields.
    replace (Z.shiftr (Z.land (0xF055 + 0x100 * x) 0x0F00) 8) with x by fields.
    by rewrite Hstore. }
  pose proof (executeOpcode_wf _ _ _ _ _ Hc H55) as Hc1.
  destruct (load_regs (advance (set_memory c m) 2) x Hc1 Hx HI)
    as (v & Hload & Hvlen & Hback & Hrest).
  cbn [V I memory advance set_pc set_memory] in Hvlen, Hback, Hrest.
  assert (v = V c) as ->.
  { apply get_ext; [done|]. intros i Hi.
    destruct (decide (i <= x)) as [Hle|Hgt].
    - rewrite Hback by lia. unfold mem. cbn [memory advance set_pc set_memory].
      apply Hcopy. lia.
    - rewrite Hrest by lia. done. }
  exists (advance (set_memory c m) 2),
         (advance (set_V (advance (set_memory c m) 2) (V c)) 2).
  split; [exact H55|]. split.
  - rewrite executeOpcode_F by fields. rewrite exec_F_65 by fields.
    replace (Z.shiftr (Z.land (0xF065 + 0x100 * x) 0x0F00) 8) with x by fields.
    by rewrite Hload.
  - repeat split; try done; intros i Hi; by apply Hcopy.
Qed.

Lemma store_then_load_registers_witness :
  let c := set_I (with_regs init [(0, 0x11); (1, 0x22); (2, 0x33)]) 0x300 in
  ∃ c1 c2, executeOpcode c 0xF255 0 = Done (c1, [])
           ∧ executeOpcode c1 0xF265 0 = Done (c2, [])
           ∧ V c2 = V c ∧ mem c2 0x302 = 0x33.
Proof.
  intros c.
  destruct (store_then_load_registers c 2 0)
    as (c1 & c2 & H1 & H2 & HV & _ & _ & Hmem & _).
  - apply wfb_wf. vm_compute. reflexivity.
  - lia.
  - vm_compute. reflexivity.
  - exists c1, c2. split; [exact H1|]. split; [exact H2|]. split; [exact HV|].
    apply (Hmem 2). lia.
Defined.

(** ** Keys *)

Lemma setKeyState_key (c : Chip8) (k : Z) (pressed : bool) :
  wf c → 0 <= k < 16 →
  setKeyState c k pressed
  = Done (set_keypad c (<[Z.to_nat k := if pressed then 1 else 0]> (keypad c))).
Proof.
  intros Hc Hk. pose proof (wf_keypad_len c Hc) as Hkl.
  unfold KEYPAD_SIZE in Hkl. unfold setKeyState, KEYPAD_SIZE.
  destruct (Z.ltb_spec k 16); [|lia].
  by rewrite st_in by lia.
Qed.

(** X10: setKeyState changes the one key it names and nothing else, and
    ignores a key number of 16 or more. *)
Theorem setKeyState_sets_one_key (c : Chip8) (k : Z) (pressed : bool) :
  wf c → 0 <= k < 256 →
  (k < 16 →
   ∃ c', setKeyState c k pressed = Done c'
         ∧ key c' k = (if pressed then 1 else 0)
         ∧ (∀ j, 0 <= j → j ≠ k → key c' j = key c j)
         ∧ c' = set_keypad c (keypad c'))
  ∧ (16 <= k → setKeyState c k pressed = Done c).
Proof.
  intros Hc Hk. pose proof (wf_keypad_len c Hc) as Hkl.
  unfold KEYPAD_SIZE in Hkl. split.
  - intros Hin. rewrite setKeyState_key by (done || lia).
    eexists. split; [reflexivity|]. unfold key. cbn [keypad set_keypad].
    split; [by rewrite get_insert_eq by lia|]. split; [|done].
    intros j Hj Hne. by rewrite get_insert_ne by lia.
  - intros Hout. unfold setKeyState, KEYPAD_SIZE.
    by destruct (Z.ltb_spec k 16); [lia|].
Qed.

Lemma setKeyState_sets_one_key_witness :
  (∃ c', setKeyState init 5 true = Done c' ∧ key c' 5 = 1)
  ∧ setKeyState init 16 true = Done init.
Proof.
  split.
  - destruct (setKeyState_sets_one_key init 5 true) as [Hin _];
      [apply init_wf|lia|].
    destruct Hin as (c' & Hrun & Hkey & _); [lia|].
    exists c'. split; [exact Hrun|exact Hkey].
  - destruct (setKeyState_sets_one_key init 16 true) as [_ Hout];
      [apply init_wf|lia|].
    apply Hout. lia.
Defined.

(** X11: the switch of main maps the sixteen key symbols it handles one to
    one onto the sixteen keypad indices 0x0..0xF, so a key event never
    reaches the guard of setKeyState and always completes; any other symbol
    leaves the machine alone. *)
Theorem keymap_one_to_one_onto_keypad :
  (∀ s1 s2 k, keymap s1 = Some k → keymap s2 = Some k → s1 = s2)
  ∧ (∀ k, 0 <= k < 16 → ∃ s, keymap s = Some k)
  ∧ (∀ s k, keymap s = Some k → 0 <= k < 16)
  ∧ (∀ c s pressed k, wf c → keymap s = Some k →
       key_event c s pressed
       = Done (set_keypad c (<[Z.to_nat k := if pressed then 1 else 0]> (keypad c))))
  ∧ (∀ c pressed, key_event c SDLK_other pressed = Done c).
Proof.
  assert (∀ s k, keymap s = Some k → 0 <= k < 16) as Hrange.
  { intros s k. destruct s; simpl; intros H; inversion H; lia. }
  split; [|split; [|split; [exact Hrange|split]]].
  - intros s1 s2 k. destruct s1, s2; simpl; intros H1 H2; congruence.
  - intros k Hk.
    assert (k = 0 ∨ k = 1 ∨ k = 2 ∨ k = 3 ∨ k = 4 ∨ k = 5 ∨ k = 6 ∨ k = 7
            ∨ k = 8 ∨ k = 9 ∨ k = 10 ∨ k = 11 ∨ k = 12 ∨ k = 13 ∨ k = 14
            ∨ k = 15) as Hcases by lia.
    destruct Hcases
      as [->|[->|[->|[->|[->|[->|[->|[->|[->|[->|[->|[->|[->|[->|[->| ->]]]]]]]]]]]]]]].
    + by exists SDLK_x.
    + by exists SDLK_1.
    + by exists SDLK_2.
    + by exists SDLK_3.
    + by exists SDLK_q.
    + by exists SDLK_w.
    + by exists SDLK_e.
    + by exists SDLK_a.
    + by exists SDLK_s.
    + by exists SDLK_d.
    + by exists SDLK_z.
    + by exists SDLK_c.
    + by exists SDLK_4.
    + by exists SDLK_r.
    + by exists SDLK_f.
    + by exists SDLK_v.
  - intros c s pressed k Hc Hs. unfold key_event. rewrite Hs.
    apply setKeyState_key; [done|by eapply Hrange].
  - done.
Qed.

Lemma keymap_one_to_one_onto_keypad_witness :
  key_event init SDLK_4 true
  = Done (set_keypad init (<[12%nat := 1]> (keypad init))).
Proof.
  destruct keymap_one_to_one_onto_keypad as (_ & _ & _ & Hevent & _).
  apply (Hevent init SDLK_4 true 0xC); [apply init_wf|reflexivity].
Defined.

Lemma exec_E_9E (c : Chip8) (op : Z) :
  Z.land op 0x00FF = 0x9E →
  exec_E c op =
    (vx ← ld (V c) (Z.shiftr (Z.land op 0x0F00) 8);
     k ← ld (keypad c) vx;
     skip_if c (negb (k =? 0))).
Proof. intros H. unfold exec_E. by rewrite H. Qed.

Lemma exec_E_A1 (c : Chip8) (op : Z) :
  Z.land op 0x00FF = 0xA1 →
  exec_E c op =
    (vx ← ld (V c) (Z.shiftr (Z.land op 0x0F00) 8);
     k ← ld (keypad c) vx;
     skip_if c (k =? 0)).
Proof. intros H. unfold exec_E. by rewrite H. Qed.

(** X12: with Vx a key number below 16, Ex9E skips the next instruction
    exactly when key Vx is pressed and ExA1 exactly when it is not, so one
    of the two always skips; with Vx >= 16 both index the keypad out of
    range. *)
Theorem op_Ex9E_ExA1_skip_on_key (c : Chip8) (x rnd : Z) :
  wf c → 0 <= x < 16 →
  (reg c x < 16 →
   executeOpcode c (0xE09E + 0x100 * x) rnd
   = Done (set_pc c (u16 (pc c + (if key c (reg c x) =? 0 then 2 else 4))), [])
   ∧ executeOpcode c (0xE0A1 + 0x100 * x) rnd
     = Done (set_pc c (u16 (pc c + (if key c (reg c x) =? 0 then 4 else 2))), []))
  ∧ (16 <= reg c x →
     executeOpcode c (0xE09E + 0x100 * x) rnd = Undefined
     ∧ executeOpcode c (0xE0A1 + 0x100 * x) rnd = Undefined).
Proof.
  intros Hc Hx.
  pose proof (wf_reg_byte c x Hc Hx) as Hvx.
  pose proof (wf_keypad_len c Hc) as Hkl. unfold KEYPAD_SIZE in Hkl.
  rewrite !executeOpcode_E by fields.
  rewrite exec_E_9E, exec_E_A1 by fields.
  replace (Z.shiftr (Z.land (0xE09E + 0x100 * x) 0x0F00) 8) with x by fields.
  replace (Z.shiftr (Z.land (0xE0A1 + 0x100 * x) 0x0F00) 8) with x by fields.
  rewrite !ld_get by (by apply wf_x_in_V). fold (reg c x).
  cbn [mbind outcome_bind]. split.
  - intros Hin. rewrite !ld_get by lia. fold (key c (reg c x)).
    cbn [mbind outcome_bind]. unfold skip_if.
    by destruct (key c (reg c x) =? 0).
  - intros Hout. by rewrite !ld_out by lia.
Qed.

Lemma op_Ex9E_ExA1_skip_on_key_witness :
  let c := set_keypad (with_regs init [(2, 7); (3, 200)]) (<[7%nat := 1]> (keypad init)) in
  executeOpcode c 0xE29E 0 = Done (set_pc c 0x204, [])
  ∧ executeOpcode c 0xE2A1 0 = Done (set_pc c 0x202, [])
  ∧ executeOpcode c 0xE39E 0 = Undefined.
Proof.
  intros c.
  assert (wf c) as Hc by (apply wfb_wf; vm_compute; reflexivity).
  destruct (op_Ex9E_ExA1_skip_on_key c 2 0 Hc) as [Hin _]; [lia|].
  destruct Hin as [H9E HA1]; [vm_compute; reflexivity|].
  destruct (op_Ex9E_ExA1_skip_on_key c 3 0 Hc) as [_ Hout]; [lia|].
  destruct Hout as [Hundef _]; [vm_compute; discriminate|].
  split; [exact H9E|]. split; [exact HA1|exact Hundef].
Defined.

(** ** Drawing a sprite twice *)

(** What Dxyn returns, in terms of the loop invariant at the end of the
    loops. *)
Lemma exec_D_drawn (c : Chip8) (xi yi n rnd : Z) :
  wf c → 0 <= xi < 16 → 0 <= yi < 16 → 0 <= n < 16 →
  let x := reg c xi mod 64 in
  let y := reg c yi mod 32 in
  I c + n <= 4096 →
  (∀ r col, 0 <= r < n → 0 <= col < 8 → lit c r col = true →
            cell x y r col < 2048) →
  ∃ d vf,
    executeOpcode c (0xD000 + 0x100 * xi + 0x10 * yi + n) rnd
    = Done (set_pc (set_drawFlag
                      (set_display (set_V c (<[15%nat := vf]> (V c))) d) true)
                   (u16 (pc c + 2)), [])
    ∧ drawn c x y n 0 (set_display (set_V c (<[15%nat := vf]> (V c))) d).
Proof.
  intros Hc Hxi Hyi Hn x y HI Hcells.
  pose proof (wf_reg_byte c xi Hc Hxi) as Hvx.
  pose proof (wf_reg_byte c yi Hc Hyi) as Hvy.
  pose proof (wf_x_in_V c 0xF Hc ltac:(lia)) as HlF.
  assert (0 <= x < 64) as Hx by (apply Z.mod_pos_bound; lia).
  assert (0 <= y < 32) as Hy by (apply Z.mod_pos_bound; lia).
  rewrite executeOpcode_D by fields. unfold exec_D.
  replace (Z.shiftr (Z.land (0xD000 + 0x100 * xi + 0x10 * yi + n) 0x0F00) 8)
    with xi by fields.
  replace (Z.shiftr (Z.land (0xD000 + 0x100 * xi + 0x10 * yi + n) 0x00F0) 4)
    with yi by fields.
  replace (Z.land (0xD000 + 0x100 * xi + 0x10 * yi + n) 0x000F) with n by fields.
  rewrite !ld_get by (by apply wf_x_in_V).
  cbn [mbind outcome_bind]. rewrite st_in by done. cbn [mbind outcome_bind].
  fold (reg c xi) (reg c yi). unfold DISPLAY_WIDTH at 1, DISPLAY_HEIGHT at 1.
  fold x y.
  destruct (draw_rows c x y n Hc ltac:(lia) ltac:(lia) HI Hcells
              (set_V c (<[Z.to_nat 0xF := 0]> (V c))))
    as (s' & Hrun & Hs'); [lia| |].
  { exists (display c), 0. split; [done|]. split; [done|].
    split; [|split].
    - intros r' col' (H1 & H2 & H3 & H4). lia.
    - done.
    - right. split; [done|]. intros r' col' (H1 & H2 & H3 & H4). lia. }
  rewrite Hrun. cbn [mbind outcome_bind].
  pose proof Hs' as (d & vf & -> & _).
  by exists d, vf.
Qed.

Lemma bounded_search (P : Z → Prop) :
  (∀ z, P z ∨ ¬ P z) →
  ∀ k : nat, (∃ z, 0 <= z < Z.of_nat k ∧ P z)
             ∨ (∀ z, 0 <= z < Z.of_nat k → ¬ P z).
Proof.
  intros Hdec. induction k as [|k [(z & Hz & HP)|IH]].
  - right. intros z Hz. lia.
  - left. exists z. split; [lia|done].
  - destruct (Hdec (Z.of_nat k)) as [HP|HP].
    + left. exists (Z.of_nat k). split; [lia|done].
    + right. intros z Hz. destruct (decide (z = Z.of_nat k)) as [->|Hne];
        [done|apply IH; lia].
Qed.

(** A framebuffer index is the cell of some set sprite bit, or of none. *)
Lemma hit_or_miss (c : Chip8) (x y n i : Z) :
  (∃ r col, before c n 0 r col ∧ i = cell x y r col)
  ∨ (∀ r col, before c n 0 r col → i ≠ cell x y r col).
Proof.
  destruct (bounded_search
              (λ r, ∃ col, 0 <= col < 8 ∧ lit c r col = true ∧ i = cell x y r col))
    with (k := Z.to_nat n) as [(r & Hr & col & Hcol & Hlit & Hi)|Hnone].
  - intros r.
    destruct (bounded_search (λ col, lit c r col = true ∧ i = cell x y r col))
      with (k := 8%nat) as [(col & Hcol & Hlit & Hi)|Hnone].
    + intros col. destruct (lit c r col); [|right; intros [? _]; done].
      destruct (decide (i = cell x y r col)); [by left|right; intros [_ ?]; done].
    + left. exists col. split; [lia|done].
    + right. intros (col & Hcol & Hhit). apply (Hnone col); [lia|done].
  - left. exists r, col. split; [|done]. repeat split; auto; lia.
  - right. intros r col (Hr & Hcol & Hrow & Hlit) Hi.
    apply (Hnone r); [lia|]. exists col. done.
Qed.

Lemma lxor_1_twice (p : Z) : Z.lxor (Z.lxor p 1) 1 = p.
Proof. by rewrite Z.lxor_assoc, Z.lxor_nilpotent, Z.lxor_0_r. Qed.

Lemma lxor_1_is_1 (p : Z) : Z.lxor p 1 = 1 ↔ p = 0.
Proof.
  split; [|by intros ->].
  intros H. rewrite <- (lxor_1_twice p), H. reflexivity.
Qed.

(** X13: drawing the same sprite twice at the same place restores the
    framebuffer.  With the operand registers other than VF and every set
    bit inside the framebuffer, both Dxyn complete, the display is as
    before the first one, the other registers are untouched, and VF after
    the second is 1 exactly when some set bit landed on a cell that held 0
    before the first. *)
Theorem draw_twice_restores_display (c : Chip8) (xi yi n rnd : Z) :
  wf c → 0 <= xi < 15 → 0 <= yi < 15 → 0 <= n < 16 →
  let x := reg c xi mod 64 in
  let y := reg c yi mod 32 in
  let op := 0xD000 + 0x100 * xi + 0x10 * yi + n in
  I c + n <= 4096 →
  (∀ r col, 0 <= r < n → 0 <= col < 8 → lit c r col = true →
            cell x y r col < 2048) →
  ∃ c1 c2,
    executeOpcode c op rnd = Done (c1, [])
    ∧ executeOpcode c1 op rnd = Done (c2, [])
    ∧ display c2 = display c
    ∧ memory c2 = memory c
    ∧ pc c2 = u16 (u16 (pc c + 2) + 2)
    ∧ (∀ j, 0 <= j < 15 → reg c2 j = reg c j)
    ∧ ((∃ r col, 0 <= r < n ∧ 0 <= col < 8 ∧ lit c r col = true
                 ∧ pixel c (cell x y r col) = 0) → reg c2 0xF = 1)
    ∧ ((∀ r col, 0 <= r < n → 0 <= col < 8 → lit c r col = true →
                 pixel c (cell x y r col) ≠ 0) → reg c2 0xF = 0).
Proof.
  intros Hc Hxi Hyi Hn x y op HI Hcells. subst op.
  pose proof (wf_V_len c Hc) as Hvl. unfold REGISTER_COUNT in Hvl.
  destruct (exec_D_drawn c xi yi n rnd Hc ltac:(lia) ltac:(lia) Hn HI Hcells)
    as (d & vf & Hrun1 & d' & vf' & Heq & Hlen & Hdrawn & Hrest & _).
  fold x y in Hdrawn, Hrest.
  assert (d' = d) as -> by (by inversion Heq). clear Heq vf'.
  set (c1 := set_pc (set_drawFlag
                       (set_display (set_V c (<[15%nat := vf]> (V c))) d) true)
                    (u16 (pc c + 2))) in *.
  pose proof (executeOpcode_wf _ _ _ _ _ Hc Hrun1) as Hc1.
  assert (∀ j, 0 <= j < 15 → reg c1 j = reg c j) as Hregs.
  { intros j Hj. unfold reg, c1. cbn [V set_pc set_drawFlag set_display set_V].
    change 15%nat with (Z.to_nat 15). by rewrite get_insert_ne by lia. }
  assert (∀ r col, lit c1 r col = lit c r col) as Hlit by done.
  assert (∀ r col, before c1 n 0 r col ↔ before c n 0 r col) as Hbefore by done.
  destruct (exec_D_drawn c1 xi yi n rnd Hc1 ltac:(lia) ltac:(lia) Hn)
    as (d2 & vf2 & Hrun2 & d2' & vf2' & Heq & Hlen2 & Hdrawn2 & Hrest2 & Hflag2).
  { done. }
  { rewrite !Hregs by lia. intros r col Hr Hcol. rewrite Hlit.
    by apply Hcells. }
  rewrite !Hregs in Hdrawn2, Hrest2, Hflag2 by lia. fold x y in Hdrawn2, Hrest2, Hflag2.
  assert (d2' = d2) as -> by (by inversion Heq).
  assert (vf2' = vf2) as ->.
  { assert (<[15%nat := vf2']> (V c1) = <[15%nat := vf2]> (V c1)) as HV
      by (by inversion Heq).
    apply (f_equal (λ v, get v 15)) in HV. cbv beta in HV.
    change 15%nat with (Z.to_nat 15) in HV.
    rewrite !get_insert_eq in HV; [done| |];
      rewrite (wf_V_len c1 Hc1); unfold REGISTER_COUNT; lia. }
  clear Heq.
  assert (∀ i, pixel c1 i = get d i) as Hpix by done.
  assert (d2 = display c) as Hrestored.
  { apply get_ext; [by rewrite Hlen2|]. intros i Hi.
    destruct (hit_or_miss c x y n i) as [(r & col & Hb & ->)|Hmiss].
    - rewrite Hdrawn2 by (by apply Hbefore).
      rewrite Hpix, Hdrawn by done. apply lxor_1_twice.
    - rewrite Hrest2; [|lia|intros r col Hb; by apply Hmiss, Hbefore].
      rewrite Hpix. apply Hrest; [lia|done]. }
  exists c1, (set_pc (set_drawFlag
                        (set_display (set_V c1 (<[15%nat := vf2]> (V c1))) d2) true)
                     (u16 (pc c1 + 2))).
  split; [exact Hrun1|]. split; [exact Hrun2|].
  unfold c1. cbn [display memory pc V set_pc set_drawFlag set_display set_V].
  split; [exact Hrestored|]. split; [done|]. split; [done|].
  unfold reg. cbn [V set_pc set_drawFlag set_display set_V].
  rewrite list_insert_insert_eq. change 15%nat with (Z.to_nat 15).
  split; [|split].
  - intros j Hj. by rewrite get_insert_ne by lia.
  - intros (r & col & Hr & Hcol & Hl & Hzero).
    rewrite get_insert_eq by lia.
    destruct Hflag2 as [[-> _]|[_ Hnone]]; [done|]. exfalso.
    apply (Hnone r col); [apply Hbefore; repeat split; auto; lia|].
    rewrite Hpix, Hdrawn by (repeat split; auto; lia).
    by apply lxor_1_is_1.
  - intros Hnone. rewrite get_insert_eq by lia.
    destruct Hflag2 as [[_ (r & col & Hb & Hone)]|[-> _]]; [|done]. exfalso.
    apply Hbefore in Hb. rewrite Hpix, Hdrawn in Hone by done.
    apply lxor_1_is_1 in Hone.
    destruct Hb as (Hr & Hcol & Hrow & Hl).
    apply (Hnone r col); auto; lia.
Qed.

Lemma draw_twice_restores_display_witness :
  ∃ c1 c2, executeOpcode glyph_at_edge 0xD015 0 = Done (c1, [])
           ∧ executeOpcode c1 0xD015 0 = Done (c2, [])
           ∧ display c2 = display glyph_at_edge
           ∧ reg c2 0xF = 1.
Proof.
  assert (reg glyph_at_edge 0 mod 64 = 62) as Hx by (vm_compute; reflexivity).
  assert (reg glyph_at_edge 1 mod 32 = 3) as Hy by (vm_compute; reflexivity).
  destruct (draw_twice_restores_display glyph_at_edge 0 1 5 0)
    as (c1 & c2 & H1 & H2 & Hdisp & _ & _ & _ & Hflag & _).
  - apply wfb_wf. vm_compute. reflexivity.
  - lia.
  - lia.
  - lia.
  - vm_compute. discriminate.
  - intros r col Hr Hcol _. rewrite Hx, Hy. unfold cell, DISPLAY_WIDTH. lia.
  - exists c1, c2. split; [exact H1|]. split; [exact H2|]. split; [exact Hdisp|].
    apply Hflag. exists 0, 0. split; [lia|]. split; [lia|].
    split; vm_compute; reflexivity.
Defined.

(** ** The loop of main *)

(** X14: main renders in the same iteration in which a cycle raises the
    draw flag, so after every completed iteration the flag is down. *)
Theorem main_loop_consumes_draw_flag (n : nat) (c c' : Chip8) :
  main_loop (S n) c = Done c' → drawFlag c' = false.
Proof.
  revert c. induction n as [|n IH]; intros c H.
  - simpl in H. destruct (emulateCycle c 0) as [[c1 e1]| |]; try done.
    simpl in H. inversion H; subst.
    by destruct (drawFlag c1) eqn:Hflag.
  - change (main_loop (S (S n)) c)
      with (r ← emulateCycle c 0;
            main_loop (S n) (if drawFlag r.1 then renderDisplay r.1 else r.1)) in H.
    destruct (emulateCycle c 0) as [[c1 e1]| |]; try done.
    cbn [mbind outcome_bind] in H. by eapply IH.
Qed.

Lemma main_loop_consumes_draw_flag_witness :
  ∃ c', main_loop 1 (with_code glyph_at_edge 0x200 [0xD0; 0x15]) = Done c'
        ∧ drawFlag c' = false ∧ pixel c' (3 * 64 + 62) = 1.
Proof.
  destruct (main_loop 1 (with_code glyph_at_edge 0x200 [0xD0; 0x15]))
    as [c'| |] eqn:Hrun.
  - exists c'. split; [done|]. split.
    + exact (main_loop_consumes_draw_flag 0 _ c' Hrun).
    + assert (match main_loop 1 (with_code glyph_at_edge 0x200 [0xD0; 0x15]) with
              | Done r => pixel r (3 * 64 + 62)
              | _ => 0
              end = 1) as Hpix by (vm_compute; reflexivity).
      by rewrite Hrun in Hpix.
  - assert (match main_loop 1 (with_code glyph_at_edge 0x200 [0xD0; 0x15]) with
            | Done _ => true
            | _ => false
            end = true) as Hok by (vm_compute; reflexivity).
    rewrite Hrun in Hok. discriminate Hok.
  - assert (match main_loop 1 (with_code glyph_at_edge 0x200 [0xD0; 0x15]) with
            | Done _ => true
            | _ => false
            end = true) as Hok by (vm_compute; reflexivity).
    rewrite Hrun in Hok. discriminate Hok.
Defined.

Lemma tick_unrecognized (c : Chip8) (op : Z) :
  fetchOpcode c = Done op → recognized op = false →
  emulateCycle c 0 = Done (tick c, unknown_report op).
Proof.
  intros Hfetch Hrec. unfold emulateCycle. rewrite Hfetch. simpl.
  by rewrite executeOpcode_unrecognized.
Qed.

Lemma tick_drawFlag (c : Chip8) : drawFlag (tick c) = drawFlag c.
Proof. unfold tick. by repeat case_match. Qed.

(** X15: a machine whose pc is on an unrecognized opcode never leaves it:
    however many iterations main runs, each one completes, pc and
    everything but the timers and a consumed draw flag stay, and the
    timers have counted down by the number of iterations, stopping at 0. *)
Theorem stalled_on_unrecognized_opcode (n : nat) (c : Chip8) (op : Z) :
  wf c → fetchOpcode c = Done op → recognized op = false →
  drawFlag c = false →
  main_loop n c
  = Done (set_soundTimer
            (set_delayTimer c (Z.max 0 (delayTimer c - Z.of_nat n)))
            (Z.max 0 (soundTimer c - Z.of_nat n))).
Proof.
  revert c. induction n as [|n IH]; intros c Hc Hfetch Hrec Hflag.
  - pose proof (wf_delayTimer c Hc). pose proof (wf_soundTimer c Hc).
    simpl. f_equal. destruct c as [m v i p s q d k dt stm f]. simpl in *.
    unfold set_soundTimer, set_delayTimer. simpl. f_equal; lia.
  - change (main_loop (S n) c)
      with (r ← emulateCycle c 0;
            main_loop n (if drawFlag r.1 then renderDisplay r.1 else r.1)).
    rewrite (tick_unrecognized c op) by done. cbn [mbind outcome_bind fst].
    rewrite tick_drawFlag, Hflag.
    rewrite IH; [|by apply wf_tick|by rewrite tick_fetchOpcode|done
                 |by rewrite tick_drawFlag].
    rewrite tick_timers by apply Hc.
    pose proof (wf_delayTimer c Hc). pose proof (wf_soundTimer c Hc).
    unfold set_soundTimer, set_delayTimer. simpl. do 2 f_equal; lia.
Qed.

Lemma stalled_on_unrecognized_opcode_witness :
  main_loop 100 (set_delayTimer init 60)
  = Done (set_soundTimer (set_delayTimer (set_delayTimer init 60) 0) 0).
Proof.
  apply (stalled_on_unrecognized_opcode 100 (set_delayTimer init 60) 0x0000).
  - apply wfb_wf. vm_compute. reflexivity.
  - vm_compute. reflexivity.
  - reflexivity.
  - reflexivity.
Defined.

(** ** Loading a program and fetching from it *)

(** X16: a ROM of at most 4096 - 0x200 bytes is copied to 0x200 and up
    and nothing else changes: memory keeps its size, every byte outside
    the ROM's range, below 0x200 (the font included) as well as above the
    last ROM byte, is as before, and so is every other field of the
    machine; with pc at 0x200 the next fetch yields the first two ROM
    bytes, high byte first.  An empty ROM, like a file that cannot be
    opened, leaves the machine as it was. *)
Theorem loadROM_places_program (c : Chip8) (filename : string)
    (b0 b1 : Z) (rest : list Z) :
  wf c → bytes (b0 :: b1 :: rest) →
  Z.of_nat (length (b0 :: b1 :: rest)) <= 4096 - 0x200 →
  (∃ m, loadROM c filename (Some (b0 :: b1 :: rest)) = Done (set_memory c m, [])
        ∧ (∀ i, 0 <= i < Z.of_nat (length (b0 :: b1 :: rest)) →
                get m (0x200 + i) = get (b0 :: b1 :: rest) i)
        ∧ (∀ a, 0 <= a < 0x200 → get m a = mem c a)
        ∧ (pc c = 0x200 → fetchOpcode (set_memory c m) = Done (b0 * 256 + b1))
        ∧ length m = length (memory c)
        ∧ (∀ a, 0 <= a →
                ¬ (0x200 <= a < 0x200 + Z.of_nat (length (b0 :: b1 :: rest))) →
                get m a = mem c a))
  ∧ loadROM c filename (Some []) = Done (c, [])
  ∧ loadROM c filename None = Done (c, ["Failed to open ROM: " +:+ filename]).
Proof.
  intros Hc Hbytes Hsize.
  pose proof (wf_memory_len c Hc) as Hml. unfold MEMORY_SIZE in Hml.
  split; [|split; [by destruct c|done]].
  destruct (loadROM_fits c filename (b0 :: b1 :: rest) Hc)
    as (m & Hrun & Hlen & Hcopy & Hrest);
    [unfold MEMORY_SIZE, PROGRAM_START; lia|].
  unfold PROGRAM_START in *.
  exists m. split; [exact Hrun|]. split; [exact Hcopy|].
  split; [|split; [|split; [exact Hlen|exact Hrest]]].
  - intros a Ha. apply Hrest; lia.
  - intros Hpc. unfold fetchOpcode. cbn [memory pc set_memory]. rewrite Hpc.
    cbn [length] in Hcopy.
    rewrite !ld_get by lia. cbn [mbind outcome_bind mret outcome_ret].
    change 0x200 with (0x200 + 0) at 1. change (0x200 + 1) with (0x200 + 1).
    rewrite (Hcopy 0), (Hcopy 1) by lia.
    change (get (b0 :: b1 :: rest) 0) with b0.
    change (get (b0 :: b1 :: rest) 1) with b1.
    inversion Hbytes as [|? ? Hb0 Hrest']; subst.
    inversion Hrest' as [|? ? Hb1 _]; subst.
    rewrite big_endian by done. unfold u16. by rewrite Z.mod_small by lia.
Qed.

Lemma loadROM_places_program_witness :
  ∃ m, loadROM init "rom" (Some [0xA2; 0x1E; 0xD0; 0x15]) = Done (set_memory init m, [])
       ∧ fetchOpcode (set_memory init m) = Done 0xA21E
       ∧ get m 0x50 = 0xF0
       ∧ get m 0x203 = 0x15
       ∧ get m 0x204 = 0
       ∧ length m = 4096%nat.
Proof.
  destruct (loadROM_places_program init "rom" 0xA2 0x1E [0xD0; 0x15])
    as [(m & Hrun & Hcopy & Hlow & Hfetch & Hlen & Hrest) _].
  - apply init_wf.
  - repeat constructor; lia.
  - simpl. lia.
  - exists m. split; [exact Hrun|]. split; [|split; [|split; [|split]]].
    + apply Hfetch. vm_compute. reflexivity.
    + rewrite Hlow by lia. vm_compute. reflexivity.
    + change 0x203 with (0x200 + 3). rewrite (Hcopy 3) by (simpl; lia).
      reflexivity.
    + rewrite (Hrest 0x204) by (simpl; lia). vm_compute. reflexivity.
    + rewrite Hlen. vm_compute. reflexivity.
Defined.

(** ** Arithmetic with flags *)

Lemma exec_8_7 (c : Chip8) (op : Z) :
  Z.land op 0x000F = 0x7 →
  exec_8 c op =
    (let x := Z.shiftr (Z.land op 0x0F00) 8 in
     let y := Z.shiftr (Z.land op 0x00F0) 4 in
     vy ← ld (V c) y; vx ← ld (V c) x;
     V1 ← st (V c) 0xF (if vy >? vx then 1 else 0);
     vy1 ← ld V1 y; vx1 ← ld V1 x;
     V2 ← st V1 x (u8 (vy1 - vx1));
     ok (advance (set_V c V2) 2)).
Proof. intros H. unfold exec_8. by rewrite H. Qed.

Lemma exec_8_6 (c : Chip8) (op : Z) :
  Z.land op 0x000F = 0x6 →
  exec_8 c op =
    (let x := Z.shiftr (Z.land op 0x0F00) 8 in
     vx ← ld (V c) x;
     V1 ← st (V c) 0xF (Z.land vx 0x1);
     vx1 ← ld V1 x;
     V2 ← st V1 x (Z.shiftr vx1 1);
     ok (advance (set_V c V2) 2)).
Proof. intros H. unfold exec_8. by rewrite H. Qed.

Lemma exec_8_E (c : Chip8) (op : Z) :
  Z.land op 0x000F = 0xE →
  exec_8 c op =
    (let x := Z.shiftr (Z.land op 0x0F00) 8 in
     vx ← ld (V c) x;
     V1 ← st (V c) 0xF (Z.shiftr (Z.land vx 0x80) 7);
     vx1 ← ld V1 x;
     V2 ← st V1 x (u8 (Z.shiftl vx1 1));
     ok (advance (set_V c V2) 2)).
Proof. intros H. unfold exec_8. by rewrite H. Qed.

(** X17: the flag conventions of add and subtract, for operands other than
    VF: 8xy4 leaves Vx = (Vx + Vy) mod 256 with VF = 1 exactly on carry;
    8xy5 leaves Vx = (Vx - Vy) mod 256 with VF = 1 exactly when Vx > Vy, and
    8xy7 leaves Vx = (Vy - Vx) mod 256 with VF = 1 exactly when Vy > Vx: the
    comparison is strict, equal operands give VF = 0. *)
Theorem op_8xy4_8xy5_8xy7_flags (c : Chip8) (x y rnd : Z) :
  wf c → 0 <= x < 15 → 0 <= y < 15 →
  let vx := reg c x in
  let vy := reg c y in
  executeOpcode c (0x8004 + 0x100 * x + 0x10 * y) rnd
  = Done (alu_result c x (if vx + vy >? 255 then 1 else 0) ((vx + vy) mod 256), [])
  ∧ executeOpcode c (0x8005 + 0x100 * x + 0x10 * y) rnd
    = Done (alu_result c x (if vx >? vy then 1 else 0) ((vx - vy) mod 256), [])
  ∧ executeOpcode c (0x8007 + 0x100 * x + 0x10 * y) rnd
    = Done (alu_result c x (if vy >? vx then 1 else 0) ((vy - vx) mod 256), []).
Proof.
  intros Hc Hx Hy vx vy.
  pose proof (wf_x_in_V c x Hc ltac:(lia)) as Hlx.
  pose proof (wf_x_in_V c y Hc ltac:(lia)) as Hly.
  pose proof (wf_x_in_V c 0xF Hc ltac:(lia)) as HlF.
  pose proof (wf_reg_byte c x Hc ltac:(lia)) as Hvx.
  pose proof (wf_reg_byte c y Hc ltac:(lia)) as Hvy.
  fold vx vy in Hvx, Hvy.
  rewrite !executeOpcode_8 by fields.
  rewrite exec_8_4, exec_8_5, exec_8_7 by fields.
  replace (Z.shiftr (Z.land (0x8004 + 0x100 * x + 0x10 * y) 0x0F00) 8)
    with x by fields.
  replace (Z.shiftr (Z.land (0x8004 + 0x100 * x + 0x10 * y) 0x00F0) 4)
    with y by fields.
  replace (Z.shiftr (Z.land (0x8005 + 0x100 * x + 0x10 * y) 0x0F00) 8)
    with x by fields.
  replace (Z.shiftr (Z.land (0x8005 + 0x100 * x + 0x10 * y) 0x00F0) 4)
    with y by fields.
  replace (Z.shiftr (Z.land (0x8007 + 0x100 * x + 0x10 * y) 0x0F00) 8)
    with x by fields.
  replace (Z.shiftr (Z.land (0x8007 + 0x100 * x + 0x10 * y) 0x00F0) 4)
    with y by fields.
  cbv zeta. rewrite !ld_get by done. fold (reg c x) (reg c y). fold vx vy.
  cbn [mbind outcome_bind]. rewrite !st_in by done.
  cbn [mbind outcome_bind].
  rewrite !ld_get by (rewrite length_insert; done).
  cbn [mbind outcome_bind].
  change (Z.to_nat 15) with 15%nat.
  assert (∀ f j, 0 <= j < 15 → get (<[15%nat := f]> (V c)) j = reg c j) as Hget.
  { intros f j Hj. change 15%nat with (Z.to_nat 15).
    by rewrite get_insert_ne by lia. }
  rewrite !Hget by lia. fold vx vy.
  rewrite !st_in by (rewrite length_insert; done).
  cbn [mbind outcome_bind].
  replace (u16 (vx + vy)) with (vx + vy)
    by (unfold u16; by rewrite Z.mod_small by lia).
  rewrite field_nn. done.
Qed.

Lemma op_8xy4_8xy5_8xy7_flags_witness :
  let c := with_regs init [(3, 100); (4, 100)] in
  executeOpcode c 0x8345 0 = Done (alu_result c 3 0 0, [])
  ∧ executeOpcode c 0x8344 0 = Done (alu_result c 3 0 200, []).
Proof.
  intros c.
  destruct (op_8xy4_8xy5_8xy7_flags c 3 4 0) as (Hadd & Hsub & _).
  - apply wfb_wf. vm_compute. reflexivity.
  - lia.
  - lia.
  - split; [exact Hsub|exact Hadd].
Defined.

Lemma top_bit (v : Z) : 0 <= v < 256 → Z.shiftr (Z.land v 0x80) 7 = v / 128.
Proof.
  intros Hv.
  assert (Z.land v 0x80 = Z.shiftl (Z.land (Z.shiftr v 7) (Z.ones 1)) 7) as ->
    by (apply (land_shifted_mask v (Z.ones 1) 7); lia).
  rewrite Z.land_ones by lia.
  rewrite Z.shiftr_shiftl_l by lia. rewrite Z.shiftr_div_pow2 by lia.
  change (7 - 7) with 0. rewrite Z.shiftl_0_r.
  change (2 ^ 7) with 128. change (2 ^ 1) with 2.
  Z.div_mod_to_equations. lia.
Qed.

(** X18: the shifts work on Vx alone and ignore Vy: for x other than 0xF,
    8xy6 halves Vx and puts the bit shifted out in VF, 8xyE doubles Vx
    modulo 256 and puts the former top bit in VF. *)
Theorem op_8xy6_8xyE_shift_Vx (c : Chip8) (x y rnd : Z) :
  wf c → 0 <= x < 15 → 0 <= y < 16 →
  let vx := reg c x in
  executeOpcode c (0x8006 + 0x100 * x + 0x10 * y) rnd
  = Done (alu_result c x (vx mod 2) (vx / 2), [])
  ∧ executeOpcode c (0x800E + 0x100 * x + 0x10 * y) rnd
    = Done (alu_result c x (vx / 128) ((2 * vx) mod 256), []).
Proof.
  intros Hc Hx Hy vx.
  pose proof (wf_x_in_V c x Hc ltac:(lia)) as Hlx.
  pose proof (wf_x_in_V c 0xF Hc ltac:(lia)) as HlF.
  pose proof (wf_reg_byte c x Hc ltac:(lia)) as Hvx. fold vx in Hvx.
  rewrite !executeOpcode_8 by fields.
  rewrite exec_8_6, exec_8_E by fields.
  replace (Z.shiftr (Z.land (0x8006 + 0x100 * x + 0x10 * y) 0x0F00) 8)
    with x by fields.
  replace (Z.shiftr (Z.land (0x800E + 0x100 * x + 0x10 * y) 0x0F00) 8)
    with x by fields.
  cbv zeta. rewrite !ld_get by done. fold (reg c x). fold vx.
  cbn [mbind outcome_bind]. rewrite !st_in by done.
  cbn [mbind outcome_bind].
  rewrite !ld_get by (rewrite length_insert; done).
  cbn [mbind outcome_bind].
  rewrite !get_insert_ne by lia. fold (reg c x). fold vx.
  rewrite !st_in by (rewrite length_insert; done).
  cbn [mbind outcome_bind].
  change (Z.to_nat 15) with 15%nat.
  replace (Z.land vx 1) with (vx mod 2)
    by (change 1 with (Z.ones 1); by rewrite Z.land_ones by lia).
  replace (Z.shiftr vx 1) with (vx / 2)
    by (by rewrite Z.shiftr_div_pow2 by lia).
  rewrite top_bit by done.
  replace (u8 (Z.shiftl vx 1)) with ((2 * vx) mod 256)
    by (unfold u8; rewrite Z.shiftl_mul_pow2 by lia; f_equal; lia).
  done.
Qed.

Lemma op_8xy6_8xyE_shift_Vx_witness :
  let c := with_regs init [(3, 201); (4, 7)] in
  executeOpcode c 0x8346 0 = Done (alu_result c 3 1 100, [])
  ∧ executeOpcode c 0x834E 0 = Done (alu_result c 3 1 146, []).
Proof.
  intros c.
  destruct (op_8xy6_8xyE_shift_Vx c 3 4 0) as (Hshr & Hshl).
  - apply wfb_wf. vm_compute. reflexivity.
  - lia.
  - lia.
  - split; [exact Hshr|exact Hshl].
Defined.

(** ** Skips on register comparisons *)

Lemma executeOpcode_3 (c : Chip8) (op rnd : Z) :
  Z.land op 0xF000 = 0x3000 →
  executeOpcode c op rnd =
    (vx ← ld (V c) (Z.shiftr (Z.land op 0x0F00) 8);
     skip_if c (vx =? Z.land op 0x00FF)).
Proof. intros H. unfold executeOpcode. by rewrite H. Qed.

Lemma executeOpcode_5 (c : Chip8) (op rnd : Z) :
  Z.land op 0xF000 = 0x5000 →
  executeOpcode c op rnd =
    (vx ← ld (V c) (Z.shiftr (Z.land op 0x0F00) 8);
     vy ← ld (V c) (Z.shiftr (Z.land op 0x00F0) 4);
     skip_if c (vx =? vy)).
Proof. intros H. unfold executeOpcode. by rewrite H. Qed.

Lemma executeOpcode_9 (c : Chip8) (op rnd : Z) :
  Z.land op 0xF000 = 0x9000 →
  executeOpcode c op rnd =
    (vx ← ld (V c) (Z.shiftr (Z.land op 0x0F00) 8);
     vy ← ld (V c) (Z.shiftr (Z.land op 0x00F0) 4);
     skip_if c (negb (vx =? vy))).
Proof. intros H. unfold executeOpcode. by rewrite H. Qed.

(** X19: 3xnn skips exactly when Vx = nn; 5xyn skips exactly when Vx = Vy
    and 9xyn exactly when Vx != Vy, whatever the low nibble n is: it is not
    decoded, so 5xy1..5xyF and 9xy1..9xyF run as 5xy0 and 9xy0.  Nothing
    but pc changes. *)
Theorem skip_on_comparison (c : Chip8) (x y n nn rnd : Z) :
  wf c → 0 <= x < 16 → 0 <= y < 16 → 0 <= n < 16 → 0 <= nn < 256 →
  executeOpcode c (0x3000 + 0x100 * x + nn) rnd
  = Done (set_pc c (u16 (pc c + (if reg c x =? nn then 4 else 2))), [])
  ∧ executeOpcode c (0x5000 + 0x100 * x + 0x10 * y + n) rnd
    = Done (set_pc c (u16 (pc c + (if reg c x =? reg c y then 4 else 2))), [])
  ∧ executeOpcode c (0x9000 + 0x100 * x + 0x10 * y + n) rnd
    = Done (set_pc c (u16 (pc c + (if reg c x =? reg c y then 2 else 4))), []).
Proof.
  intros Hc Hx Hy Hn Hnn.
  pose proof (wf_x_in_V c x Hc Hx) as Hlx.
  pose proof (wf_x_in_V c y Hc Hy) as Hly.
  rewrite executeOpcode_3, executeOpcode_5, executeOpcode_9 by fields.
  replace (Z.shiftr (Z.land (0x3000 + 0x100 * x + nn) 0x0F00) 8) with x by fields.
  replace (Z.land (0x3000 + 0x100 * x + nn) 0x00FF) with nn by fields.
  replace (Z.shiftr (Z.land (0x5000 + 0x100 * x + 0x10 * y + n) 0x0F00) 8)
    with x by fields.
  replace (Z.shiftr (Z.land (0x5000 + 0x100 * x + 0x10 * y + n) 0x00F0) 4)
    with y by fields.
  replace (Z.shiftr (Z.land (0x9000 + 0x100 * x + 0x10 * y + n) 0x0F00) 8)
    with x by fields.
  replace (Z.shiftr (Z.land (0x9000 + 0x100 * x + 0x10 * y + n) 0x00F0) 4)
    with y by fields.
  rewrite !ld_get by done. fold (reg c x) (reg c y).
  cbn [mbind outcome_bind]. unfold skip_if.
  repeat split.
  - by destruct (reg c x =? nn).
  - by destruct (reg c x =? reg c y).
  - by destruct (reg c x =? reg c y).
Qed.

Lemma skip_on_comparison_witness :
  let c := with_regs init [(1, 9); (2, 9)] in
  executeOpcode c 0x3109 0 = Done (set_pc c 0x204, [])
  ∧ executeOpcode c 0x512F 0 = Done (set_pc c 0x204, [])
  ∧ executeOpcode c 0x912F 0 = Done (set_pc c 0x202, []).
Proof.
  intros c.
  apply (skip_on_comparison c 1 2 0xF 9 0); try lia.
  apply wfb_wf. vm_compute. reflexivity.
Defined.

(** ** Clearing, adding, jumping *)

(** X20: 00E0 zeroes every cell of the framebuffer and raises the draw
    flag; only the display, the flag and pc change. *)
Theorem op_00E0_clears_display (c : Chip8) (rnd : Z) :
  wf c →
  ∃ d, executeOpcode c 0x00E0 rnd
       = Done (set_pc (set_drawFlag (set_display c d) true) (u16 (pc c + 2)), [])
       ∧ length d = length (display c)
       ∧ ∀ i, get d i = 0.
Proof.
  intros Hc. rewrite executeOpcode_0 by done. unfold exec_0.
  change (0x00E0 =? 0x00E0) with true. cbv iota.
  eexists. split; [reflexivity|]. split; [by rewrite length_replicate|].
  intros i. apply get_replicate_0.
Qed.

Lemma op_00E0_clears_display_witness :
  ∃ d, executeOpcode row_at_edge 0x00E0 0
       = Done (set_pc (set_drawFlag (set_display row_at_edge d) true) 0x202, [])
       ∧ get d 62 = 0.
Proof.
  destruct (op_00E0_clears_display row_at_edge 0) as (d & Hrun & _ & Hzero).
  - apply wfb_wf. vm_compute. reflexivity.
  - exists d. split; [exact Hrun|apply Hzero].
Defined.

Lemma executeOpcode_7 (c : Chip8) (op rnd : Z) :
  Z.land op 0xF000 = 0x7000 →
  executeOpcode c op rnd =
    (vx ← ld (V c) (Z.shiftr (Z.land op 0x0F00) 8);
     V1 ← st (V c) (Z.shiftr (Z.land op 0x0F00) 8) (u8 (vx + Z.land op 0x00FF));
     ok (advance (set_V c V1) 2)).
Proof. intros H. unfold executeOpcode. by rewrite H. Qed.

Lemma exec_F_1E (c : Chip8) (op : Z) :
  Z.land op 0x00FF = 0x1E →
  exec_F c op =
    (vx ← ld (V c) (Z.shiftr (Z.land op 0x0F00) 8);
     ok (advance (set_I c (u16 (I c + vx))) 2)).
Proof. intros H. unfold exec_F. by rewrite H. Qed.

(** X21: the two additions without a flag: 7xnn leaves Vx = (Vx + nn) mod
    256 and Fx1E leaves I = (I + Vx) mod 65536; neither reports the
    overflow, VF keeps its value (unless it is the Vx of 7xnn). *)
Theorem adds_without_flag (c : Chip8) (x nn rnd : Z) :
  wf c → 0 <= x < 16 → 0 <= nn < 256 →
  executeOpcode c (0x7000 + 0x100 * x + nn) rnd
  = Done (set_pc (set_V c (<[Z.to_nat x := (reg c x + nn) mod 256]> (V c)))
                 (u16 (pc c + 2)), [])
  ∧ (x ≠ 0xF →
     reg (set_V c (<[Z.to_nat x := (reg c x + nn) mod 256]> (V c))) 0xF
     = reg c 0xF)
  ∧ executeOpcode c (0xF01E + 0x100 * x) rnd
    = Done (set_pc (set_I c ((I c + reg c x) mod 65536)) (u16 (pc c + 2)), []).
Proof.
  intros Hc Hx Hnn.
  pose proof (wf_x_in_V c x Hc Hx) as Hlx.
  split; [|split].
  - rewrite executeOpcode_7 by fields.
    replace (Z.shiftr (Z.land (0x7000 + 0x100 * x + nn) 0x0F00) 8) with x by fields.
    replace (Z.land (0x7000 + 0x100 * x + nn) 0x00FF) with nn by fields.
    rewrite ld_get by done. fold (reg c x). cbn [mbind outcome_bind].
    by rewrite st_in by done.
  - intros HxF. unfold reg. cbn [V set_V]. by rewrite get_insert_ne by lia.
  - rewrite executeOpcode_F by fields. rewrite exec_F_1E by fields.
    replace (Z.shiftr (Z.land (0xF01E + 0x100 * x) 0x0F00) 8) with x by fields.
    rewrite ld_get by done. fold (reg c x). done.
Qed.

Lemma adds_without_flag_witness :
  let c := set_I (with_regs init [(3, 250); (15, 1)]) 0xFFFF in
  executeOpcode c 0x730A 0
  = Done (set_pc (set_V c (<[3%nat := 4]> (V c))) 0x202, [])
  ∧ executeOpcode c 0xF31E 0 = Done (set_pc (set_I c 249) 0x202, []).
Proof.
  intros c.
  destruct (adds_without_flag c 3 10 0) as (H7 & _ & H1E).
  - apply wfb_wf. vm_compute. reflexivity.
  - lia.
  - lia.
  - split; [exact H7|exact H1E].
Defined.

Lemma executeOpcode_B (c : Chip8) (op rnd : Z) :
  Z.land op 0xF000 = 0xB000 →
  executeOpcode c op rnd =
    (v0 ← ld (V c) 0;
     ok (set_pc c (u16 (Z.land op 0x0FFF + v0)))).
Proof. intros H. unfold executeOpcode. by rewrite H. Qed.

(** X22: Bnnn jumps to nnn + V0, which can lie past the end of memory:
    the jump itself completes, and when nnn + V0 > 4094 the next cycle
    reads its opcode outside memory. *)
Theorem op_Bnnn_can_leave_memory (c : Chip8) (nnn rnd : Z) :
  wf c → 0 <= nnn < 4096 →
  executeOpcode c (0xB000 + nnn) rnd = Done (set_pc c (nnn + reg c 0), [])
  ∧ (4094 < nnn + reg c 0 →
     emulateCycle (set_pc c (nnn + reg c 0)) rnd = Undefined).
Proof.
  intros Hc Hnnn.
  pose proof (wf_reg_byte c 0 Hc ltac:(lia)) as Hv0.
  pose proof (wf_memory_len c Hc) as Hml. unfold MEMORY_SIZE in Hml.
  split.
  - rewrite executeOpcode_B by fields.
    replace (Z.land (0xB000 + nnn) 0x0FFF) with nnn by fields.
    rewrite ld_get by (apply wf_x_in_V; [done|lia]). fold (reg c 0).
    cbn [mbind outcome_bind]. unfold u16. by rewrite Z.mod_small by lia.
  - intros Hout. unfold emulateCycle, fetchOpcode. cbn [memory pc set_pc].
    destruct (decide (nnn + reg c 0 < 4096)) as [Hin|Hpast].
    + rewrite (ld_get _ (nnn + reg c 0)) by lia. cbn [mbind outcome_bind].
      by rewrite ld_out by lia.
    + by rewrite (ld_out _ (nnn + reg c 0)) by lia.
Qed.

Lemma op_Bnnn_can_leave_memory_witness :
  let c := with_regs init [(0, 0xFF)] in
  executeOpcode c 0xBFFF 0 = Done (set_pc c 0x10FE, [])
  ∧ emulateCycle (set_pc c 0x10FE) 0 = Undefined.
Proof.
  intros c.
  destruct (op_Bnnn_can_leave_memory c 0xFFF 0) as [Hjump Hnext].
  - apply wfb_wf. vm_compute. reflexivity.
  - lia.
  - split; [exact Hjump|]. apply Hnext. vm_compute. reflexivity.
Defined.

(** ** The constructor *)

Lemma forallb_seq_Z (P : Z → bool) (n : nat) :
  forallb P (map Z.of_nat (seq 0 n)) = true →
  ∀ a, 0 <= a < Z.of_nat n → P a = true.
Proof.
  intros Hall a Ha. rewrite forallb_forall in Hall. apply Hall.
  apply in_map_iff. exists (Z.to_nat a). split; [lia|].
  apply in_seq. lia.
Qed.

(** X23: the constructor builds a well-formed machine with pc at 0x200 and
    the 80 font bytes at 0x50..0x9F, five per digit in digit order: row i
    of digit d is at 0x50 + 5 d + i, and every other byte of memory is
    zero. *)
Theorem constructor_loads_font :
  Chip8_new = Done init
  ∧ wf init
  ∧ pc init = 0x200 ∧ sp init = 0 ∧ I init = 0
  ∧ (∀ d i, 0 <= d < 16 → 0 <= i < 5 →
            mem init (0x50 + 5 * d + i) = get fontset (5 * d + i))
  ∧ (∀ a, 0 <= a < 4096 → ¬ (0x50 <= a < 0xA0) → mem init a = 0).
Proof.
  split; [apply Chip8_new_done|]. split; [apply init_wf|].
  split; [vm_compute; reflexivity|]. split; [vm_compute; reflexivity|].
  split; [vm_compute; reflexivity|].
  assert (forallb
            (λ a, mem init a
                  =? (if (0x50 <=? a) && (a <? 0xA0)
                      then get fontset (a - 0x50) else 0))
            (map Z.of_nat (seq 0 (Z.to_nat 4096))) = true) as Hall
    by (vm_compute; reflexivity).
  pose proof (forallb_seq_Z _ _ Hall) as Hmem. cbv beta in Hmem. clear Hall.
  split.
  - intros d i Hd Hi. specialize (Hmem (0x50 + 5 * d + i) ltac:(lia)).
    apply Z.eqb_eq in Hmem. rewrite Hmem.
    destruct (Z.leb_spec 0x50 (0x50 + 5 * d + i)); [|lia].
    destruct (Z.ltb_spec (0x50 + 5 * d + i) 0xA0); [|lia].
    cbn [andb]. f_equal. lia.
  - intros a Ha Hout. specialize (Hmem a ltac:(lia)).
    apply Z.eqb_eq in Hmem. rewrite Hmem.
    destruct (Z.leb_spec 0x50 a); destruct (Z.ltb_spec a 0xA0);
      cbn [andb]; [lia|reflexivity..].
Qed.

Lemma constructor_loads_font_witness :
  map (mem init) [0x55; 0x56; 0x57; 0x58; 0x59] = [0x20; 0x60; 0x20; 0x20; 0x70].
Proof.
  destruct constructor_loads_font as (_ & _ & _ & _ & _ & Hfont & _).
  change (map (mem init) [0x55; 0x56; 0x57; 0x58; 0x59])
    with [mem init (0x50 + 5 * 1 + 0); mem init (0x50 + 5 * 1 + 1);
          mem init (0x50 + 5 * 1 + 2); mem init (0x50 + 5 * 1 + 3);
          mem init (0x50 + 5 * 1 + 4)].
  rewrite (Hfont 1 0), (Hfont 1 1), (Hfont 1 2), (Hfont 1 3), (Hfont 1 4) by lia.
  reflexivity.
Defined.

Lemma reachable_wf_witness :
  wf (renderDisplay (with_code init 0x200 self_call)).
Proof.
  apply reachable_wf. apply reach_render.
  apply (reach_load init "rom" (Some self_call) _ []).
  - apply reach_init.
  - repeat constructor; lia.
  - vm_compute. reflexivity.
Defined.
